(** * Order, inventory and preorder workflows of the bambosey backend

    A shallow embedding of the route handlers that fill and show the cart
    (routes/cart.js), that place, read and cancel orders and set an order's
    status (routes/orders.js), and that place and cancel preorders and move
    them through their life cycle (the preorder router, stored as
    routes/admin.js); and of the product routes kept in routes/orders.js as
    well: the deletion of a product and the helper functions that summarise
    the stock of a product.

    Conventions of the embedding.

    - The database is an explicit [Store] value, one field per table of the
      migration.  A handler is a function from the store (and the request) to
      a response and the store it leaves behind.
    - Calls made on the transaction client [tx] inside [prisma.$transaction]
      live in the monad [Tx]; a call that throws aborts the whole block and
      [transaction] hands back the store it started from.
    - Prisma's [update] throws when no row matches its [where]; [create]
      receives an identifier that is not yet used in the table, which is all
      the handlers rely on from the SERIAL columns.
    - The keys of the migration are part of the store's behaviour where a
      request can run into them: an order is not inserted when its order
      number is taken (the unique index) or when one of its address ids
      names no address (the foreign keys of [orders]), and the referential
      actions on deleted rows are carried out where a handler deletes.
      Rows that are read from the store are taken to satisfy the foreign
      keys of their own table, and the caller to be a user on file, as the
      authentication layer in front of the handlers vouches.
    - Numbers are integers without bound.  The ranges of the columns
      (INTEGER, DECIMAL(10,2)) are not part of the handlers; where a
      property says that a request goes through, it assumes that the values
      the request writes fit their columns ([fitsInteger], [fitsDecimal]).
    - Monetary columns are DECIMAL(10,2); amounts are counted in cents as
      integers, which is what the database stores.  JavaScript numbers are
      binary doubles: the sums the cart view answers and the amounts of a
      preorder's answer are outside the model where they are not whole
      cents, and so is a deposit that is not a whole number of cents.
    - A query without [orderBy] returns the rows in the order of the list
      that holds the table.
    - Columns the ORM maintains by itself (created_at, updated_at) and
      columns none of the modelled handlers reads or writes are left out.
    - Instants ([new Date()]) are integers (milliseconds) handed to the
      handler; so is the order number, which the source derives from the
      clock and the random generator.
    - JavaScript truthiness is written out: a number is truthy when it is
      not 0, a string when it is not empty, an object (such as a Prisma
      Decimal or a Date) always.
    - Fields of a request body have the JSON type the route documents:
      integers are numbers, not strings of digits. *)

From stdpp Require Import gmap strings list fin_maps infinite.
From Stdlib Require Import ZArith Lia Sorted.

Open Scope Z_scope.

(** ** Enumerations of the schema *)

Module OrderStatus.
Inductive t := PENDING | CONFIRMED | PROCESSING | SHIPPED | DELIVERED | CANCELLED.
Definition eqb (a b : t) : bool :=
  match a, b with
  | PENDING, PENDING | CONFIRMED, CONFIRMED | PROCESSING, PROCESSING
  | SHIPPED, SHIPPED | DELIVERED, DELIVERED | CANCELLED, CANCELLED => true
  | _, _ => false
  end.
End OrderStatus.

Module OrderType.
Inductive t := REGULAR | PREORDER.
End OrderType.

Module PreorderStatus.
Inductive t := PENDING | CONFIRMED | READY | SHIPPED | DELIVERED | CANCELLED | EXPIRED.
Definition eqb (a b : t) : bool :=
  match a, b with
  | PENDING, PENDING | CONFIRMED, CONFIRMED | READY, READY
  | SHIPPED, SHIPPED | DELIVERED, DELIVERED | CANCELLED, CANCELLED
  | EXPIRED, EXPIRED => true
  | _, _ => false
  end.
Definition name (s : t) : string :=
  match s with
  | PENDING => "PENDING" | CONFIRMED => "CONFIRMED" | READY => "READY"
  | SHIPPED => "SHIPPED" | DELIVERED => "DELIVERED"
  | CANCELLED => "CANCELLED" | EXPIRED => "EXPIRED"
  end.
End PreorderStatus.

(** ** Rows of the tables *)

(** Modelled from the spec: the column behind [totalPreorders], the
    product's running preorder-quantity counter that preorder placement
    increments, is missing from the migration; the other fields are columns
    of [products]. *)
Module Product.
Record t := {
  basePrice : Z;
  isActive : bool;
  allowPreorder : bool;
  preorderPrice : option Z;
  expectedStockDate : option Z;
  preorderLimit : option Z;
  totalPreorders : Z
}.
End Product.

Module ProductVariant.
Record t := {
  productId : Z;
  price : option Z;
  isActive : bool
}.
End ProductVariant.

Module Inventory.
Record t := {
  quantity : Z;
  reservedQuantity : Z;
  lowStockThreshold : Z
}.
End Inventory.

Module Address.
Record t := { userId : Z }.
End Address.

Module Cart.
Record t := { id : Z }.
End Cart.

Module CartItem.
Record t := {
  cartId : Z;
  productId : Z;
  productVariantId : option Z;
  quantity : Z;
  price : Z;
  isPreorder : bool
}.
End CartItem.

Module OrderItem.
Record t := {
  productId : Z;
  productVariantId : option Z;
  quantity : Z;
  price : Z;
  total : Z;
  isPreorder : bool
}.
End OrderItem.

Module Order.
Record t := {
  id : Z;
  userId : Z;
  orderNumber : string;
  status : OrderStatus.t;
  totalAmount : Z;
  shippingAddressId : option Z;
  billingAddressId : option Z;
  paymentMethod : string;
  orderType : OrderType.t;
  items : list OrderItem.t
}.
Definition with_status (s : OrderStatus.t) (o : t) : t :=
  {| id := id o; userId := userId o; orderNumber := orderNumber o;
     status := s; totalAmount := totalAmount o;
     shippingAddressId := shippingAddressId o;
     billingAddressId := billingAddressId o;
     paymentMethod := paymentMethod o; orderType := orderType o;
     items := items o |}.
End Order.

(** Modelled from the spec: the columns behind [updatedBy],
    [trackingNumber], [adminNotes], [shippedAt], [deliveredAt] and
    [cancelledAt], which the status update writes, are missing from the
    migration; the other fields are columns of [preorders]. *)
Module Preorder.
Record t := {
  id : Z;
  userId : Z;
  productId : Z;
  productVariantId : option Z;
  quantity : Z;
  price : Z;
  status : PreorderStatus.t;
  shippingAddressId : option Z;
  expectedDate : option Z;
  depositPaid : Z;
  remainingAmount : Z;
  updatedBy : option Z;
  trackingNumber : option string;
  adminNotes : option string;
  shippedAt : option Z;
  deliveredAt : option Z;
  cancelledAt : option Z
}.
End Preorder.

(** Modelled from the spec: the table of status history records is missing
    from the migration; a row holds what the handler writes, which is what
    the specification asks of a history record: from-status, to-status,
    actor, timestamp and note. *)
Module PreorderStatusHistory.
Record t := {
  preorderId : Z;
  fromStatus : PreorderStatus.t;
  toStatus : PreorderStatus.t;
  changedBy : Z;
  notes : string;
  timestamp : Z
}.
End PreorderStatusHistory.

(** ** The store

    [inventory] is keyed by product_variant_id, on which the table has a
    unique index; [cart] by user_id, unique as well; the other maps by the
    primary key.  Tables that are only filtered or summed are lists of rows. *)

Record Store := {
  products : gmap Z Product.t;
  product_variants : gmap Z ProductVariant.t;
  inventory : gmap Z Inventory.t;
  addresses : gmap Z Address.t;
  cart : gmap Z Cart.t;
  cart_items : list CartItem.t;
  orders : gmap Z Order.t;
  preorders : list Preorder.t;
  preorder_status_history : list PreorderStatusHistory.t
}.

Definition set_products (m : gmap Z Product.t) (st : Store) : Store :=
  {| products := m; product_variants := product_variants st;
     inventory := inventory st; addresses := addresses st; cart := cart st;
     cart_items := cart_items st; orders := orders st;
     preorders := preorders st;
     preorder_status_history := preorder_status_history st |}.

Definition set_inventory (m : gmap Z Inventory.t) (st : Store) : Store :=
  {| products := products st; product_variants := product_variants st;
     inventory := m; addresses := addresses st; cart := cart st;
     cart_items := cart_items st; orders := orders st;
     preorders := preorders st;
     preorder_status_history := preorder_status_history st |}.

Definition set_cart_items (l : list CartItem.t) (st : Store) : Store :=
  {| products := products st; product_variants := product_variants st;
     inventory := inventory st; addresses := addresses st; cart := cart st;
     cart_items := l; orders := orders st; preorders := preorders st;
     preorder_status_history := preorder_status_history st |}.

Definition set_orders (m : gmap Z Order.t) (st : Store) : Store :=
  {| products := products st; product_variants := product_variants st;
     inventory := inventory st; addresses := addresses st; cart := cart st;
     cart_items := cart_items st; orders := m; preorders := preorders st;
     preorder_status_history := preorder_status_history st |}.

Definition set_preorders (l : list Preorder.t) (st : Store) : Store :=
  {| products := products st; product_variants := product_variants st;
     inventory := inventory st; addresses := addresses st; cart := cart st;
     cart_items := cart_items st; orders := orders st; preorders := l;
     preorder_status_history := preorder_status_history st |}.

Definition set_preorder_status_history
    (l : list PreorderStatusHistory.t) (st : Store) : Store :=
  {| products := products st; product_variants := product_variants st;
     inventory := inventory st; addresses := addresses st; cart := cart st;
     cart_items := cart_items st; orders := orders st;
     preorders := preorders st; preorder_status_history := l |}.

(** ** Transactions *)

Definition Tx (A : Type) : Type := Store → option (A * Store).

Definition tx_ret {A} (a : A) : Tx A := λ st, Some (a, st).

Definition tx_throw {A} : Tx A := λ _, None.

Definition tx_bind {A B} (c : Tx A) (k : A → Tx B) : Tx B :=
  λ st, match c st with
        | Some (a, st') => k a st'
        | None => None
        end.

Notation "x <~ c ;; k" := (tx_bind c (λ x, k))
  (at level 100, c at next level, right associativity).

(** [for (const x of l) { await f x }] *)
Fixpoint forEach {A} (f : A → Tx unit) (l : list A) : Tx unit :=
  match l with
  | [] => tx_ret tt
  | x :: rest => _ <~ f x ;; forEach f rest
  end.

(** [prisma.$transaction(async tx => body)]: all or nothing. *)
Definition transaction {A} (body : Tx A) (st : Store) : option A * Store :=
  match body st with
  | Some (a, st') => (Some a, st')
  | None => (None, st)
  end.

(** A single call on the global client commits by itself. *)
Definition autocommit {A} (call : Tx A) (st : Store) : option A * Store :=
  transaction call st.

(** ** Calls on the ORM client *)

(** [x.update({ where, data })] on a table keyed by [k]: throws when the row
    is missing. *)
Definition inventory_update (productVariantId : Z)
    (data : Inventory.t → Inventory.t) : Tx unit :=
  λ st, match inventory st !! productVariantId with
        | Some row =>
            Some (tt, set_inventory (<[productVariantId := data row]> (inventory st)) st)
        | None => None
        end.

(** [quantity: { decrement: n }] and [quantity: { increment: n }] *)
Definition decrement (n : Z) (row : Inventory.t) : Inventory.t :=
  {| Inventory.quantity := Inventory.quantity row - n;
     Inventory.reservedQuantity := Inventory.reservedQuantity row;
     Inventory.lowStockThreshold := Inventory.lowStockThreshold row |}.

Definition increment (n : Z) (row : Inventory.t) : Inventory.t :=
  {| Inventory.quantity := Inventory.quantity row + n;
     Inventory.reservedQuantity := Inventory.reservedQuantity row;
     Inventory.lowStockThreshold := Inventory.lowStockThreshold row |}.

Definition order_update (id : Z) (data : Order.t → Order.t) : Tx Order.t :=
  λ st, match orders st !! id with
        | Some row =>
            Some (data row, set_orders (<[id := data row]> (orders st)) st)
        | None => None
        end.

(** The unique index [orders_order_number_key]: some order on file has the
    number. *)
Definition orderNumber_taken (st : Store) (orderNumber : string) : bool :=
  existsb (λ row, String.eqb (Order.orderNumber row.2) orderNumber)
          (map_to_list (orders st)).

(** The foreign keys [orders_shipping_address_id_fkey] and
    [orders_billing_address_id_fkey]: the id names an address, whoever
    owns it. *)
Definition address_exists (st : Store) (id : Z) : bool :=
  match addresses st !! id with
  | Some _ => true
  | None => false
  end.

(** [order.create]: the row receives an unused id and the default status.
    The handler looks up neither the addresses nor the order number before
    the insert; the database rejects the row, and the call throws, when the
    number is taken or an address id names no address. *)
Definition order_create (userId : Z) (orderNumber : string) (totalAmount : Z)
    (shippingAddressId billingAddressId : Z) (paymentMethod : string)
    (orderType : OrderType.t) (items : list OrderItem.t) : Tx Order.t :=
  λ st,
    if orderNumber_taken st orderNumber then None else
    if negb (address_exists st shippingAddressId
             && address_exists st billingAddressId) then None else
    let id := fresh (dom (orders st)) in
    let row :=
      {| Order.id := id; Order.userId := userId;
         Order.orderNumber := orderNumber;
         Order.status := OrderStatus.PENDING;
         Order.totalAmount := totalAmount;
         Order.shippingAddressId := Some shippingAddressId;
         Order.billingAddressId := Some billingAddressId;
         Order.paymentMethod := paymentMethod;
         Order.orderType := orderType;
         Order.items := items |} in
    Some (row, set_orders (<[id := row]> (orders st)) st).

Definition cartItem_deleteMany (cartId : Z) : Tx unit :=
  λ st, Some (tt, set_cart_items
                    (List.filter (λ it, negb (CartItem.cartId it =? cartId))
                                 (cart_items st)) st).

(** A cart item as [cart.findUnique] returns it with
    [include: { productVariant: { include: { inventory: true } } }]: the
    joined variant is null when the item has no variant id, and the variant's
    inventory is null when the variant has no inventory row. *)
Module CartLine.
Record t := {
  item : CartItem.t;
  productVariant : option (ProductVariant.t * option Inventory.t)
}.
Definition isPreorder (l : t) : bool := CartItem.isPreorder (item l).
Definition quantity (l : t) : Z := CartItem.quantity (item l).
Definition price (l : t) : Z := CartItem.price (item l).
End CartLine.

Definition loadCartLine (st : Store) (it : CartItem.t) : CartLine.t :=
  {| CartLine.item := it;
     CartLine.productVariant :=
       vid ← CartItem.productVariantId it;
       v ← product_variants st !! vid;
       Some (v, inventory st !! vid) |}.

Definition cart_findUnique (st : Store) (userId : Z)
    : option (Cart.t * list CartLine.t) :=
  c ← cart st !! userId;
  Some (c, map (loadCartLine st)
               (List.filter (λ it, CartItem.cartId it =? Cart.id c)
                            (cart_items st))).

(** An order item as [order.findFirst] returns it with
    [include: { items: { include: { productVariant: true } } }]. *)
Module OrderLine.
Record t := {
  item : OrderItem.t;
  productVariant : option ProductVariant.t
}.
End OrderLine.

Definition loadOrderLine (st : Store) (it : OrderItem.t) : OrderLine.t :=
  {| OrderLine.item := it;
     OrderLine.productVariant :=
       vid ← OrderItem.productVariantId it; product_variants st !! vid |}.

Definition order_findFirst (st : Store) (id userId : Z)
    : option (Order.t * list OrderLine.t) :=
  o ← orders st !! id;
  if Order.userId o =? userId
  then Some (o, map (loadOrderLine st) (Order.items o))
  else None.

(** ** Values of request bodies and filters *)

(** [if (id)] on an optional integer of the request body *)
Definition truthy_id (id : option Z) : option Z :=
  match id with
  | Some n => if n =? 0 then None else Some n
  | None => None
  end.

Definition option_Z_eqb (a b : option Z) : bool :=
  match a, b with
  | Some x, Some y => x =? y
  | None, None => true
  | _, _ => false
  end.

(** ** routes/cart.js: POST /items (add item to cart) *)

Module AddToCartRequest.
Record t := {
  productId : Z;
  productVariantId : option Z;
  quantity : Z;
  isPreorder : option bool
}.
End AddToCartRequest.

Inductive AddToCartResponse :=
| ItemAdded (item : CartItem.t)      (* 201 'Item added to cart' *)
| CartUpdated (item : CartItem.t)    (* 200 'Cart updated successfully' *)
| AddToCartInvalid                   (* 400, validation errors *)
| CartProductNotFound                (* 404 'Product not found' *)
| CartVariantNotFound                (* 404 'Product variant not found' *)
| CartInsufficientStock              (* 400 'Insufficient stock' *)
| PreordersNotAllowed                (* 400 'Preorders not allowed ...' *)
| AddToCartFailed.                   (* 500 'Failed to add item to cart' *)

(** [product.findFirst({ where: { id, isActive: true } })] *)
Definition product_findFirst_active (st : Store) (productId : Z)
    : option Product.t :=
  p ← products st !! productId;
  if Product.isActive p then Some p else None.

(** [productVariant.findFirst({ where: { id, productId, isActive: true },
     include: { inventory: true } })] *)
Definition productVariant_findFirst (st : Store) (id productId : Z)
    : option (ProductVariant.t * option Inventory.t) :=
  v ← product_variants st !! id;
  if (ProductVariant.productId v =? productId) && ProductVariant.isActive v
  then Some (v, inventory st !! id) else None.

(** The [where] of the search for the item already in the cart. *)
Definition sameCartLine (cartId productId : Z) (productVariantId : option Z)
    (isPreorder : bool) (it : CartItem.t) : bool :=
  (CartItem.cartId it =? cartId)
  && (CartItem.productId it =? productId)
  && option_Z_eqb (CartItem.productVariantId it) productVariantId
  && Bool.eqb (CartItem.isPreorder it) isPreorder.

(** [cartItem.update({ where: { id: existingItem.id }, data: { quantity } })]
    on the row the search returned, the first that matches. *)
Fixpoint updateFirst (p : CartItem.t → bool) (f : CartItem.t → CartItem.t)
    (rows : list CartItem.t) : list CartItem.t :=
  match rows with
  | [] => []
  | it :: rest => if p it then f it :: rest else it :: updateFirst p f rest
  end.

Definition with_quantity (n : Z) (it : CartItem.t) : CartItem.t :=
  {| CartItem.cartId := CartItem.cartId it;
     CartItem.productId := CartItem.productId it;
     CartItem.productVariantId := CartItem.productVariantId it;
     CartItem.quantity := n;
     CartItem.price := CartItem.price it;
     CartItem.isPreorder := CartItem.isPreorder it |}.

(** Get or create the cart; a created cart is committed at once. *)
Definition cart_getOrCreate (st : Store) (userId : Z) : Cart.t * Store :=
  match cart st !! userId with
  | Some c => (c, st)
  | None =>
      let c := {| Cart.id := fresh (map (λ kv, Cart.id kv.2) (map_to_list (cart st))) |} in
      (c, {| products := products st; product_variants := product_variants st;
             inventory := inventory st; addresses := addresses st;
             cart := <[userId := c]> (cart st);
             cart_items := cart_items st; orders := orders st;
             preorders := preorders st;
             preorder_status_history := preorder_status_history st |})
  end.

(** [!isPreorder && variant && variant.inventory.quantity < n]; [None] when
    reading the quantity of a null inventory throws. *)
Definition lacksStock (isPreorder : bool)
    (variant : option (ProductVariant.t * option Inventory.t)) (n : Z)
    : option bool :=
  if isPreorder then Some false else
  match variant with
  | Some (_, Some inv) => Some (Inventory.quantity inv <? n)
  | Some (_, None) => None
  | None => Some false
  end.

(** The handler from "Get or create cart" on: the line is merged into the
    row already in the cart or added as a new row. *)
Definition putInCart (st : Store) (userId productId : Z)
    (productVariantId : option Z) (isPreorder : bool)
    (variant : option (ProductVariant.t * option Inventory.t))
    (quantity price : Z) : AddToCartResponse * Store :=
  let '(c, st1) := cart_getOrCreate st userId in
  let same := sameCartLine (Cart.id c) productId productVariantId isPreorder in
  match find same (cart_items st1) with
  | Some existingItem =>
      let newQuantity := CartItem.quantity existingItem + quantity in
      match lacksStock isPreorder variant newQuantity with
      | None => (AddToCartFailed, st1)
      | Some true => (CartInsufficientStock, st1)
      | Some false =>
          (CartUpdated (with_quantity newQuantity existingItem),
           set_cart_items
             (updateFirst same (with_quantity newQuantity) (cart_items st1)) st1)
      end
  | None =>
      let cartItem :=
        {| CartItem.cartId := Cart.id c; CartItem.productId := productId;
           CartItem.productVariantId := productVariantId;
           CartItem.quantity := quantity; CartItem.price := price;
           CartItem.isPreorder := isPreorder |} in
      (ItemAdded cartItem, set_cart_items (cart_items st1 ++ [cartItem]) st1)
  end.

Definition addToCart (st : Store) (userId : Z) (req : AddToCartRequest.t)
    : AddToCartResponse * Store :=
  if negb (1 <=? AddToCartRequest.quantity req) then (AddToCartInvalid, st) else
  let productId := AddToCartRequest.productId req in
  let productVariantId := truthy_id (AddToCartRequest.productVariantId req) in
  let quantity := AddToCartRequest.quantity req in
  let isPreorder := default false (AddToCartRequest.isPreorder req) in
  match product_findFirst_active st productId with
  | None => (CartProductNotFound, st)
  | Some product =>
  let found :=
    match productVariantId with
    | Some vid => Some (productVariant_findFirst st vid productId)
    | None => None
    end in
  match found with
  | Some None => (CartVariantNotFound, st)
  | _ =>
  let variant := match found with Some v => v | None => None end in
  let price :=
    match variant with
    | Some (v, _) => default (Product.basePrice product) (ProductVariant.price v)
    | None => Product.basePrice product
    end in
  match lacksStock isPreorder variant quantity with
  | None => (AddToCartFailed, st)
  | Some true => (CartInsufficientStock, st)
  | Some false =>
  if isPreorder && negb (Product.allowPreorder product)
  then (PreordersNotAllowed, st) else
  let price :=
    if isPreorder then default price (Product.preorderPrice product) else price in
  putInCart st userId productId productVariantId isPreorder variant quantity price
  end
  end
  end.

(** ** routes/orders.js: POST / (create order) *)

Module CreateOrderRequest.
Record t := {
  shippingAddressId : Z;
  billingAddressId : option Z;
  paymentMethod : string
}.
End CreateOrderRequest.

Inductive CreateOrderResponse :=
| OrderCreated (order : Order.t)        (* 201 *)
| CreateOrderInvalid                    (* 400, validation errors *)
| CartIsEmpty                           (* 400 'Cart is empty' *)
| InsufficientStock (productId : Z)     (* 400 'Insufficient stock for <name>' *)
| CreateOrderFailed.                    (* 500 'Failed to create order' *)

(** [body('paymentMethod').notEmpty()]; the two address ids are integers by
    their type. *)
Definition createOrder_valid (req : CreateOrderRequest.t) : bool :=
  negb (String.eqb (CreateOrderRequest.paymentMethod req) "").

(** The loop that verifies stock for the regular items.  It returns from the
    handler at the first short item; reading [.quantity] of a null inventory
    throws and ends in the handler's catch block. *)
Inductive StockCheck :=
| StockOk
| StockShort (productId : Z)
| StockThrows.

Fixpoint verifyStock (regularItems : list CartLine.t) : StockCheck :=
  match regularItems with
  | [] => StockOk
  | line :: rest =>
      match CartLine.productVariant line with
      | Some (_, Some inv) =>
          if Inventory.quantity inv <? CartLine.quantity line
          then StockShort (CartItem.productId (CartLine.item line))
          else verifyStock rest
      | Some (_, None) => StockThrows
      | None => verifyStock rest
      end
  end.

Definition toOrderItem (line : CartLine.t) : OrderItem.t :=
  let item := CartLine.item line in
  {| OrderItem.productId := CartItem.productId item;
     OrderItem.productVariantId := CartItem.productVariantId item;
     OrderItem.quantity := CartItem.quantity item;
     OrderItem.price := CartItem.price item;
     OrderItem.total := CartItem.price item * CartItem.quantity item;
     OrderItem.isPreorder := CartItem.isPreorder item |}.

(** The body of the loop that updates inventory for the regular items. *)
Definition decrementStock (line : CartLine.t) : Tx unit :=
  match CartLine.productVariant line with
  | Some _ =>
      match CartItem.productVariantId (CartLine.item line) with
      | Some vid => inventory_update vid (decrement (CartLine.quantity line))
      | None => tx_throw
      end
  | None => tx_ret tt
  end.

Definition createOrder (st : Store) (userId : Z) (req : CreateOrderRequest.t)
    (orderNumber : string) : CreateOrderResponse * Store :=
  if negb (createOrder_valid req) then (CreateOrderInvalid, st) else
  match cart_findUnique st userId with
  | None => (CartIsEmpty, st)
  | Some (c, items) =>
      if (length items =? 0)%nat then (CartIsEmpty, st) else
      let regularItems := List.filter (λ l, negb (CartLine.isPreorder l)) items in
      let preorderItems := List.filter CartLine.isPreorder items in
      match verifyStock regularItems with
      | StockThrows => (CreateOrderFailed, st)
      | StockShort productId => (InsufficientStock productId, st)
      | StockOk =>
          let totalAmount :=
            fold_left (λ sum line, sum + CartLine.price line * CartLine.quantity line)
                      items 0 in
          let orderType :=
            if (0 <? length preorderItems)%nat
            then OrderType.PREORDER else OrderType.REGULAR in
          let body :=
            newOrder <~ order_create userId orderNumber totalAmount
                          (CreateOrderRequest.shippingAddressId req)
                          (match CreateOrderRequest.billingAddressId req with
                           | Some b =>
                               if b =? 0
                               then CreateOrderRequest.shippingAddressId req
                               else b
                           | None => CreateOrderRequest.shippingAddressId req
                           end)
                          (CreateOrderRequest.paymentMethod req) orderType
                          (map toOrderItem items) ;;
            _ <~ forEach decrementStock regularItems ;;
            _ <~ cartItem_deleteMany (Cart.id c) ;;
            tx_ret newOrder in
          match transaction body st with
          | (Some order, st') => (OrderCreated order, st')
          | (None, st') => (CreateOrderFailed, st')
          end
      end
  end.

(** ** routes/orders.js: PUT /:id/cancel *)

Inductive CancelOrderResponse :=
| OrderCancelled                 (* 200 'Order cancelled successfully' *)
| OrderNotFound                  (* 404 'Order not found' *)
| OrderCannotBeCancelled         (* 400 'Order cannot be cancelled' *)
| CancelOrderFailed.             (* 500 'Failed to cancel order' *)

Definition cancellable (s : OrderStatus.t) : bool :=
  existsb (OrderStatus.eqb s) [OrderStatus.PENDING; OrderStatus.CONFIRMED].

(** The body of the loop that restores inventory for the regular items. *)
Definition restoreStock (line : OrderLine.t) : Tx unit :=
  let item := OrderLine.item line in
  match negb (OrderItem.isPreorder item), OrderLine.productVariant line with
  | true, Some _ =>
      match OrderItem.productVariantId item with
      | Some vid => inventory_update vid (increment (OrderItem.quantity item))
      | None => tx_throw
      end
  | _, _ => tx_ret tt
  end.

Definition cancelOrder (st : Store) (userId id : Z)
    : CancelOrderResponse * Store :=
  match order_findFirst st id userId with
  | None => (OrderNotFound, st)
  | Some (order, items) =>
      if negb (cancellable (Order.status order))
      then (OrderCannotBeCancelled, st)
      else
        let body :=
          _ <~ order_update id (Order.with_status OrderStatus.CANCELLED) ;;
          forEach restoreStock items in
        match transaction body st with
        | (Some _, st') => (OrderCancelled, st')
        | (None, st') => (CancelOrderFailed, st')
        end
  end.

(** ** routes/orders.js: PUT /:id/status (admin)

    The validator [isIn([...])] admits exactly the six values of the
    enumeration, which is the type of [status] here. *)

Inductive UpdateOrderStatusResponse :=
| OrderStatusUpdated (order : Order.t)   (* 200 *)
| UpdateOrderStatusFailed.               (* 500 *)

Definition updateOrderStatus (st : Store) (id : Z) (status : OrderStatus.t)
    : UpdateOrderStatusResponse * Store :=
  match autocommit (order_update id (Order.with_status status)) st with
  | (Some order, st') => (OrderStatusUpdated order, st')
  | (None, st') => (UpdateOrderStatusFailed, st')
  end.

(** ** The preorder router: POST / (create preorder) *)

Module CreatePreorderRequest.
Record t := {
  productId : Z;
  productVariantId : option Z;
  quantity : Z;
  shippingAddressId : option Z;
  depositAmount : option Z
}.
End CreatePreorderRequest.

Inductive CreatePreorderResponse :=
| PreorderCreated (preorder : Preorder.t)
    (totalAmount depositPaid remainingAmount : Z)
    (expectedDelivery : option Z)                  (* 201, with its summary *)
| CreatePreorderInvalid                           (* 400 'Validation failed' *)
| PreorderNotAllowed                               (* 404 not found or not allowed *)
| VariantNotAvailable                              (* 404 variant not found or not available *)
| PreorderWindowClosed                             (* 400 'Preorder window has closed ...' *)
| PreorderLimitExceeded (available requested : Z)  (* 400 'Preorder limit exceeded ...' *)
| DuplicatePreorder (existingPreorderId : Z)       (* 400 already an active preorder *)
| ShippingAddressNotFound                          (* 404 *)
| CreatePreorderFailed.                            (* 500 'Failed to create preorder' *)

(** [quantity] is an integer of at least 1; [depositAmount], when present,
    is a number of at least 0. *)
Definition createPreorder_valid (req : CreatePreorderRequest.t) : bool :=
  (1 <=? CreatePreorderRequest.quantity req)
  && match CreatePreorderRequest.depositAmount req with
     | Some d => 0 <=? d
     | None => true
     end.

(** [status: { in: ['PENDING', 'CONFIRMED'] }] *)
Definition activePreorder (s : PreorderStatus.t) : bool :=
  existsb (PreorderStatus.eqb s) [PreorderStatus.PENDING; PreorderStatus.CONFIRMED].

(** [product.findFirst({ where: { id, isActive: true, allowPreorder: true } })] *)
Definition product_findFirst_preorderable (st : Store) (productId : Z)
    : option Product.t :=
  p ← products st !! productId;
  if Product.isActive p && Product.allowPreorder p then Some p else None.

(** The relation [product.variants] loaded with
    [where: { id: productVariantId, isActive: true }]: ids are the primary
    key, so at most the one row, and only if it belongs to the product. *)
Definition product_variants_where (st : Store) (productId variantId : Z)
    : list (Z * ProductVariant.t) :=
  match product_variants st !! variantId with
  | Some v =>
      if (ProductVariant.productId v =? productId) && ProductVariant.isActive v
      then [(variantId, v)] else []
  | None => []
  end.

(** [preorder.aggregate({ where: { productId, status: { in: [...] } },
     _sum: { quantity: true } })._sum.quantity]: null over no rows. *)
Definition preorder_aggregate_sum (st : Store) (productId : Z) : option Z :=
  let rows :=
    List.filter (λ p, (Preorder.productId p =? productId)
                      && activePreorder (Preorder.status p))
                (preorders st) in
  match rows with
  | [] => None
  | _ => Some (foldr (λ p acc, Preorder.quantity p + acc) 0 rows)
  end.

(** [preorder.findFirst] of the duplicate check *)
Definition preorder_findFirst_active (st : Store) (userId productId : Z)
    (productVariantId : option Z) : option Preorder.t :=
  find (λ p, (Preorder.userId p =? userId)
             && (Preorder.productId p =? productId)
             && option_Z_eqb (Preorder.productVariantId p) productVariantId
             && activePreorder (Preorder.status p))
       (preorders st).

(** [address.findFirst({ where: { id, userId } })] *)
Definition address_findFirst (st : Store) (id userId : Z) : option Address.t :=
  a ← addresses st !! id;
  if Address.userId a =? userId then Some a else None.

Definition preorder_create (userId productId : Z) (productVariantId : option Z)
    (quantity price : Z) (shippingAddressId expectedDate : option Z)
    (depositPaid remainingAmount : Z) (status : PreorderStatus.t)
    : Tx Preorder.t :=
  λ st,
    let id := fresh (map Preorder.id (preorders st)) in
    let row :=
      {| Preorder.id := id; Preorder.userId := userId;
         Preorder.productId := productId;
         Preorder.productVariantId := productVariantId;
         Preorder.quantity := quantity; Preorder.price := price;
         Preorder.status := status;
         Preorder.shippingAddressId := shippingAddressId;
         Preorder.expectedDate := expectedDate;
         Preorder.depositPaid := depositPaid;
         Preorder.remainingAmount := remainingAmount;
         Preorder.updatedBy := None; Preorder.trackingNumber := None;
         Preorder.adminNotes := None; Preorder.shippedAt := None;
         Preorder.deliveredAt := None; Preorder.cancelledAt := None |} in
    Some (row, set_preorders (preorders st ++ [row]) st).

Definition product_update (id : Z) (data : Product.t → Product.t) : Tx unit :=
  λ st, match products st !! id with
        | Some row => Some (tt, set_products (<[id := data row]> (products st)) st)
        | None => None
        end.

(** [totalPreorders: { increment: n }] *)
Definition incrementTotalPreorders (n : Z) (p : Product.t) : Product.t :=
  {| Product.basePrice := Product.basePrice p;
     Product.isActive := Product.isActive p;
     Product.allowPreorder := Product.allowPreorder p;
     Product.preorderPrice := Product.preorderPrice p;
     Product.expectedStockDate := Product.expectedStockDate p;
     Product.preorderLimit := Product.preorderLimit p;
     Product.totalPreorders := Product.totalPreorders p + n |}.

(** The block that validates the product variant if one is specified:
    [product.variants.find(v => v.id === parseInt(productVariantId))] finds
    nothing. *)
Definition variantMissing (st : Store) (productId : Z)
    (productVariantId : option Z) : bool :=
  match productVariantId with
  | Some vid =>
      negb (existsb (λ v, fst v =? vid) (product_variants_where st productId vid))
  | None => false
  end.

(** The block that checks the preorder availability window:
    [product.expectedStockDate && new Date() > new Date(product.expectedStockDate)] *)
Definition windowClosed (product : Product.t) (now : Z) : bool :=
  match Product.expectedStockDate product with
  | Some d => d <? now
  | None => false
  end.

(** The block that checks the preorder limit; it answers with the capacity
    that remains when the request goes over the limit.  The block is entered
    when [product.preorderLimit] is truthy, that is present and not 0. *)
Definition limitExceeded (st : Store) (product : Product.t)
    (productId quantity : Z) : option Z :=
  match Product.preorderLimit product with
  | Some limit =>
      if limit =? 0 then None else
      let currentPreorderQuantity :=
        default 0 (preorder_aggregate_sum st productId) in
      if limit <? currentPreorderQuantity + quantity
      then Some (limit - currentPreorderQuantity)
      else None
  | None => None
  end.

(** The block that validates the shipping address if one is provided. *)
Definition addressMissing (st : Store) (userId : Z)
    (shippingAddressId : option Z) : bool :=
  match shippingAddressId with
  | Some a =>
      match address_findFirst st a userId with
      | Some _ => false
      | None => true
      end
  | None => false
  end.

Definition createPreorder (st : Store) (userId now : Z)
    (req : CreatePreorderRequest.t) : CreatePreorderResponse * Store :=
  if negb (createPreorder_valid req) then (CreatePreorderInvalid, st) else
  let productId := CreatePreorderRequest.productId req in
  let productVariantId := truthy_id (CreatePreorderRequest.productVariantId req) in
  let quantity := CreatePreorderRequest.quantity req in
  let shippingAddressId := truthy_id (CreatePreorderRequest.shippingAddressId req) in
  let depositAmount := default 0 (CreatePreorderRequest.depositAmount req) in
  match product_findFirst_preorderable st productId with
  | None => (PreorderNotAllowed, st)
  | Some product =>
  if variantMissing st productId productVariantId
  then (VariantNotAvailable, st) else
  if windowClosed product now then (PreorderWindowClosed, st) else
  match limitExceeded st product productId quantity with
  | Some available => (PreorderLimitExceeded available quantity, st)
  | None =>
  match preorder_findFirst_active st userId productId productVariantId with
  | Some existing => (DuplicatePreorder (Preorder.id existing), st)
  | None =>
  if addressMissing st userId shippingAddressId
  then (ShippingAddressNotFound, st) else
  let price := default (Product.basePrice product) (Product.preorderPrice product) in
  let totalAmount := price * quantity in
  let deposit := Z.min depositAmount totalAmount in
  let remaining := totalAmount - deposit in
  let body :=
    newPreorder <~ preorder_create userId productId productVariantId quantity
                     price shippingAddressId
                     (Product.expectedStockDate product) deposit remaining
                     (if 0 <? deposit then PreorderStatus.CONFIRMED
                      else PreorderStatus.PENDING) ;;
    _ <~ product_update productId (incrementTotalPreorders quantity) ;;
    tx_ret newPreorder in
  match transaction body st with
  | (Some preorder, st') =>
      (PreorderCreated preorder totalAmount deposit remaining
         (Product.expectedStockDate product), st')
  | (None, st') => (CreatePreorderFailed, st')
  end
  end
  end
  end.

(** ** The preorder router: PUT /:id/status (admin) *)

Module UpdatePreorderStatusRequest.
Record t := {
  status : PreorderStatus.t;
  trackingNumber : option string;
  notes : option string
}.
End UpdatePreorderStatusRequest.

Module StatusChange.
Record t := {
  from : PreorderStatus.t;
  to : PreorderStatus.t;
  updatedBy : Z;
  timestamp : Z
}.
End StatusChange.

Inductive UpdatePreorderStatusResponse :=
| PreorderStatusUpdated (preorder : Preorder.t) (statusChange : StatusChange.t)  (* 200 *)
| UpdatePreorderStatusInvalid            (* 400 'Validation failed' *)
| PreorderNotFound                       (* 404 'Preorder not found' *)
| InvalidStatusTransition (currentStatus requestedStatus : PreorderStatus.t)
    (validNext : list PreorderStatus.t)  (* 400 'Invalid status transition' *)
| UpdatePreorderStatusFailed.            (* 500 *)

(** [trackingNumber] optional with at least 3 characters, [notes] optional
    with at most 500; [status] is one of the seven values by its type. *)
Definition updatePreorderStatus_valid (req : UpdatePreorderStatusRequest.t) : bool :=
  match UpdatePreorderStatusRequest.trackingNumber req with
  | Some s => (3 <=? String.length s)%nat
  | None => true
  end
  && match UpdatePreorderStatusRequest.notes req with
     | Some s => (String.length s <=? 500)%nat
     | None => true
     end.

Definition validTransitions (s : PreorderStatus.t) : list PreorderStatus.t :=
  match s with
  | PreorderStatus.PENDING =>
      [PreorderStatus.CONFIRMED; PreorderStatus.CANCELLED; PreorderStatus.EXPIRED]
  | PreorderStatus.CONFIRMED => [PreorderStatus.READY; PreorderStatus.CANCELLED]
  | PreorderStatus.READY => [PreorderStatus.SHIPPED; PreorderStatus.CANCELLED]
  | PreorderStatus.SHIPPED => [PreorderStatus.DELIVERED]
  | PreorderStatus.DELIVERED => []
  | PreorderStatus.CANCELLED => []
  | PreorderStatus.EXPIRED => []
  end.

(** [array.includes(x)] *)
Definition includes (l : list PreorderStatus.t) (x : PreorderStatus.t) : bool :=
  existsb (PreorderStatus.eqb x) l.

(** A string of the request body that is present and not empty *)
Definition truthy_string (s : option string) : option string :=
  match s with
  | Some "" => None
  | Some s => Some s
  | None => None
  end.

Definition preorder_findUnique (st : Store) (id : Z) : option Preorder.t :=
  find (λ p, Preorder.id p =? id) (preorders st).

Definition preorder_update (id : Z) (data : Preorder.t → Preorder.t)
    : Tx Preorder.t :=
  λ st, match preorder_findUnique st id with
        | Some row =>
            Some (data row,
                  set_preorders
                    (map (λ p, if Preorder.id p =? id then data p else p)
                         (preorders st)) st)
        | None => None
        end.

Definition preorderStatusHistory_create (row : PreorderStatusHistory.t)
    : Tx unit :=
  λ st, Some (tt, set_preorder_status_history
                    (preorder_status_history st ++ [row]) st).

(** The object [updateData] applied to a row: fields under a falsy guard of
    a spread are left as they are. *)
Definition updateData (userId now : Z) (req : UpdatePreorderStatusRequest.t)
    (p : Preorder.t) : Preorder.t :=
  let status := UpdatePreorderStatusRequest.status req in
  {| Preorder.id := Preorder.id p; Preorder.userId := Preorder.userId p;
     Preorder.productId := Preorder.productId p;
     Preorder.productVariantId := Preorder.productVariantId p;
     Preorder.quantity := Preorder.quantity p;
     Preorder.price := Preorder.price p;
     Preorder.status := status;
     Preorder.shippingAddressId := Preorder.shippingAddressId p;
     Preorder.expectedDate := Preorder.expectedDate p;
     Preorder.depositPaid := Preorder.depositPaid p;
     Preorder.remainingAmount := Preorder.remainingAmount p;
     Preorder.updatedBy := Some userId;
     Preorder.trackingNumber :=
       match truthy_string (UpdatePreorderStatusRequest.trackingNumber req) with
       | Some s => Some s
       | None => Preorder.trackingNumber p
       end;
     Preorder.adminNotes :=
       match truthy_string (UpdatePreorderStatusRequest.notes req) with
       | Some s => Some s
       | None => Preorder.adminNotes p
       end;
     Preorder.shippedAt :=
       if PreorderStatus.eqb status PreorderStatus.SHIPPED
       then Some now else Preorder.shippedAt p;
     Preorder.deliveredAt :=
       if PreorderStatus.eqb status PreorderStatus.DELIVERED
       then Some now else Preorder.deliveredAt p;
     Preorder.cancelledAt :=
       if PreorderStatus.eqb status PreorderStatus.CANCELLED
       then Some now else Preorder.cancelledAt p |}.

Definition updatePreorderStatus (st : Store) (userId now id : Z)
    (req : UpdatePreorderStatusRequest.t)
    : UpdatePreorderStatusResponse * Store :=
  if negb (updatePreorderStatus_valid req)
  then (UpdatePreorderStatusInvalid, st) else
  let status := UpdatePreorderStatusRequest.status req in
  match preorder_findUnique st id with
  | None => (PreorderNotFound, st)
  | Some currentPreorder =>
      let current := Preorder.status currentPreorder in
      if negb (includes (validTransitions current) status)
      then (InvalidStatusTransition current status (validTransitions current), st)
      else
        match autocommit (preorder_update id (updateData userId now req)) st with
        | (None, st1) => (UpdatePreorderStatusFailed, st1)
        | (Some preorder, st1) =>
            let record :=
              {| PreorderStatusHistory.preorderId := id;
                 PreorderStatusHistory.fromStatus := current;
                 PreorderStatusHistory.toStatus := status;
                 PreorderStatusHistory.changedBy := userId;
                 PreorderStatusHistory.notes :=
                   match truthy_string (UpdatePreorderStatusRequest.notes req) with
                   | Some s => s
                   | None =>
                       "Status changed from " +:+ PreorderStatus.name current
                         +:+ " to " +:+ PreorderStatus.name status
                   end;
                 PreorderStatusHistory.timestamp := now |} in
            match autocommit (preorderStatusHistory_create record) st1 with
            | (None, st2) => (UpdatePreorderStatusFailed, st2)
            | (Some _, st2) =>
                (PreorderStatusUpdated preorder
                   {| StatusChange.from := current; StatusChange.to := status;
                      StatusChange.updatedBy := userId;
                      StatusChange.timestamp := now |}, st2)
            end
        end
  end.

(** ** The preorder router: PUT /:id/cancel

    The handler also writes the free-text column [cancellationReason] and
    the JSON column [metadata]; like [metadata] at creation they are read by
    no handler and are left out, and with them the [reason] of the request
    body. *)

Module RefundInfo.
Record t := {
  amount : Z;
  status : string;
  estimatedDays : Z
}.
End RefundInfo.

Inductive CancelPreorderResponse :=
| PreorderCancelled (preorder : Preorder.t)
    (refundInfo : option RefundInfo.t)     (* 200 'Preorder cancelled successfully' *)
| CancelledPreorderNotFound                (* 404 'Preorder not found' *)
| PreorderCannotBeCancelled (currentStatus : PreorderStatus.t)
    (cancellableStatuses : list PreorderStatus.t)   (* 400 *)
| CancelPreorderFailed.                    (* 500 'Failed to cancel preorder' *)

(** [preorder.findFirst({ where: { id, userId } })] *)
Definition preorder_findFirst_owned (st : Store) (id userId : Z)
    : option Preorder.t :=
  find (λ p, (Preorder.id p =? id) && (Preorder.userId p =? userId))
       (preorders st).

(** [data: { status: 'CANCELLED', cancelledAt: new Date(), ... }] *)
Definition cancelData (now : Z) (p : Preorder.t) : Preorder.t :=
  {| Preorder.id := Preorder.id p; Preorder.userId := Preorder.userId p;
     Preorder.productId := Preorder.productId p;
     Preorder.productVariantId := Preorder.productVariantId p;
     Preorder.quantity := Preorder.quantity p;
     Preorder.price := Preorder.price p;
     Preorder.status := PreorderStatus.CANCELLED;
     Preorder.shippingAddressId := Preorder.shippingAddressId p;
     Preorder.expectedDate := Preorder.expectedDate p;
     Preorder.depositPaid := Preorder.depositPaid p;
     Preorder.remainingAmount := Preorder.remainingAmount p;
     Preorder.updatedBy := Preorder.updatedBy p;
     Preorder.trackingNumber := Preorder.trackingNumber p;
     Preorder.adminNotes := Preorder.adminNotes p;
     Preorder.shippedAt := Preorder.shippedAt p;
     Preorder.deliveredAt := Preorder.deliveredAt p;
     Preorder.cancelledAt := Some now |}.

(** [totalPreorders: { decrement: n }] *)
Definition decrementTotalPreorders (n : Z) (p : Product.t) : Product.t :=
  {| Product.basePrice := Product.basePrice p;
     Product.isActive := Product.isActive p;
     Product.allowPreorder := Product.allowPreorder p;
     Product.preorderPrice := Product.preorderPrice p;
     Product.expectedStockDate := Product.expectedStockDate p;
     Product.preorderLimit := Product.preorderLimit p;
     Product.totalPreorders := Product.totalPreorders p - n |}.

(** [refundInfo]: present when a deposit was paid; [estimatedDays: 5-7] is
    the difference the source writes. *)
Definition refundInfoOf (p : Preorder.t) : option RefundInfo.t :=
  if 0 <? Preorder.depositPaid p
  then Some {| RefundInfo.amount := Preorder.depositPaid p;
               RefundInfo.status := "PENDING_REFUND";
               RefundInfo.estimatedDays := 5 - 7 |}
  else None.

Definition cancelPreorder (st : Store) (userId now id : Z)
    : CancelPreorderResponse * Store :=
  match preorder_findFirst_owned st id userId with
  | None => (CancelledPreorderNotFound, st)
  | Some preorder =>
      if negb (activePreorder (Preorder.status preorder))
      then (PreorderCannotBeCancelled (Preorder.status preorder)
              [PreorderStatus.PENDING; PreorderStatus.CONFIRMED], st)
      else
        let body :=
          updatedPreorder <~ preorder_update id (cancelData now) ;;
          _ <~ product_update (Preorder.productId preorder)
                 (decrementTotalPreorders (Preorder.quantity preorder)) ;;
          tx_ret updatedPreorder in
        match transaction body st with
        | (Some result, st') =>
            (PreorderCancelled result (refundInfoOf preorder), st')
        | (None, st') => (CancelPreorderFailed, st')
        end
  end.

(** ** routes/orders.js: GET /:id and GET /:id/status

    Both read the order with [findFirst({ where: { id, userId } })].  The
    first joins each item's product and variant and the two addresses; the
    second selects the columns of the status view, of which [paymentStatus]
    is written by no handler here and is left out with the two dates. *)

Module OrderDetails.
Record t := {
  order : Order.t;
  items : list (OrderItem.t * option Product.t * option ProductVariant.t);
  shippingAddress : option Address.t;
  billingAddress : option Address.t
}.
End OrderDetails.

Module OrderStatusView.
Record t := {
  id : Z;
  orderNumber : string;
  status : OrderStatus.t;
  orderType : OrderType.t
}.
End OrderStatusView.

Inductive GetOrderResponse :=
| OrderFound (order : OrderDetails.t)      (* 200 *)
| GetOrderNotFound.                        (* 404 'Order not found' *)

Inductive GetOrderStatusResponse :=
| OrderStatusFound (view : OrderStatusView.t)   (* 200 *)
| GetOrderStatusNotFound.                       (* 404 'Order not found' *)

Definition getOrder (st : Store) (userId id : Z) : GetOrderResponse :=
  match orders st !! id with
  | Some o =>
      if Order.userId o =? userId
      then OrderFound
             {| OrderDetails.order := o;
                OrderDetails.items :=
                  map (λ it, (it, products st !! OrderItem.productId it,
                              vid ← OrderItem.productVariantId it;
                              product_variants st !! vid))
                      (Order.items o);
                OrderDetails.shippingAddress :=
                  a ← Order.shippingAddressId o; addresses st !! a;
                OrderDetails.billingAddress :=
                  a ← Order.billingAddressId o; addresses st !! a |}
      else GetOrderNotFound
  | None => GetOrderNotFound
  end.

Definition getOrderStatus (st : Store) (userId id : Z)
    : GetOrderStatusResponse :=
  match orders st !! id with
  | Some o =>
      if Order.userId o =? userId
      then OrderStatusFound
             {| OrderStatusView.id := Order.id o;
                OrderStatusView.orderNumber := Order.orderNumber o;
                OrderStatusView.status := Order.status o;
                OrderStatusView.orderType := Order.orderType o |}
      else GetOrderStatusNotFound
  | None => GetOrderStatusNotFound
  end.

(** ** routes/cart.js: GET / (the user's cart)

    The cart is read with its items, each with its variant and the
    variant's inventory; a user without a cart gets one created and
    returned, with the items that reference it and no summary. *)

Module CartSummary.
Record t := {
  regularSubtotal : Z;
  preorderSubtotal : Z;
  totalSubtotal : Z;
  regularItemCount : Z;
  preorderItemCount : Z;
  totalItemCount : Z
}.
End CartSummary.

Inductive GetCartResponse :=
| CartFound (cart : Cart.t) (items : list CartLine.t)
    (summary : CartSummary.t)
    (regularItems preorderItems : list CartLine.t)      (* 200 *)
| CartCreated (newCart : Cart.t) (items : list CartItem.t).   (* 200 *)

Definition getCart (st : Store) (userId : Z) : GetCartResponse * Store :=
  match cart_findUnique st userId with
  | None =>
      let '(newCart, st') := cart_getOrCreate st userId in
      (CartCreated newCart
         (List.filter (λ it, CartItem.cartId it =? Cart.id newCart)
                      (cart_items st')), st')
  | Some (c, items) =>
      let regularItems := List.filter (λ item, negb (CartLine.isPreorder item)) items in
      let preorderItems := List.filter CartLine.isPreorder items in
      let regularSubtotal :=
        fold_left (λ sum item, sum + CartLine.price item * CartLine.quantity item)
                  regularItems 0 in
      let preorderSubtotal :=
        fold_left (λ sum item, sum + CartLine.price item * CartLine.quantity item)
                  preorderItems 0 in
      let totalSubtotal := regularSubtotal + preorderSubtotal in
      let regularItemCount :=
        fold_left (λ sum item, sum + CartLine.quantity item) regularItems 0 in
      let preorderItemCount :=
        fold_left (λ sum item, sum + CartLine.quantity item) preorderItems 0 in
      (CartFound c items
         {| CartSummary.regularSubtotal := regularSubtotal;
            CartSummary.preorderSubtotal := preorderSubtotal;
            CartSummary.totalSubtotal := totalSubtotal;
            CartSummary.regularItemCount := regularItemCount;
            CartSummary.preorderItemCount := preorderItemCount;
            CartSummary.totalItemCount := regularItemCount + preorderItemCount |}
         regularItems preorderItems, st)
  end.

(** ** The product routes: helper functions on a product and its variants

    The product routes, kept in the same file as the order routes, load a
    product with [include: { variants: { include: { color, size,
    inventory } } }] and summarise its stock with the helper functions at
    the end of the file. *)

Module Color.
Record t := {
  id : Z;
  name : string;
  hexCode : string;
  isActive : bool
}.
End Color.

Module Size.
Record t := {
  id : Z;
  name : string;
  sortOrder : Z;
  isActive : bool
}.
End Size.

(** A variant with its color, size and inventory joined, each null when
    the variant has none. *)
Module VariantView.
Record t := {
  id : Z;
  variant : ProductVariant.t;
  color : option Color.t;
  size : option Size.t;
  inventory : option Inventory.t
}.
End VariantView.

Inductive StockLevel := OUT_OF_STOCK | LOW_STOCK | IN_STOCK.

(** [function getStockLevel(quantity, threshold = 10)] *)
Definition getStockLevel (quantity : Z) (threshold : option Z) : StockLevel :=
  let threshold := default 10 threshold in
  if quantity =? 0 then OUT_OF_STOCK
  else if quantity <=? threshold then LOW_STOCK
  else IN_STOCK.

(** [variant.inventory?.quantity || 0] and its two siblings *)
Definition quantityOf (variant : VariantView.t) : Z :=
  match VariantView.inventory variant with
  | Some inv => if Inventory.quantity inv =? 0 then 0 else Inventory.quantity inv
  | None => 0
  end.

Definition reservedQuantityOf (variant : VariantView.t) : Z :=
  match VariantView.inventory variant with
  | Some inv =>
      if Inventory.reservedQuantity inv =? 0 then 0
      else Inventory.reservedQuantity inv
  | None => 0
  end.

Definition lowStockThresholdOf (variant : VariantView.t) : Z :=
  match VariantView.inventory variant with
  | Some inv =>
      if Inventory.lowStockThreshold inv =? 0 then 10
      else Inventory.lowStockThreshold inv
  | None => 10
  end.

Module StockMetrics.
Record t := {
  totalStock : Z;
  reservedStock : Z;
  availableStock : Z;
  hasStock : bool;
  isLowStock : bool;
  stockLevel : StockLevel;
  variantCount : nat;
  inStockVariants : nat
}.
End StockMetrics.

(** [calculateStockMetrics(product)], on the variants of the product *)
Definition calculateStockMetrics (variants : list VariantView.t)
    : StockMetrics.t :=
  let totalStock :=
    fold_left (λ sum variant, sum + quantityOf variant) variants 0 in
  let reservedStock :=
    fold_left (λ sum variant, sum + reservedQuantityOf variant) variants 0 in
  let availableStock := totalStock - reservedStock in
  let lowStockVariants :=
    List.filter (λ variant,
                   let qty := quantityOf variant in
                   let threshold := lowStockThresholdOf variant in
                   (0 <? qty) && (qty <=? threshold)) variants in
  {| StockMetrics.totalStock := totalStock;
     StockMetrics.reservedStock := reservedStock;
     StockMetrics.availableStock := availableStock;
     StockMetrics.hasStock := 0 <? totalStock;
     StockMetrics.isLowStock := (0 <? length lowStockVariants)%nat;
     StockMetrics.stockLevel := getStockLevel totalStock None;
     StockMetrics.variantCount := length variants;
     StockMetrics.inStockVariants :=
       length (List.filter (λ v, 0 <? quantityOf v) variants) |}.

(** The [inventory] object the variant listings build for each variant. *)
Module InventoryView.
Record t := {
  quantity : Z;
  reservedQuantity : Z;
  availableQuantity : Z;
  lowStockThreshold : Z;
  isInStock : bool;
  isLowStock : bool;
  stockLevel : StockLevel
}.
End InventoryView.

Definition inventoryView (variant : VariantView.t) : InventoryView.t :=
  {| InventoryView.quantity := quantityOf variant;
     InventoryView.reservedQuantity := reservedQuantityOf variant;
     InventoryView.availableQuantity :=
       quantityOf variant - reservedQuantityOf variant;
     InventoryView.lowStockThreshold := lowStockThresholdOf variant;
     InventoryView.isInStock := 0 <? quantityOf variant;
     InventoryView.isLowStock := quantityOf variant <=? lowStockThresholdOf variant;
     InventoryView.stockLevel :=
       getStockLevel (quantityOf variant) (Some (lowStockThresholdOf variant)) |}.

(** [Array.prototype.sort(compare)].  The sort is stable and puts [b]
    before [a] when [compare a b] is positive; for a comparator that is a
    difference of keys this fixes the result, which insertion from the
    right computes. *)
Fixpoint insertSorted {A} (compare : A → A → Z) (x : A) (l : list A) : list A :=
  match l with
  | [] => [x]
  | y :: rest =>
      if 0 <? compare x y then y :: insertSorted compare x rest else x :: l
  end.

Definition sort {A} (compare : A → A → Z) (l : list A) : list A :=
  foldr (insertSorted compare) [] l.

(** The entry the availability helpers keep per color or size: the color
    or size itself, the stock summed so far and the variants seen so far. *)
Module Availability.
Record t (A : Type) := {
  attribute : A;
  totalStock : Z;
  variants : list VariantView.t
}.
Arguments attribute {A}.
Arguments totalStock {A}.
Arguments variants {A}.
End Availability.

Module AvailabilityReport.
Record t (A : Type) := {
  total : nat;
  available : list (Availability.t A);
  outOfStock : list (Availability.t A);
  mostPopular : option (Availability.t A)
}.
Arguments total {A}.
Arguments available {A}.
Arguments outOfStock {A}.
Arguments mostPopular {A}.
End AvailabilityReport.

(** The loop both helpers run over the variants.  The [Map] is a list of
    entries in insertion order: an entry is created at the end when its id
    is seen for the first time, and is updated where it stands. *)
Section Grouping.
Context {A : Type} (attributeOf : VariantView.t → option A) (idOf : A → Z).

Definition addVariant (variant : VariantView.t) (data : Availability.t A)
    : Availability.t A :=
  {| Availability.attribute := Availability.attribute data;
     Availability.totalStock := Availability.totalStock data + quantityOf variant;
     Availability.variants := Availability.variants data ++ [variant] |}.

Fixpoint mapUpdate (a : A) (variant : VariantView.t)
    (m : list (Z * Availability.t A)) : list (Z * Availability.t A) :=
  match m with
  | [] =>
      [(idOf a,
        addVariant variant
          {| Availability.attribute := a; Availability.totalStock := 0;
             Availability.variants := [] |})]
  | (k, data) :: rest =>
      if k =? idOf a then (k, addVariant variant data) :: rest
      else (k, data) :: mapUpdate a variant rest
  end.

Definition groupVariants (variants : list VariantView.t)
    : list (Availability.t A) :=
  map snd
    (fold_left (λ m variant,
                  match attributeOf variant with
                  | Some a => mapUpdate a variant m
                  | None => m
                  end) variants []).

End Grouping.

(** [calculateColorAvailability(variants)] *)
Definition calculateColorAvailability (variants : list VariantView.t)
    : AvailabilityReport.t Color.t :=
  let colors := groupVariants VariantView.color Color.id variants in
  {| AvailabilityReport.total := length colors;
     AvailabilityReport.available :=
       List.filter (λ color, 0 <? Availability.totalStock color) colors;
     AvailabilityReport.outOfStock :=
       List.filter (λ color, Availability.totalStock color =? 0) colors;
     AvailabilityReport.mostPopular :=
       head (sort (λ a b, Availability.totalStock b - Availability.totalStock a)
                  colors) |}.

(** [calculateSizeAvailability(variants)] *)
Definition calculateSizeAvailability (variants : list VariantView.t)
    : AvailabilityReport.t Size.t :=
  let sizes :=
    sort (λ a b, Size.sortOrder (Availability.attribute a)
                 - Size.sortOrder (Availability.attribute b))
         (groupVariants VariantView.size Size.id variants) in
  {| AvailabilityReport.total := length sizes;
     AvailabilityReport.available :=
       List.filter (λ size, 0 <? Availability.totalStock size) sizes;
     AvailabilityReport.outOfStock :=
       List.filter (λ size, Availability.totalStock size =? 0) sizes;
     AvailabilityReport.mostPopular :=
       head (sort (λ a b, Availability.totalStock b - Availability.totalStock a)
                  sizes) |}.

(** ** The product routes: DELETE /:id (admin)

    The route deactivates the product with its variants, or, with
    [?permanent=true], deletes them.  Deleting rows sets off the referential
    actions of the migration on the tables of the store: inventory rows and
    cart items go with their variant, cart items and variants with their
    product (ON DELETE CASCADE); order items and preorders lose the
    reference to a deleted variant (ON DELETE SET NULL); and a product that
    an order item or a preorder references cannot be deleted (ON DELETE
    RESTRICT).  Reviews and wishlist entries, which go with the product too,
    are in no table of the store. *)

Definition set_product_variants (m : gmap Z ProductVariant.t) (st : Store)
    : Store :=
  {| products := products st; product_variants := m;
     inventory := inventory st; addresses := addresses st; cart := cart st;
     cart_items := cart_items st; orders := orders st;
     preorders := preorders st;
     preorder_status_history := preorder_status_history st |}.

Inductive DeleteProductResponse :=
| ProductDeleted          (* 200 'Product permanently deleted' *)
| ProductDeactivated      (* 200 'Product deactivated successfully' *)
| DeleteProductNotFound   (* 404 'Product not found' *)
| ProductHasOrders        (* 400 'Cannot permanently delete product with existing orders ...' *)
| DeleteProductFailed.    (* 500 'Failed to delete product' *)

(** The order items that reference the product, which
    [_count: { select: { orderItems: true } }] counts. *)
Definition orderItemsOf (st : Store) (productId : Z) : list OrderItem.t :=
  flat_map (λ kv : Z * Order.t,
              List.filter (λ it, OrderItem.productId it =? productId)
                          (Order.items kv.2))
           (map_to_list (orders st)).

(** The ids of [product.variants]. *)
Definition variantIdsOf (st : Store) (productId : Z) : list Z :=
  map fst
    (List.filter (λ kv : Z * ProductVariant.t,
                    ProductVariant.productId kv.2 =? productId)
                 (map_to_list (product_variants st))).

(** An optional reference to one of the variants [ids]. *)
Definition refers (ids : list Z) (productVariantId : option Z) : bool :=
  match productVariantId with
  | Some vid => bool_decide (vid ∈ ids)
  | None => false
  end.

Definition clearOrderItemVariant (ids : list Z) (it : OrderItem.t)
    : OrderItem.t :=
  {| OrderItem.productId := OrderItem.productId it;
     OrderItem.productVariantId :=
       if refers ids (OrderItem.productVariantId it) then None
       else OrderItem.productVariantId it;
     OrderItem.quantity := OrderItem.quantity it;
     OrderItem.price := OrderItem.price it;
     OrderItem.total := OrderItem.total it;
     OrderItem.isPreorder := OrderItem.isPreorder it |}.

Definition clearOrderVariants (ids : list Z) (o : Order.t) : Order.t :=
  {| Order.id := Order.id o; Order.userId := Order.userId o;
     Order.orderNumber := Order.orderNumber o; Order.status := Order.status o;
     Order.totalAmount := Order.totalAmount o;
     Order.shippingAddressId := Order.shippingAddressId o;
     Order.billingAddressId := Order.billingAddressId o;
     Order.paymentMethod := Order.paymentMethod o;
     Order.orderType := Order.orderType o;
     Order.items := map (clearOrderItemVariant ids) (Order.items o) |}.

Definition clearPreorderVariant (ids : list Z) (p : Preorder.t) : Preorder.t :=
  {| Preorder.id := Preorder.id p; Preorder.userId := Preorder.userId p;
     Preorder.productId := Preorder.productId p;
     Preorder.productVariantId :=
       if refers ids (Preorder.productVariantId p) then None
       else Preorder.productVariantId p;
     Preorder.quantity := Preorder.quantity p;
     Preorder.price := Preorder.price p;
     Preorder.status := Preorder.status p;
     Preorder.shippingAddressId := Preorder.shippingAddressId p;
     Preorder.expectedDate := Preorder.expectedDate p;
     Preorder.depositPaid := Preorder.depositPaid p;
     Preorder.remainingAmount := Preorder.remainingAmount p;
     Preorder.updatedBy := Preorder.updatedBy p;
     Preorder.trackingNumber := Preorder.trackingNumber p;
     Preorder.adminNotes := Preorder.adminNotes p;
     Preorder.shippedAt := Preorder.shippedAt p;
     Preorder.deliveredAt := Preorder.deliveredAt p;
     Preorder.cancelledAt := Preorder.cancelledAt p |}.

(** The store once the variants [ids] are deleted. *)
Definition deleteVariants (ids : list Z) (st : Store) : Store :=
  {| products := products st;
     product_variants := foldr delete (product_variants st) ids;
     inventory := foldr delete (inventory st) ids;
     addresses := addresses st;
     cart := cart st;
     cart_items :=
       List.filter (λ it, negb (refers ids (CartItem.productVariantId it)))
                   (cart_items st);
     orders := clearOrderVariants ids <$> orders st;
     preorders := map (clearPreorderVariant ids) (preorders st);
     preorder_status_history := preorder_status_history st |}.

(** [inventory.deleteMany({ where: { productVariantId: { in: ids } } })] *)
Definition inventory_deleteMany (ids : list Z) : Tx unit :=
  λ st, Some (tt, set_inventory (foldr delete (inventory st) ids) st).

(** [productVariant.deleteMany({ where: { productId } })] *)
Definition productVariant_deleteMany (productId : Z) : Tx unit :=
  λ st, Some (tt, deleteVariants (variantIdsOf st productId) st).

(** [product.delete({ where: { id } })]: throws when the row is missing or
    still referenced by an order item or a preorder. *)
Definition product_delete (id : Z) : Tx unit :=
  λ st,
    match products st !! id with
    | None => None
    | Some _ =>
        if (0 <? length (orderItemsOf st id))%nat
           || existsb (λ p, Preorder.productId p =? id) (preorders st)
        then None
        else
          let st1 := deleteVariants (variantIdsOf st id) st in
          Some (tt,
                set_products (delete id (products st1))
                  (set_cart_items
                     (List.filter (λ it, negb (CartItem.productId it =? id))
                                  (cart_items st1)) st1))
    end.

(** [productVariant.updateMany({ where: { productId }, data })] *)
Definition productVariant_updateMany (productId : Z)
    (data : ProductVariant.t → ProductVariant.t) : Tx unit :=
  λ st,
    Some (tt,
          set_product_variants
            ((λ v, if ProductVariant.productId v =? productId
                   then data v else v) <$> product_variants st) st).

(** [data: { isActive: false }], on a variant and on a product *)
Definition deactivateVariant (v : ProductVariant.t) : ProductVariant.t :=
  {| ProductVariant.productId := ProductVariant.productId v;
     ProductVariant.price := ProductVariant.price v;
     ProductVariant.isActive := false |}.

Definition deactivateProduct (p : Product.t) : Product.t :=
  {| Product.basePrice := Product.basePrice p;
     Product.isActive := false;
     Product.allowPreorder := Product.allowPreorder p;
     Product.preorderPrice := Product.preorderPrice p;
     Product.expectedStockDate := Product.expectedStockDate p;
     Product.preorderLimit := Product.preorderLimit p;
     Product.totalPreorders := Product.totalPreorders p |}.

(** [permanent] stands for [req.query.permanent === 'true']. *)
Definition deleteProduct (st : Store) (id : Z) (permanent : bool)
    : DeleteProductResponse * Store :=
  match products st !! id with
  | None => (DeleteProductNotFound, st)
  | Some product =>
      if (0 <? length (orderItemsOf st id))%nat && permanent
      then (ProductHasOrders, st)
      else if permanent then
        let body :=
          _ <~ inventory_deleteMany (variantIdsOf st id) ;;
          _ <~ productVariant_deleteMany id ;;
          product_delete id in
        match transaction body st with
        | (Some _, st') => (ProductDeleted, st')
        | (None, st') => (DeleteProductFailed, st')
        end
      else
        let body :=
          _ <~ productVariant_updateMany id deactivateVariant ;;
          product_update id deactivateProduct in
        match transaction body st with
        | (Some _, st') => (ProductDeactivated, st')
        | (None, st') => (DeleteProductFailed, st')
        end
  end.

(** * Vocabulary of the properties *)

(** ** Stock movements

    Both loops over order lines are runs of [inventory_update] with an
    increment; [moveStock] is one such call and a run is summarised by the
    net movement per variant. *)

Definition moveStock (mv : Z * Z) : Tx unit :=
  inventory_update (fst mv) (increment (snd mv)).

Definition net (v : Z) (moves : list (Z * Z)) : Z :=
  foldr (λ mv acc, (if fst mv =? v then snd mv else 0) + acc) 0 moves.

Definition negateMove (mv : Z * Z) : Z * Z := (mv.1, - mv.2).

(** ** Order placement *)

Definition regularItems (items : list CartLine.t) : list CartLine.t :=
  List.filter (λ l, negb (CartLine.isPreorder l)) items.

(** The lines of the caller's cart, as the handler loads them. *)
Definition cartLines (st : Store) (userId : Z) : list CartLine.t :=
  match cart_findUnique st userId with
  | Some (_, items) => items
  | None => []
  end.

(** A line whose variant has fewer units in stock than the line asks for. *)
Definition short (line : CartLine.t) : Prop :=
  ∃ v inv, CartLine.productVariant line = Some (v, Some inv)
           ∧ Inventory.quantity inv < CartLine.quantity line.

(** A line that passes the stock check: no variant, or enough units. *)
Definition stocked (line : CartLine.t) : Prop :=
  match CartLine.productVariant line with
  | Some (_, Some inv) => CartLine.quantity line ≤ Inventory.quantity inv
  | Some (_, None) => False
  | None => True
  end.


Definition inventory_nonneg (st : Store) : Prop :=
  ∀ vid row, inventory st !! vid = Some row → 0 ≤ Inventory.quantity row.

(** The stock movement the placement loop makes for a line. *)
Definition placedMove (line : CartLine.t) : option (Z * Z) :=
  match CartLine.productVariant line,
        CartItem.productVariantId (CartLine.item line) with
  | Some _, Some vid => Some (vid, - CartLine.quantity line)
  | _, _ => None
  end.

Definition placedMoves (items : list CartLine.t) : list (Z * Z) :=
  omap placedMove (regularItems items).

(** The billing address the handler writes: the one of the request when it
    is truthy, the shipping address otherwise. *)
Definition billingAddressOf (req : CreateOrderRequest.t) : Z :=
  match CreateOrderRequest.billingAddressId req with
  | Some b => if b =? 0 then CreateOrderRequest.shippingAddressId req else b
  | None => CreateOrderRequest.shippingAddressId req
  end.

(** The row [order.create] builds for a cart. *)
Definition placedOrder (st : Store) (userId : Z) (req : CreateOrderRequest.t)
    (orderNumber : string) (items : list CartLine.t) : Order.t :=
  {| Order.id := fresh (dom (orders st)); Order.userId := userId;
     Order.orderNumber := orderNumber;
     Order.status := OrderStatus.PENDING;
     Order.totalAmount :=
       fold_left (λ sum line, sum + CartLine.price line * CartLine.quantity line)
                 items 0;
     Order.shippingAddressId := Some (CreateOrderRequest.shippingAddressId req);
     Order.billingAddressId := Some (billingAddressOf req);
     Order.paymentMethod := CreateOrderRequest.paymentMethod req;
     Order.orderType :=
       if (0 <? length (List.filter CartLine.isPreorder items))%nat
       then OrderType.PREORDER else OrderType.REGULAR;
     Order.items := map toOrderItem items |}.

(** The store a committed placement leaves: the new order, the inventory
    map [m] after the movements, and the cart without its items. *)
Definition placedStore (st : Store) (c : Cart.t) (order : Order.t)
    (m : gmap Z Inventory.t) : Store :=
  set_cart_items
    (List.filter (λ it, negb (CartItem.cartId it =? Cart.id c)) (cart_items st))
    (set_inventory m (set_orders (<[Order.id order := order]> (orders st)) st)).

(** The sum over a list, term by term: [Σ f x]. *)
Definition sumOf {A} (f : A → Z) (l : list A) : Z :=
  foldr (λ x acc, f x + acc) 0 l.

(** The database accepts the order row of a request: both addresses are on
    file and no order has the number. *)
Definition orderInsertable (st : Store) (req : CreateOrderRequest.t)
    (orderNumber : string) : Prop :=
  is_Some (addresses st !! CreateOrderRequest.shippingAddressId req)
  ∧ is_Some (addresses st !! billingAddressOf req)
  ∧ ∀ id order, orders st !! id = Some order →
      Order.orderNumber order ≠ orderNumber.

(** The ranges of the columns: INTEGER, and DECIMAL(10,2) counted in
    cents. *)
Definition fitsInteger (n : Z) : Prop := -2147483648 ≤ n ≤ 2147483647.

Definition fitsDecimal (cents : Z) : Prop := -9999999999 ≤ cents ≤ 9999999999.

(** Every quantity that a run of stock movements writes fits the INTEGER
    column: the run writes, for the variant of its k-th movement, the
    former quantity plus the net of the first k movements. *)
Definition stockWritesFit (st : Store) (moves : list (Z * Z)) : Prop :=
  ∀ k v row, inventory st !! v = Some row →
    fitsInteger (Inventory.quantity row + net v (take k moves)).

(** Every value an order placement writes for the lines [items] fits its
    column: the quantity, price and total of each order item, the total of
    the order, and the quantities of the inventory rows. *)
Definition placementFits (st : Store) (items : list CartLine.t) : Prop :=
  Forall (λ l, fitsInteger (CartLine.quantity l)
               ∧ fitsDecimal (CartLine.price l)
               ∧ fitsDecimal (CartLine.price l * CartLine.quantity l)) items
  ∧ fitsDecimal (sumOf (λ l, CartLine.price l * CartLine.quantity l) items)
  ∧ stockWritesFit st (placedMoves items).



(** The variant ids of the regular lines of a cart, in cart order. *)
Definition regularVariantIds (items : list CartLine.t) : list Z :=
  omap (λ l, CartItem.productVariantId (CartLine.item l)) (regularItems items).

(** A cart holds at most one regular line per variant: add-to-cart merges a
    repeated product, variant and preorder flag into the existing line. *)
Definition one_line_per_variant (st : Store) (userId : Z) : Prop :=
  NoDup (regularVariantIds (cartLines st userId)).

(** What add-to-cart compares to find the line already in the cart. *)
Definition lineKey (it : CartItem.t) : Z * Z * option Z * bool :=
  (CartItem.cartId it, CartItem.productId it, CartItem.productVariantId it,
   CartItem.isPreorder it).

(** The cart table as add-to-cart keeps it: no two rows with the same cart,
    product, variant and preorder flag, and every regular row with a variant
    names the product that variant belongs to. *)
Definition cart_lines_unique (st : Store) : Prop :=
  NoDup (map lineKey (cart_items st)).

Definition regular_lines_match_variant (st : Store) : Prop :=
  ∀ it vid,
    it ∈ cart_items st →
    CartItem.isPreorder it = false →
    CartItem.productVariantId it = Some vid →
    ∃ v, product_variants st !! vid = Some v
         ∧ ProductVariant.productId v = CartItem.productId it.

Definition cart_wf (st : Store) : Prop :=
  cart_lines_unique st ∧ regular_lines_match_variant st.

(** The variant id a row contributes to the regular lines of cart [c]. *)
Definition regularVariantOf (c : Z) (it : CartItem.t) : option Z :=
  if (CartItem.cartId it =? c) && negb (CartItem.isPreorder it)
  then CartItem.productVariantId it else None.


(** ** Order cancellation *)

(** The stock movement the cancellation loop makes for an order line. *)
Definition restoredMove (line : OrderLine.t) : option (Z * Z) :=
  let item := OrderLine.item line in
  match negb (OrderItem.isPreorder item), OrderLine.productVariant line,
        OrderItem.productVariantId item with
  | true, Some _, Some vid => Some (vid, OrderItem.quantity item)
  | _, _, _ => None
  end.

Definition restoredMoves (st : Store) (order : Order.t) : list (Z * Z) :=
  omap restoredMove (map (loadOrderLine st) (Order.items order)).

(** An order item that is not a preorder item and references variant [v]. *)
Definition restocks (st : Store) (v : Z) (item : OrderItem.t) : bool :=
  negb (OrderItem.isPreorder item)
  && match OrderItem.productVariantId item with
     | Some vid =>
         (vid =? v)
         && match product_variants st !! vid with
            | Some _ => true
            | None => false
            end
     | None => false
     end.

(** The units of variant [v] on the regular items of an order. *)
Definition regularQuantity (st : Store) (order : Order.t) (v : Z) : Z :=
  sumOf OrderItem.quantity (List.filter (restocks st v) (Order.items order)).

(** The store a committed cancellation leaves. *)
Definition cancelledStore (st : Store) (id : Z) (order : Order.t)
    (m : gmap Z Inventory.t) : Store :=
  set_inventory m
    (set_orders (<[id := Order.with_status OrderStatus.CANCELLED order]> (orders st)) st).

(** ** The order life cycle *)

(** The order life cycle as the specification words it: the forward chain
    PENDING, CONFIRMED, PROCESSING, SHIPPED, DELIVERED, and CANCELLED from
    PENDING or CONFIRMED only. *)
Inductive specOrderTransition : OrderStatus.t → OrderStatus.t → Prop :=
| confirm_order : specOrderTransition OrderStatus.PENDING OrderStatus.CONFIRMED
| process_order : specOrderTransition OrderStatus.CONFIRMED OrderStatus.PROCESSING
| ship_order : specOrderTransition OrderStatus.PROCESSING OrderStatus.SHIPPED
| deliver_order : specOrderTransition OrderStatus.SHIPPED OrderStatus.DELIVERED
| cancel_pending_order :
    specOrderTransition OrderStatus.PENDING OrderStatus.CANCELLED
| cancel_confirmed_order :
    specOrderTransition OrderStatus.CONFIRMED OrderStatus.CANCELLED.

(** ** Preorder placement *)

(** The units on the PENDING and CONFIRMED preorders of a product. *)
Definition activeQuantity (st : Store) (productId : Z) : Z :=
  sumOf Preorder.quantity
    (List.filter (λ p, (Preorder.productId p =? productId)
                       && activePreorder (Preorder.status p))
                 (preorders st)).

(** The figures of a placement: unit price, total, deposit, remainder. *)
Definition unitPrice (product : Product.t) : Z :=
  default (Product.basePrice product) (Product.preorderPrice product).

Definition totalOf (product : Product.t) (req : CreatePreorderRequest.t) : Z :=
  unitPrice product * CreatePreorderRequest.quantity req.

Definition depositOf (product : Product.t) (req : CreatePreorderRequest.t) : Z :=
  Z.min (default 0 (CreatePreorderRequest.depositAmount req)) (totalOf product req).

(** The row [preorder.create] builds for a request. *)
Definition placedPreorder (st : Store) (userId : Z)
    (req : CreatePreorderRequest.t) (product : Product.t) : Preorder.t :=
  {| Preorder.id := fresh (map Preorder.id (preorders st));
     Preorder.userId := userId;
     Preorder.productId := CreatePreorderRequest.productId req;
     Preorder.productVariantId :=
       truthy_id (CreatePreorderRequest.productVariantId req);
     Preorder.quantity := CreatePreorderRequest.quantity req;
     Preorder.price := unitPrice product;
     Preorder.status :=
       if 0 <? depositOf product req
       then PreorderStatus.CONFIRMED else PreorderStatus.PENDING;
     Preorder.shippingAddressId :=
       truthy_id (CreatePreorderRequest.shippingAddressId req);
     Preorder.expectedDate := Product.expectedStockDate product;
     Preorder.depositPaid := depositOf product req;
     Preorder.remainingAmount := totalOf product req - depositOf product req;
     Preorder.updatedBy := None; Preorder.trackingNumber := None;
     Preorder.adminNotes := None; Preorder.shippedAt := None;
     Preorder.deliveredAt := None; Preorder.cancelledAt := None |}.

(** The store a committed preorder placement leaves. *)
Definition preorderedStore (st : Store) (req : CreatePreorderRequest.t)
    (product : Product.t) (row : Preorder.t) : Store :=
  set_products
    (<[CreatePreorderRequest.productId req :=
         incrementTotalPreorders (CreatePreorderRequest.quantity req) product]>
       (products st))
    (set_preorders (preorders st ++ [row]) st).

(** The checks that come before the limit check all pass. *)
Definition reachesLimitCheck (st : Store) (now : Z)
    (req : CreatePreorderRequest.t) (product : Product.t) : Prop :=
  createPreorder_valid req = true
  ∧ product_findFirst_preorderable st (CreatePreorderRequest.productId req)
    = Some product
  ∧ variantMissing st (CreatePreorderRequest.productId req)
      (truthy_id (CreatePreorderRequest.productVariantId req)) = false
  ∧ windowClosed product now = false.

(** ** The preorder life cycle *)

(** The preorder transition table as the specification lists it. *)
Inductive specPreorderTransition : PreorderStatus.t → PreorderStatus.t → Prop :=
| pending_confirmed :
    specPreorderTransition PreorderStatus.PENDING PreorderStatus.CONFIRMED
| pending_cancelled :
    specPreorderTransition PreorderStatus.PENDING PreorderStatus.CANCELLED
| pending_expired :
    specPreorderTransition PreorderStatus.PENDING PreorderStatus.EXPIRED
| confirmed_ready :
    specPreorderTransition PreorderStatus.CONFIRMED PreorderStatus.READY
| confirmed_cancelled :
    specPreorderTransition PreorderStatus.CONFIRMED PreorderStatus.CANCELLED
| ready_shipped :
    specPreorderTransition PreorderStatus.READY PreorderStatus.SHIPPED
| ready_cancelled :
    specPreorderTransition PreorderStatus.READY PreorderStatus.CANCELLED
| shipped_delivered :
    specPreorderTransition PreorderStatus.SHIPPED PreorderStatus.DELIVERED.

(** The history record the handler writes for an accepted transition. *)
Definition historyRecord (userId now id : Z)
    (req : UpdatePreorderStatusRequest.t) (current : PreorderStatus.t)
    : PreorderStatusHistory.t :=
  {| PreorderStatusHistory.preorderId := id;
     PreorderStatusHistory.fromStatus := current;
     PreorderStatusHistory.toStatus := UpdatePreorderStatusRequest.status req;
     PreorderStatusHistory.changedBy := userId;
     PreorderStatusHistory.notes :=
       match truthy_string (UpdatePreorderStatusRequest.notes req) with
       | Some s => s
       | None =>
           "Status changed from " +:+ PreorderStatus.name current
             +:+ " to "
             +:+ PreorderStatus.name (UpdatePreorderStatusRequest.status req)
       end;
     PreorderStatusHistory.timestamp := now |}.

(** ** A shop to run the handlers on

    Product 7 is a shirt with one variant, 70, of which 5 are in stock; the
    cart of user 1 holds 2 of them at 21.99.  Product 8 is open to preorders
    at 139.99 with a limit of 100. *)

Definition shirt : Product.t :=
  {| Product.basePrice := 2199; Product.isActive := true;
     Product.allowPreorder := false; Product.preorderPrice := None;
     Product.expectedStockDate := None; Product.preorderLimit := None;
     Product.totalPreorders := 0 |}.

Definition sneaker : Product.t :=
  {| Product.basePrice := 15999; Product.isActive := true;
     Product.allowPreorder := true; Product.preorderPrice := Some 13999;
     Product.expectedStockDate := Some 1800000000000;
     Product.preorderLimit := Some 100; Product.totalPreorders := 0 |}.

Definition shirtM : ProductVariant.t :=
  {| ProductVariant.productId := 7; ProductVariant.price := None;
     ProductVariant.isActive := true |}.

Definition twoShirts : CartItem.t :=
  {| CartItem.cartId := 10; CartItem.productId := 7;
     CartItem.productVariantId := Some 70; CartItem.quantity := 2;
     CartItem.price := 2199; CartItem.isPreorder := false |}.

Definition shop : Store :=
  {| products := {[ 7 := shirt; 8 := sneaker ]};
     product_variants := {[ 70 := shirtM ]};
     inventory := {[ 70 := {| Inventory.quantity := 5;
                              Inventory.reservedQuantity := 0;
                              Inventory.lowStockThreshold := 10 |} ]};
     addresses := {[ 1 := {| Address.userId := 1 |} ]};
     cart := {[ 1 := {| Cart.id := 10 |} ]};
     cart_items := [twoShirts];
     orders := ∅;
     preorders := [];
     preorder_status_history := [] |}.

Definition checkout : CreateOrderRequest.t :=
  {| CreateOrderRequest.shippingAddressId := 1;
     CreateOrderRequest.billingAddressId := None;
     CreateOrderRequest.paymentMethod := "stripe" |}.

Definition preorderOf (quantity : Z) (depositAmount : option Z)
    : CreatePreorderRequest.t :=
  {| CreatePreorderRequest.productId := 8;
     CreatePreorderRequest.productVariantId := None;
     CreatePreorderRequest.quantity := quantity;
     CreatePreorderRequest.shippingAddressId := Some 1;
     CreatePreorderRequest.depositAmount := depositAmount |}.

(** The shop once user 2 holds a confirmed preorder of 90 sneakers. *)
Definition ninety : Preorder.t :=
  {| Preorder.id := 1; Preorder.userId := 2; Preorder.productId := 8;
     Preorder.productVariantId := None; Preorder.quantity := 90;
     Preorder.price := 13999; Preorder.status := PreorderStatus.CONFIRMED;
     Preorder.shippingAddressId := None;
     Preorder.expectedDate := Some 1800000000000;
     Preorder.depositPaid := 1000; Preorder.remainingAmount := 1258910;
     Preorder.updatedBy := None; Preorder.trackingNumber := None;
     Preorder.adminNotes := None; Preorder.shippedAt := None;
     Preorder.deliveredAt := None; Preorder.cancelledAt := None |}.

Definition busyShop : Store := set_preorders [ninety] shop.

Definition statusRequest (status : PreorderStatus.t)
    : UpdatePreorderStatusRequest.t :=
  {| UpdatePreorderStatusRequest.status := status;
     UpdatePreorderStatusRequest.trackingNumber := None;
     UpdatePreorderStatusRequest.notes := None |}.

(** A delivered order of user 1, alone in the store. *)
Definition deliveredOrder : Order.t :=
  {| Order.id := 1; Order.userId := 1; Order.orderNumber := "ORD-1-AAAAA";
     Order.status := OrderStatus.DELIVERED; Order.totalAmount := 4398;
     Order.shippingAddressId := Some 1; Order.billingAddressId := Some 1;
     Order.paymentMethod := "stripe"; Order.orderType := OrderType.REGULAR;
     Order.items := [] |}.

Definition deliveredStore : Store :=
  {| products := ∅; product_variants := ∅; inventory := ∅; addresses := ∅;
     cart := ∅; cart_items := []; orders := {[ 1 := deliveredOrder ]};
     preorders := []; preorder_status_history := [] |}.

(** The shop with one order, number 1, on file. *)
Definition shopWith (order : Order.t) : Store :=
  set_orders {[ 1 := order ]} shop.

Definition confirmedOrder : Order.t :=
  Order.with_status OrderStatus.CONFIRMED deliveredOrder.

(** ** Customer cancellation of a preorder *)

(** [id] is the primary key of the preorders. *)
Definition preorder_ids_unique (st : Store) : Prop :=
  NoDup (map Preorder.id (preorders st)).

(** The units a row adds to the PENDING and CONFIRMED preorders of a
    product. *)
Definition activeUnits (productId : Z) (p : Preorder.t) : Z :=
  if (Preorder.productId p =? productId) && activePreorder (Preorder.status p)
  then Preorder.quantity p else 0.

(** The store a committed cancellation of preorder [p] leaves. *)
Definition cancelledPreorderStore (st : Store) (now id : Z) (p : Preorder.t)
    (product : Product.t) : Store :=
  set_products
    (<[Preorder.productId p :=
         decrementTotalPreorders (Preorder.quantity p) product]> (products st))
    (set_preorders
       (map (λ q, if Preorder.id q =? id then cancelData now q else q)
            (preorders st)) st).

(** What a status change or a cancellation keeps of a preorder: who placed
    it, what for, and the figures taken at placement. *)
Definition samePlacement (p q : Preorder.t) : Prop :=
  Preorder.id q = Preorder.id p
  ∧ Preorder.userId q = Preorder.userId p
  ∧ Preorder.productId q = Preorder.productId p
  ∧ Preorder.productVariantId q = Preorder.productVariantId p
  ∧ Preorder.quantity q = Preorder.quantity p
  ∧ Preorder.price q = Preorder.price p
  ∧ Preorder.depositPaid q = Preorder.depositPaid p
  ∧ Preorder.remainingAmount q = Preorder.remainingAmount p
  ∧ Preorder.shippingAddressId q = Preorder.shippingAddressId p
  ∧ Preorder.expectedDate q = Preorder.expectedDate p.

(** ** The cart *)

(** Every cart item belongs to a cart (the foreign key on [cart_id]). *)
Definition cart_items_have_cart (st : Store) : Prop :=
  ∀ it, it ∈ cart_items st →
    ∃ u c, cart st !! u = Some c ∧ Cart.id c = CartItem.cartId it.

(** The key of the line a request to add-to-cart is about: the caller's
    cart, there already or about to be created, and the product, variant
    and preorder flag of the request. *)
Definition requestedKey (st : Store) (userId : Z) (req : AddToCartRequest.t)
    : Z * Z * option Z * bool :=
  (Cart.id (cart_getOrCreate st userId).1, AddToCartRequest.productId req,
   truthy_id (AddToCartRequest.productVariantId req),
   default false (AddToCartRequest.isPreorder req)).

(** The units the cart table holds under a key. *)
Definition heldQuantity (st : Store) (key : Z * Z * option Z * bool) : Z :=
  sumOf CartItem.quantity
    (List.filter (λ it, bool_decide (lineKey it = key)) (cart_items st)).

(** The row add-to-cart creates when the cart has no line for the key. *)
Definition newCartItem (key : Z * Z * option Z * bool) (quantity price : Z)
    : CartItem.t :=
  {| CartItem.cartId := key.1.1.1; CartItem.productId := key.1.1.2;
     CartItem.productVariantId := key.1.2; CartItem.quantity := quantity;
     CartItem.price := price; CartItem.isPreorder := key.2 |}.

(** The variant add-to-cart loads for a request, if the request names one. *)
Definition requestedVariant (st : Store) (req : AddToCartRequest.t)
    : option (ProductVariant.t * option Inventory.t) :=
  vid ← truthy_id (AddToCartRequest.productVariantId req);
  productVariant_findFirst st vid (AddToCartRequest.productId req).

(** A request of user 1 for more shirts of variant 70. *)
Definition moreShirts (quantity : Z) : AddToCartRequest.t :=
  {| AddToCartRequest.productId := 7;
     AddToCartRequest.productVariantId := Some 70;
     AddToCartRequest.quantity := quantity;
     AddToCartRequest.isPreorder := None |}.

(** The quantities of the lines can be added up in JavaScript numbers
    without rounding: none is negative and their sum is at most 2^53. *)
Definition countsExactly (items : list CartLine.t) : Prop :=
  Forall (λ l, 0 ≤ CartLine.quantity l) items
  ∧ sumOf CartLine.quantity items ≤ 9007199254740992.

(** ** Stock summaries of a product *)

(** The variant has the color (or size) of the given id. *)
Definition hasAttribute {A} (attributeOf : VariantView.t → option A)
    (idOf : A → Z) (k : Z) (variant : VariantView.t) : bool :=
  match attributeOf variant with
  | Some a => idOf a =? k
  | None => false
  end.

(** [groups] are the variants grouped by color (or size): one entry per id
    that occurs, each with the variants of that id, in their order, and the
    sum of their quantities. *)
Definition groupsOf {A} (attributeOf : VariantView.t → option A) (idOf : A → Z)
    (variants : list VariantView.t) (groups : list (Availability.t A)) : Prop :=
  NoDup (map (λ d, idOf (Availability.attribute d)) groups)
  ∧ (∀ k, (∃ d, d ∈ groups ∧ idOf (Availability.attribute d) = k)
          ↔ ∃ v a, v ∈ variants ∧ attributeOf v = Some a ∧ idOf a = k)
  ∧ (∀ d, d ∈ groups →
       Availability.variants d
       = List.filter (hasAttribute attributeOf idOf
                        (idOf (Availability.attribute d))) variants
       ∧ Availability.totalStock d
         = sumOf quantityOf (Availability.variants d))
  ∧ sumOf Availability.totalStock groups
    = sumOf quantityOf
        (List.filter (λ v, bool_decide (is_Some (attributeOf v))) variants).

(** One step of the loop, and what holds of the map once the variants
    [seen] have been added. *)
Definition groupStep {A} (attributeOf : VariantView.t → option A)
    (idOf : A → Z) (m : list (Z * Availability.t A)) (variant : VariantView.t)
    : list (Z * Availability.t A) :=
  match attributeOf variant with
  | Some a => mapUpdate idOf a variant m
  | None => m
  end.

Definition groupedSoFar {A} (attributeOf : VariantView.t → option A)
    (idOf : A → Z) (seen : list VariantView.t)
    (m : list (Z * Availability.t A)) : Prop :=
  NoDup (map fst m)
  ∧ (∀ k d, (k, d) ∈ m →
       idOf (Availability.attribute d) = k
       ∧ Availability.variants d
         = List.filter (hasAttribute attributeOf idOf k) seen
       ∧ Availability.totalStock d
         = sumOf quantityOf (List.filter (hasAttribute attributeOf idOf k) seen)
       ∧ ∃ v, v ∈ seen ∧ hasAttribute attributeOf idOf k v = true)
  ∧ (∀ v, v ∈ seen → ∀ k, hasAttribute attributeOf idOf k v = true →
       k ∈ map fst m)
  ∧ sumOf Availability.totalStock (map snd m)
    = sumOf quantityOf
        (List.filter (λ v, bool_decide (is_Some (attributeOf v))) seen).

(** A product with three variants: red in M (4 in stock) and in L (none),
    and blue in M (12 in stock, threshold stored as 0). *)
Definition red : Color.t :=
  {| Color.id := 1; Color.name := "Red"; Color.hexCode := "#FF0000";
     Color.isActive := true |}.

Definition blue : Color.t :=
  {| Color.id := 2; Color.name := "Blue"; Color.hexCode := "#0000FF";
     Color.isActive := true |}.

Definition sizeM : Size.t :=
  {| Size.id := 1; Size.name := "M"; Size.sortOrder := 2; Size.isActive := true |}.

Definition sizeL : Size.t :=
  {| Size.id := 2; Size.name := "L"; Size.sortOrder := 3; Size.isActive := true |}.

Definition viewOf (id : Z) (color : Color.t) (size : Size.t)
    (quantity threshold : Z) : VariantView.t :=
  {| VariantView.id := id; VariantView.variant := shirtM;
     VariantView.color := Some color; VariantView.size := Some size;
     VariantView.inventory :=
       Some {| Inventory.quantity := quantity;
               Inventory.reservedQuantity := 1;
               Inventory.lowStockThreshold := threshold |} |}.

Definition shirtViews : list VariantView.t :=
  [viewOf 70 red sizeL 0 10; viewOf 71 red sizeM 4 10; viewOf 72 blue sizeM 12 0].

(** ** The handlers as steps of the store

    One request to a handler that can write to the store, whatever its
    answer.  The reflexive and transitive closure [rtc apiStep] relates a
    store to every store that sequences of such requests lead to. *)

Inductive apiStep : Store → Store → Prop :=
| step_addToCart st userId req :
    apiStep st (addToCart st userId req).2
| step_getCart st userId :
    apiStep st (getCart st userId).2
| step_createOrder st userId req orderNumber :
    apiStep st (createOrder st userId req orderNumber).2
| step_cancelOrder st userId id :
    apiStep st (cancelOrder st userId id).2
| step_updateOrderStatus st id status :
    apiStep st (updateOrderStatus st id status).2
| step_createPreorder st userId now req :
    apiStep st (createPreorder st userId now req).2
| step_cancelPreorder st userId now id :
    apiStep st (cancelPreorder st userId now id).2
| step_updatePreorderStatus st userId now id req :
    apiStep st (updatePreorderStatus st userId now id req).2
| step_deleteProduct st id permanent :
    apiStep st (deleteProduct st id permanent).2.

(** No line of a cart and no item of an order has a negative quantity. *)
Definition cart_quantities_nonneg (st : Store) : Prop :=
  Forall (λ it, 0 ≤ CartItem.quantity it) (cart_items st).

Definition order_quantities_nonneg (st : Store) : Prop :=
  ∀ id order, orders st !! id = Some order →
    Forall (λ item, 0 ≤ OrderItem.quantity item) (Order.items order).

(** The stores in which stock is accounted for: no stock count is
    negative, the cart table is well-formed, and quantities are not
    negative. *)
Definition stock_safe (st : Store) : Prop :=
  inventory_nonneg st
  ∧ cart_wf st
  ∧ cart_quantities_nonneg st
  ∧ order_quantities_nonneg st.

(** The stores in which the carts are in order. *)
Definition carts_ok (st : Store) : Prop :=
  cart_wf st ∧ cart_items_have_cart st.

(** No product with a preorder limit has more units on PENDING and
    CONFIRMED preorders than the limit. *)
Definition within_preorder_limits (st : Store) : Prop :=
  ∀ productId product limit,
    products st !! productId = Some product →
    Product.preorderLimit product = Some limit →
    limit ≠ 0 →
    activeQuantity st productId ≤ limit.

(** The stores in which the preorders are in order. *)
Definition preorders_ok (st : Store) : Prop :=
  preorder_ids_unique st
  ∧ Forall (λ p, 0 ≤ Preorder.quantity p) (preorders st)
  ∧ within_preorder_limits st.

(** ** Deleting a product *)

(** The store a deactivation leaves. *)
Definition deactivatedStore (st : Store) (id : Z) (product : Product.t)
    : Store :=
  set_products (<[id := deactivateProduct product]> (products st))
    (set_product_variants
       ((λ v, if ProductVariant.productId v =? id
              then deactivateVariant v else v) <$> product_variants st) st).

(** The store a permanent deletion leaves: the product, its variants and
    their inventory rows are gone, with the cart items that name the
    product or one of the variants; order items and preorders that named
    one of the variants name none. *)
Definition deletedStore (st : Store) (id : Z) : Store :=
  let ids := variantIdsOf st id in
  {| products := delete id (products st);
     product_variants := foldr delete (product_variants st) ids;
     inventory := foldr delete (inventory st) ids;
     addresses := addresses st;
     cart := cart st;
     cart_items :=
       List.filter (λ it, negb (CartItem.productId it =? id))
         (List.filter (λ it, negb (refers ids (CartItem.productVariantId it)))
                      (cart_items st));
     orders := clearOrderVariants ids <$> orders st;
     preorders := map (clearPreorderVariant ids) (preorders st);
     preorder_status_history := preorder_status_history st |}.

(** The answer of the order placement to a valid request, read off the
    cart. *)
Definition placementAnswer (st : Store) (userId : Z)
    (req : CreateOrderRequest.t) (orderNumber : string) : CreateOrderResponse :=
  match cartLines st userId with
  | [] => CartIsEmpty
  | items =>
      match verifyStock (regularItems items) with
      | StockOk =>
          if orderNumber_taken st orderNumber
             || negb (address_exists st (CreateOrderRequest.shippingAddressId req)
                      && address_exists st (billingAddressOf req))
          then CreateOrderFailed
          else OrderCreated (placedOrder st userId req orderNumber items)
      | StockShort productId => InsufficientStock productId
      | StockThrows => CreateOrderFailed
      end
  end.

(** A cart line with its joined variant changed by [f]. *)
Definition mapLineVariant (f : ProductVariant.t → ProductVariant.t)
    (line : CartLine.t) : CartLine.t :=
  {| CartLine.item := CartLine.item line;
     CartLine.productVariant :=
       (λ vi, (f vi.1, vi.2)) <$> CartLine.productVariant line |}.

(** The variant belongs to the product. *)
Definition variantOf (st : Store) (productId vid : Z) : Prop :=
  ∃ v, product_variants st !! vid = Some v
       ∧ ProductVariant.productId v = productId.

(** Every order on file is stored under its id, its total is the sum of the
    totals of its items, each item's total is its price times its
    quantity, and it is of type PREORDER exactly when one of its items is a
    preorder item. *)
Definition orders_consistent (st : Store) : Prop :=
  ∀ k order, orders st !! k = Some order →
    Order.id order = k
    ∧ Order.totalAmount order = sumOf OrderItem.total (Order.items order)
    ∧ Forall (λ item, OrderItem.total item
                      = OrderItem.price item * OrderItem.quantity item)
             (Order.items order)
    ∧ (Order.orderType order = OrderType.PREORDER
       ↔ ∃ item, item ∈ Order.items order ∧ OrderItem.isPreorder item = true).

(** Two preorders of one user for the same product and variant. *)
Definition sameRequest (p q : Preorder.t) : Prop :=
  Preorder.userId p = Preorder.userId q
  ∧ Preorder.productId p = Preorder.productId q
  ∧ Preorder.productVariantId p = Preorder.productVariantId q.

(** A preorder that names a variant names a variant of its product. *)
Definition preorder_variants_belong (st : Store) : Prop :=
  ∀ p vid, p ∈ preorders st →
    Preorder.productVariantId p = Some vid →
    variantOf st (Preorder.productId p) vid.

(** No user holds two PENDING or CONFIRMED preorders for the same product
    and variant. *)
Definition one_active_preorder (st : Store) : Prop :=
  ∀ p q, p ∈ preorders st → q ∈ preorders st →
    activePreorder (Preorder.status p) = true →
    activePreorder (Preorder.status q) = true →
    sameRequest p q →
    Preorder.id p = Preorder.id q.

Definition preorders_distinct (st : Store) : Prop :=
  preorder_ids_unique st ∧ preorder_variants_belong st ∧ one_active_preorder st.

(** * Properties *)

(** ** Record and store bookkeeping *)

Lemma increment_0 row : increment 0 row = row.
Proof. destruct row; unfold increment; simpl; f_equal; lia. Qed.

Lemma increment_increment a b row :
  increment b (increment a row) = increment (a + b) row.
Proof. unfold increment; simpl; f_equal; lia. Qed.

Lemma decrement_increment n row : decrement n row = increment (- n) row.
Proof. unfold decrement, increment; f_equal; lia. Qed.

Lemma set_inventory_same st : set_inventory (inventory st) st = st.
Proof. by destruct st. Qed.

(** ** Stock movements *)

Lemma net_not_in v moves : v ∉ map fst moves → net v moves = 0.
Proof.
  induction moves as [|[w d] moves IH]; simpl; [done|].
  intros Hv. apply not_elem_of_cons in Hv as [Hne Hv].
  rewrite IH by done. destruct (Z.eqb_spec w v); [congruence | lia].
Qed.

Lemma net_unique v d moves :
  NoDup (map fst moves) → (v, d) ∈ moves → net v moves = d.
Proof.
  induction moves as [|[w e] moves IH]; simpl; intros Hnd Hin.
  - by apply elem_of_nil in Hin.
  - apply NoDup_cons in Hnd as [Hw Hnd].
    apply elem_of_cons in Hin as [Heq | Hin].
    + inversion Heq; subst. rewrite Z.eqb_refl, net_not_in by done. lia.
    + destruct (Z.eqb_spec w v) as [->|Hne].
      * exfalso. apply Hw. apply (list_elem_of_fmap_2 fst) in Hin. done.
      * rewrite IH by done. lia.
Qed.

Lemma moveStock_run moves : ∀ st st',
  forEach moveStock moves st = Some (tt, st') →
  ∃ m, st' = set_inventory m st
       ∧ ∀ v, m !! v = increment (net v moves) <$> inventory st !! v.
Proof.
  induction moves as [|[w d] moves IH]; simpl; intros st st' Hrun.
  - inversion Hrun; subst. exists (inventory st').
    split; [by rewrite set_inventory_same|].
    intros v. destruct (inventory st' !! v); simpl; [|done].
    by rewrite increment_0.
  - unfold tx_bind, moveStock, inventory_update in Hrun. simpl in Hrun.
    destruct (inventory st !! w) as [row|] eqn:Hrow; [|done].
    apply IH in Hrun as (m & -> & Hm). exists m. split; [done|].
    intros v. rewrite Hm. simpl.
    destruct (Z.eqb_spec w v) as [->|Hne].
    + rewrite lookup_insert_eq, Hrow. simpl. by rewrite increment_increment.
    + rewrite lookup_insert_ne by done.
      destruct (inventory st !! v); simpl; [|done]. f_equal.
Qed.

Lemma moveStock_succeeds moves : ∀ st,
  Forall (λ mv, is_Some (inventory st !! fst mv)) moves →
  ∃ st', forEach moveStock moves st = Some (tt, st').
Proof.
  induction moves as [|[w d] moves IH]; simpl; intros st Hall.
  - by eexists.
  - apply Forall_cons in Hall as [[row Hrow] Hall]. simpl in Hrow.
    unfold tx_bind, moveStock, inventory_update. simpl. rewrite Hrow.
    apply IH. eapply Forall_impl; [exact Hall|].
    intros [v e] [r Hr]. simpl in *.
    destruct (decide (w = v)) as [->|Hne].
    + rewrite lookup_insert_eq. by eexists.
    + rewrite lookup_insert_ne by done. by eexists.
Qed.

(** A loop whose body is, item by item, either one stock movement or
    nothing, is the run of the movements it selects. *)
Lemma forEach_moves {A} (f : A → Tx unit) (g : A → option (Z * Z)) l :
  (∀ x, x ∈ l → ∀ st,
     f x st = match g x with Some mv => moveStock mv st | None => Some (tt, st) end) →
  ∀ st, forEach f l st = forEach moveStock (omap g l) st.
Proof.
  induction l as [|x l IH]; intros Hf st; [done|].
  simpl. unfold tx_bind. rewrite Hf by apply list_elem_of_here.
  destruct (g x) as [mv|] eqn:Hg; simpl.
  - unfold tx_bind. destruct (moveStock mv st) as [[[] st1]|]; [|done].
    apply IH. intros y Hy. apply Hf. by apply list_elem_of_further.
  - apply IH. intros y Hy. apply Hf. by apply list_elem_of_further.
Qed.

(** ** Order placement *)

Lemma loadCartLine_variant st it v inv :
  CartLine.productVariant (loadCartLine st it) = Some (v, inv) →
  ∃ vid, CartItem.productVariantId it = Some vid
         ∧ product_variants st !! vid = Some v
         ∧ inv = inventory st !! vid.
Proof.
  unfold loadCartLine. simpl.
  destruct (CartItem.productVariantId it) as [vid|]; simpl; [|done].
  destruct (product_variants st !! vid) as [w|] eqn:Hw; simpl; [|done].
  intros [= <- <-]. eauto.
Qed.

Lemma cartLines_loaded st userId line :
  line ∈ cartLines st userId → ∃ it, line = loadCartLine st it.
Proof.
  unfold cartLines, cart_findUnique.
  destruct (cart st !! userId) as [c|]; simpl.
  - intros Hin. apply list_elem_of_fmap in Hin as (it & -> & _). eauto.
  - intros Hin. by apply elem_of_nil in Hin.
Qed.

Lemma regularItems_elem items line :
  line ∈ regularItems items ↔ line ∈ items ∧ CartLine.isPreorder line = false.
Proof.
  unfold regularItems. rewrite !list_elem_of_In, filter_In.
  rewrite negb_true_iff. tauto.
Qed.

Lemma verifyStock_ok items :
  verifyStock items = StockOk ↔ Forall stocked items.
Proof.
  induction items as [|line items IH]; simpl; [done|].
  rewrite Forall_cons. unfold stocked at 1.
  destruct (CartLine.productVariant line) as [[v [inv|]]|].
  - destruct (Z.ltb_spec (Inventory.quantity inv) (CartLine.quantity line)).
    + split; [done | intros [? _]; lia].
    + rewrite IH. split; [intros ?; split; [lia | done] | by intros [_ ?]].
  - split; [done | by intros []].
  - rewrite IH. tauto.
Qed.


Lemma decrementStock_move st0 line :
  (∃ it, line = loadCartLine st0 it) →
  ∀ st, decrementStock line st
        = match placedMove line with
          | Some mv => moveStock mv st
          | None => Some (tt, st)
          end.
Proof.
  intros [it ->] st. unfold decrementStock, placedMove.
  destruct (CartLine.productVariant (loadCartLine st0 it)) as [[v inv]|] eqn:Hv;
    [|done].
  apply loadCartLine_variant in Hv as (vid & Hvid & _).
  simpl. rewrite Hvid. unfold moveStock, inventory_update. simpl.
  destruct (inventory st !! vid); [|done].
  by rewrite decrement_increment.
Qed.

Lemma placedMoves_have_rows st userId :
  Forall stocked (regularItems (cartLines st userId)) →
  Forall (λ mv, is_Some (inventory st !! fst mv)) (placedMoves (cartLines st userId)).
Proof.
  intros Hok. apply Forall_forall. intros [vid d] Hmv.
  apply list_elem_of_omap in Hmv as (line & Hline & Hmove).
  rewrite Forall_forall in Hok. specialize (Hok _ Hline).
  apply regularItems_elem in Hline as [Hline _].
  apply cartLines_loaded in Hline as [it ->].
  unfold placedMove in Hmove. unfold stocked in Hok.
  destruct (CartLine.productVariant (loadCartLine st it)) as [[v inv]|] eqn:Hv;
    [|done].
  apply loadCartLine_variant in Hv as (vid' & Hvid & _ & ->).
  simpl in Hmove. rewrite Hvid in Hmove. inversion Hmove; subst. simpl.
  destruct (inventory st !! vid); [by eexists | done].
Qed.

Lemma orderNumber_taken_false st orderNumber :
  orderNumber_taken st orderNumber = false
  ↔ ∀ id order, orders st !! id = Some order →
      Order.orderNumber order ≠ orderNumber.
Proof.
  unfold orderNumber_taken. rewrite <- not_true_iff_false, existsb_exists.
  split.
  - intros Hnone id order Horder Heq. apply Hnone. exists (id, order).
    split; [by apply list_elem_of_In, elem_of_map_to_list|].
    by apply String.eqb_eq.
  - intros Hfree ([id order] & Hin & Heq).
    apply list_elem_of_In, elem_of_map_to_list in Hin.
    apply String.eqb_eq in Heq. by apply (Hfree id order).
Qed.

Lemma address_exists_true st id :
  address_exists st id = true ↔ is_Some (addresses st !! id).
Proof.
  unfold address_exists. destruct (addresses st !! id); split; intros H;
    try done; by destruct H.
Qed.

(** What the database checks on the order row, as one condition. *)
Lemma orderInsertable_checks st req orderNumber :
  orderInsertable st req orderNumber
  ↔ orderNumber_taken st orderNumber = false
    ∧ address_exists st (CreateOrderRequest.shippingAddressId req)
      && address_exists st (billingAddressOf req) = true.
Proof.
  unfold orderInsertable.
  rewrite orderNumber_taken_false, andb_true_iff, !address_exists_true.
  tauto.
Qed.

Lemma orderInsertable_decide st req orderNumber :
  orderInsertable st req orderNumber ∨ ¬ orderInsertable st req orderNumber.
Proof.
  rewrite orderInsertable_checks.
  destruct (orderNumber_taken st orderNumber),
    (address_exists st _ && address_exists st _); intuition congruence.
Qed.

Lemma order_create_accepted st userId req orderNumber total type items :
  orderInsertable st req orderNumber →
  order_create userId orderNumber total
    (CreateOrderRequest.shippingAddressId req) (billingAddressOf req)
    (CreateOrderRequest.paymentMethod req) type items st
  = Some ({| Order.id := fresh (dom (orders st)); Order.userId := userId;
             Order.orderNumber := orderNumber;
             Order.status := OrderStatus.PENDING;
             Order.totalAmount := total;
             Order.shippingAddressId :=
               Some (CreateOrderRequest.shippingAddressId req);
             Order.billingAddressId := Some (billingAddressOf req);
             Order.paymentMethod := CreateOrderRequest.paymentMethod req;
             Order.orderType := type;
             Order.items := items |},
          set_orders
            (<[fresh (dom (orders st)) :=
                 {| Order.id := fresh (dom (orders st));
                    Order.userId := userId;
                    Order.orderNumber := orderNumber;
                    Order.status := OrderStatus.PENDING;
                    Order.totalAmount := total;
                    Order.shippingAddressId :=
                      Some (CreateOrderRequest.shippingAddressId req);
                    Order.billingAddressId := Some (billingAddressOf req);
                    Order.paymentMethod := CreateOrderRequest.paymentMethod req;
                    Order.orderType := type;
                    Order.items := items |}]> (orders st)) st).
Proof.
  intros Hins. apply orderInsertable_checks in Hins as [Hfree Hfk].
  unfold order_create. by rewrite Hfree, Hfk.
Qed.

Lemma order_create_rejected st userId req orderNumber total type items :
  ¬ orderInsertable st req orderNumber →
  order_create userId orderNumber total
    (CreateOrderRequest.shippingAddressId req) (billingAddressOf req)
    (CreateOrderRequest.paymentMethod req) type items st
  = None.
Proof.
  intros Hins. unfold order_create.
  destruct (orderNumber_taken st orderNumber) eqn:Hfree; [done|].
  destruct (address_exists st _ && address_exists st _) eqn:Hfk; [|done].
  exfalso. apply Hins. by apply orderInsertable_checks.
Qed.

Lemma createOrder_commits st userId req orderNumber c items :
  createOrder_valid req = true →
  cart_findUnique st userId = Some (c, items) →
  items ≠ [] →
  Forall stocked (regularItems items) →
  orderInsertable st req orderNumber →
  ∃ m, createOrder st userId req orderNumber
       = (OrderCreated (placedOrder st userId req orderNumber items),
          placedStore st c (placedOrder st userId req orderNumber items) m)
       ∧ ∀ v, m !! v = increment (net v (placedMoves items)) <$> inventory st !! v.
Proof.
  intros Hvalid Hcart Hne Hok Hins.
  assert (Hlines : cartLines st userId = items)
    by (unfold cartLines; by rewrite Hcart).
  unfold createOrder. rewrite Hvalid, Hcart. simpl.
  destruct items as [|l0 items0] eqn:Hitems; [done|]. rewrite <- Hitems in *.
  replace (length items =? 0)%nat with false by (by rewrite Hitems).
  fold (regularItems items). fold (billingAddressOf req).
  apply verifyStock_ok in Hok as Hcheck. rewrite Hcheck.
  unfold transaction, tx_bind.
  rewrite (order_create_accepted _ _ _ _ _ _ _ Hins).
  fold (billingAddressOf req).
  fold (placedOrder st userId req orderNumber items).
  set (order := placedOrder st userId req orderNumber items).
  set (st1 := set_orders (<[fresh (dom (orders st)) := order]> (orders st)) st).
  rewrite (forEach_moves decrementStock placedMove).
  2:{ intros line Hline. apply (decrementStock_move st).
      apply regularItems_elem in Hline as [Hline _].
      rewrite <- Hlines in Hline. by apply cartLines_loaded in Hline. }
  fold (placedMoves items).
  assert (Hrows : Forall (λ mv, is_Some (inventory st1 !! fst mv)) (placedMoves items)).
  { change (inventory st1) with (inventory st).
    rewrite <- Hlines. apply placedMoves_have_rows. by rewrite Hlines. }
  destruct (moveStock_succeeds _ _ Hrows) as [st2 Hrun]. rewrite Hrun.
  apply moveStock_run in Hrun as (m & -> & Hm).
  exists m. split; [|exact Hm].
  unfold cartItem_deleteMany, tx_ret. simpl. done.
Qed.

Lemma createOrder_created_inv st userId req orderNumber order st' :
  createOrder st userId req orderNumber = (OrderCreated order, st') →
  ∃ c items,
    createOrder_valid req = true
    ∧ cart_findUnique st userId = Some (c, items)
    ∧ items ≠ []
    ∧ Forall stocked (regularItems items)
    ∧ orderInsertable st req orderNumber.
Proof.
  unfold createOrder.
  destruct (createOrder_valid req); simpl; [|done].
  destruct (cart_findUnique st userId) as [[c items]|]; [|done].
  destruct items as [|l0 items0] eqn:Hitems; [done|]. rewrite <- Hitems.
  replace (length items =? 0)%nat with false by (by rewrite Hitems).
  fold (regularItems items). fold (billingAddressOf req).
  destruct (verifyStock (regularItems items)) eqn:Hcheck; try done.
  intros Hres. exists c, items. apply verifyStock_ok in Hcheck.
  split; [done|]. split; [done|]. split; [by rewrite Hitems|].
  split; [done|].
  destruct (orderInsertable_decide st req orderNumber) as [Hins|Hno]; [done|].
  unfold transaction, tx_bind in Hres.
  by rewrite (order_create_rejected _ _ _ _ _ _ _ Hno) in Hres.
Qed.

(** A valid request on a stocked cart whose order row the database
    rejects: the transaction is rolled back. *)
Lemma createOrder_not_insertable st userId req orderNumber c items :
  createOrder_valid req = true →
  cart_findUnique st userId = Some (c, items) →
  items ≠ [] →
  Forall stocked (regularItems items) →
  ¬ orderInsertable st req orderNumber →
  createOrder st userId req orderNumber = (CreateOrderFailed, st).
Proof.
  intros Hvalid Hcart Hne Hok Hno.
  unfold createOrder. rewrite Hvalid, Hcart. simpl.
  destruct items as [|l0 items0] eqn:Hitems; [done|]. rewrite <- Hitems in *.
  replace (length items =? 0)%nat with false by (by rewrite Hitems).
  fold (regularItems items). fold (billingAddressOf req).
  apply verifyStock_ok in Hok as Hcheck. rewrite Hcheck.
  unfold transaction, tx_bind.
  by rewrite (order_create_rejected _ _ _ _ _ _ _ Hno).
Qed.

(** Whatever does not end in [OrderCreated] leaves the store as it was. *)
Lemma createOrder_rejected_keeps st userId req orderNumber :
  (∀ order, (createOrder st userId req orderNumber).1 ≠ OrderCreated order) →
  (createOrder st userId req orderNumber).2 = st.
Proof.
  unfold createOrder.
  destruct (createOrder_valid req); simpl; [|done].
  destruct (cart_findUnique st userId) as [[c items]|]; [|done].
  destruct (length items =? 0)%nat; [done|].
  destruct (verifyStock _); try done.
  unfold transaction.
  match goal with |- context [match ?b st with _ => _ end] =>
    destruct (b st) as [[o st1]|] end; [|done].
  simpl. intros H. by destruct (H o).
Qed.

Lemma placedMoves_sublist items :
  sublist (map fst (placedMoves items)) (regularVariantIds items).
Proof.
  unfold placedMoves, regularVariantIds.
  induction (regularItems items) as [|line l IH]; simpl; [constructor|].
  unfold placedMove at 1.
  destruct (CartLine.productVariant line) as [x|],
           (CartItem.productVariantId (CartLine.item line)) as [vid|]; simpl.
  - by constructor.
  - done.
  - by constructor.
  - done.
Qed.

Lemma createOrder_short st userId req orderNumber c items productId :
  createOrder_valid req = true →
  cart_findUnique st userId = Some (c, items) →
  verifyStock (regularItems items) = StockShort productId →
  createOrder st userId req orderNumber = (InsufficientStock productId, st).
Proof.
  intros Hvalid Hcart Hcheck. unfold createOrder.
  rewrite Hvalid, Hcart. simpl.
  destruct items as [|l0 items0] eqn:Hitems; [done|]. rewrite <- Hitems in *.
  replace (length items =? 0)%nat with false by (by rewrite Hitems).
  fold (regularItems items). by rewrite Hcheck.
Qed.

Lemma cartLines_Some st userId line :
  line ∈ cartLines st userId →
  ∃ c, cart_findUnique st userId = Some (c, cartLines st userId).
Proof.
  unfold cartLines.
  destruct (cart_findUnique st userId) as [[c items]|]; [eauto|].
  intros Hin. by apply elem_of_nil in Hin.
Qed.


Lemma placed_nonneg st userId (m : gmap Z Inventory.t) :
  one_line_per_variant st userId →
  inventory_nonneg st →
  Forall stocked (regularItems (cartLines st userId)) →
  (∀ v, m !! v = increment (net v (placedMoves (cartLines st userId)))
                   <$> inventory st !! v) →
  ∀ vid row, m !! vid = Some row → 0 ≤ Inventory.quantity row.
Proof.
  intros Huniq Hpos Hok Hm vid row Hrow. rewrite Hm in Hrow.
  destruct (inventory st !! vid) as [before|] eqn:Hbefore; [|done].
  simpl in Hrow. inversion Hrow; subst row; clear Hrow. simpl.
  specialize (Hpos _ _ Hbefore).
  destruct (decide (vid ∈ map fst (placedMoves (cartLines st userId))))
    as [Hin|Hout]; [|rewrite net_not_in by done; lia].
  apply list_elem_of_fmap in Hin as ([w d] & Hw & Hmv). simpl in Hw; subst w.
  rewrite (net_unique vid d).
  2:{ eapply sublist_NoDup; [exact Huniq | apply placedMoves_sublist]. }
  2:{ done. }
  apply list_elem_of_omap in Hmv as (line & Hline & Hmove).
  rewrite Forall_forall in Hok. specialize (Hok _ Hline).
  apply regularItems_elem in Hline as [Hline _].
  apply cartLines_loaded in Hline as [it ->].
  unfold placedMove in Hmove. unfold stocked in Hok.
  destruct (CartLine.productVariant (loadCartLine st it)) as [[v inv]|] eqn:Hv;
    [|done].
  apply loadCartLine_variant in Hv as (vid' & Hvid & _ & ->).
  simpl in Hmove. rewrite Hvid in Hmove. inversion Hmove; subst.
  rewrite Hbefore in Hok. lia.
Qed.



Lemma fold_left_sumOf {A} (f : A → Z) (l : list A) (a : Z) :
  fold_left (λ sum x, sum + f x) l a = a + sumOf f l.
Proof.
  revert a. induction l as [|x l IH]; intros a; simpl; [lia|].
  rewrite IH. lia.
Qed.


Lemma filter_isPreorder_length items :
  (0 <? length (List.filter CartLine.isPreorder items))%nat = true
  ↔ ∃ l, l ∈ items ∧ CartLine.isPreorder l = true.
Proof.
  rewrite Nat.ltb_lt. split.
  - destruct (List.filter CartLine.isPreorder items) as [|l rest] eqn:Hf;
      simpl; [lia|].
    intros _. exists l.
    assert (Hin : In l (List.filter CartLine.isPreorder items))
      by (rewrite Hf; by left).
    apply filter_In in Hin as [Hin Hpre]. by rewrite list_elem_of_In.
  - intros (l & Hin & Hpre).
    assert (Hf : In l (List.filter CartLine.isPreorder items)).
    { apply filter_In. by rewrite <- list_elem_of_In. }
    destruct (List.filter CartLine.isPreorder items); simpl; [done | lia].
Qed.



(** ** Order cancellation *)

Lemma restoreStock_move st0 item :
  ∀ st, restoreStock (loadOrderLine st0 item) st
        = match restoredMove (loadOrderLine st0 item) with
          | Some mv => moveStock mv st
          | None => Some (tt, st)
          end.
Proof.
  intros st. unfold restoreStock, restoredMove, loadOrderLine. simpl.
  destruct (OrderItem.isPreorder item); simpl; [done|].
  destruct (OrderItem.productVariantId item) as [vid|]; simpl; [|done].
  by destruct (product_variants st0 !! vid).
Qed.

Lemma restoredMove_load st item :
  restoredMove (loadOrderLine st item)
  = if OrderItem.isPreorder item then None else
    match OrderItem.productVariantId item with
    | Some vid =>
        match product_variants st !! vid with
        | Some _ => Some (vid, OrderItem.quantity item)
        | None => None
        end
    | None => None
    end.
Proof.
  unfold restoredMove, loadOrderLine. simpl.
  destruct (OrderItem.isPreorder item); simpl; [done|].
  destruct (OrderItem.productVariantId item) as [vid|]; simpl; [|done].
  by destruct (product_variants st !! vid).
Qed.

Lemma net_restoredMoves st order v :
  net v (restoredMoves st order) = regularQuantity st order v.
Proof.
  unfold restoredMoves, regularQuantity.
  induction (Order.items order) as [|item l IH]; [done|].
  cbn [map omap list_omap List.filter].
  rewrite restoredMove_load. unfold restocks at 1.
  destruct (OrderItem.isPreorder item); cbn [negb andb]; [exact IH|].
  destruct (OrderItem.productVariantId item) as [vid|]; [|exact IH].
  destruct (product_variants st !! vid); [|rewrite andb_false_r; exact IH].
  rewrite andb_true_r.
  destruct (vid =? v) eqn:Hv.
  - cbn [net sumOf foldr fst snd]. rewrite Hv. f_equal. exact IH.
  - cbn [net foldr fst snd]. rewrite Hv. exact IH.
Qed.


Lemma cancelOrder_commits st userId id order :
  orders st !! id = Some order →
  Order.userId order = userId →
  cancellable (Order.status order) = true →
  Forall (λ mv, is_Some (inventory st !! fst mv)) (restoredMoves st order) →
  ∃ m, cancelOrder st userId id = (OrderCancelled, cancelledStore st id order m)
       ∧ ∀ v, m !! v = increment (net v (restoredMoves st order))
                         <$> inventory st !! v.
Proof.
  intros Horder Huser Hstatus Hrows.
  unfold cancelOrder, order_findFirst. rewrite Horder. simpl.
  rewrite Huser, Z.eqb_refl, Hstatus. simpl.
  unfold transaction, tx_bind, order_update. rewrite Horder.
  set (st1 := set_orders _ st).
  rewrite (forEach_moves restoreStock restoredMove).
  2:{ intros line Hline. apply list_elem_of_fmap in Hline as (item & -> & _).
      apply restoreStock_move. }
  fold (restoredMoves st order).
  change (inventory st) with (inventory st1) in Hrows.
  destruct (moveStock_succeeds _ _ Hrows) as [st2 Hrun]. rewrite Hrun.
  apply moveStock_run in Hrun as (m & -> & Hm). by exists m.
Qed.




(** ** Placement followed by cancellation *)

Lemma net_negate v moves : net v (map negateMove moves) = - net v moves.
Proof.
  induction moves as [|[w d] moves IH]; simpl; [done|].
  rewrite IH. destruct (w =? v); lia.
Qed.

Lemma restoredMoves_of_placed st st1 userId req orderNumber its :
  product_variants st1 = product_variants st →
  restoredMoves st1
    (placedOrder st userId req orderNumber (map (loadCartLine st) its))
  = map negateMove (placedMoves (map (loadCartLine st) its)).
Proof.
  intros Hvar. unfold restoredMoves, placedMoves, regularItems. simpl.
  induction its as [|it its IH]; [done|].
  cbn [map omap list_omap List.filter]. rewrite restoredMove_load, Hvar.
  unfold CartLine.isPreorder at 1. cbn [loadCartLine CartLine.item toOrderItem
    OrderItem.isPreorder OrderItem.productVariantId OrderItem.quantity].
  destruct (CartItem.isPreorder it); cbn [negb]; [exact IH|].
  cbn [omap list_omap map]. unfold placedMove at 1.
  cbn [loadCartLine CartLine.item CartLine.productVariant CartLine.quantity].
  destruct (CartItem.productVariantId it) as [vid|]; cbn [mbind option_bind];
    [|exact IH].
  destruct (product_variants st !! vid); cbn [mbind option_bind map];
    [|exact IH].
  unfold negateMove at 1. cbn [fst snd]. rewrite Z.opp_involutive.
  f_equal. exact IH.
Qed.

Lemma cart_findUnique_loaded st userId c items :
  cart_findUnique st userId = Some (c, items) →
  ∃ its, items = map (loadCartLine st) its.
Proof.
  unfold cart_findUnique.
  destruct (cart st !! userId) as [c'|]; simpl; [|done].
  intros [= <- <-]. eauto.
Qed.

Lemma regularQuantity_untouched st order v :
  (∀ item, item ∈ Order.items order →
     OrderItem.isPreorder item = false →
     OrderItem.productVariantId item ≠ Some v) →
  regularQuantity st order v = 0.
Proof.
  unfold regularQuantity.
  induction (Order.items order) as [|item l IH]; intros Hnone; [done|].
  cbn [List.filter].
  assert (Hno : restocks st v item = false).
  { unfold restocks.
    destruct (OrderItem.isPreorder item) eqn:Hpre; [done|]. simpl.
    destruct (OrderItem.productVariantId item) as [vid|] eqn:Hvid; [|done].
    destruct (Z.eqb_spec vid v) as [->|]; [|done].
    exfalso. by apply (Hnone item); [apply list_elem_of_here | |]. }
  rewrite Hno. apply IH. intros it Hit. apply Hnone.
  by apply list_elem_of_further.
Qed.

(** C8. Round trip of placement and cancellation.  After a successful
    placement, cancelling the new order at once succeeds and leaves the
    inventory table exactly as it was before the placement: the placement
    lowers every variant by the units on the order's regular items that
    reference it, the cancellation raises it by the same units, and a variant
    that no regular item references (one that only preorder lines mention,
    say) keeps its row through both operations. *)
Theorem place_then_cancel_restores st userId req orderNumber order st1 :
  createOrder st userId req orderNumber = (OrderCreated order, st1) →
  ∃ st2,
    cancelOrder st1 userId (Order.id order) = (OrderCancelled, st2)
    ∧ inventory st2 = inventory st
    ∧ (∀ v, inventory st1 !! v
            = decrement (regularQuantity st order v) <$> inventory st !! v)
    ∧ (∀ v, inventory st2 !! v
            = increment (regularQuantity st order v) <$> inventory st1 !! v)
    ∧ (∀ v, (∀ item, item ∈ Order.items order →
               OrderItem.isPreorder item = false →
               OrderItem.productVariantId item ≠ Some v) →
            inventory st1 !! v = inventory st !! v
            ∧ inventory st2 !! v = inventory st !! v).
Proof.
  intros Hcreate.
  destruct (createOrder_created_inv _ _ _ _ _ _ Hcreate)
    as (c & items & Hvalid & Hcart & Hne & Hok & Hins).
  destruct (createOrder_commits st userId req orderNumber c items
              Hvalid Hcart Hne Hok Hins) as (m & Heq & Hm).
  rewrite Hcreate in Heq.
  assert (Horder : order = placedOrder st userId req orderNumber items)
    by congruence.
  assert (Hst1 : st1 = placedStore st c
                         (placedOrder st userId req orderNumber items) m)
    by congruence.
  clear Heq.
  destruct (cart_findUnique_loaded _ _ _ _ Hcart) as [its Hits].
  assert (Hlines : cartLines st userId = items)
    by (unfold cartLines; by rewrite Hcart).
  set (q := regularQuantity st order).
  assert (Hmoves : restoredMoves st1 order = map negateMove (placedMoves items)).
  { rewrite Horder, Hits. apply restoredMoves_of_placed. by rewrite Hst1. }
  assert (Hq : ∀ v, net v (placedMoves items) = - q v).
  { intros v. unfold q. rewrite <- net_restoredMoves.
    replace (restoredMoves st order) with (restoredMoves st1 order)
      by (by rewrite Hst1).
    rewrite Hmoves, net_negate. lia. }
  assert (Hplaced : ∀ v, inventory st1 !! v = decrement (q v) <$> inventory st !! v).
  { intros v. rewrite Hst1. simpl. rewrite Hm, Hq.
    destruct (inventory st !! v); simpl; [|done].
    by rewrite decrement_increment. }
  destruct (cancelOrder_commits st1 userId (Order.id order) order)
    as (m2 & Hcancel & Hm2).
  { rewrite Hst1, Horder. apply lookup_insert_eq. }
  { by rewrite Horder. }
  { by rewrite Horder. }
  { rewrite Hmoves. apply Forall_fmap.
    assert (Hrows := placedMoves_have_rows st userId).
    rewrite Hlines in Hrows. specialize (Hrows Hok).
    eapply Forall_impl; [exact Hrows|].
    intros [v d] [row Hrow]. simpl in *.
    rewrite Hplaced, Hrow. by eexists. }
  exists (cancelledStore st1 (Order.id order) order m2).
  assert (Hrestored : ∀ v, m2 !! v = increment (q v) <$> inventory st1 !! v).
  { intros v. rewrite Hm2, Hmoves, net_negate, Hq. do 2 f_equal. lia. }
  assert (Hback : ∀ v, m2 !! v = inventory st !! v).
  { intros v. rewrite Hrestored, Hplaced.
    destruct (inventory st !! v) as [row|]; simpl; [|done].
    rewrite decrement_increment, increment_increment.
    replace (- q v + q v) with 0 by lia. by rewrite increment_0. }
  split; [exact Hcancel|]. split; [|split; [|split]].
  - simpl. apply map_eq. exact Hback.
  - exact Hplaced.
  - exact Hrestored.
  - intros v Hnone.
    assert (Hz : q v = 0) by (by apply regularQuantity_untouched).
    split.
    + rewrite Hplaced, Hz. destruct (inventory st !! v) as [row|]; simpl; [|done].
      by rewrite decrement_increment, increment_0.
    + simpl. apply Hback.
Qed.

(** ** Admin update of an order's status *)

Lemma updateOrderStatus_found st id status order :
  orders st !! id = Some order →
  updateOrderStatus st id status
  = (OrderStatusUpdated (Order.with_status status order),
     set_orders (<[id := Order.with_status status order]> (orders st)) st).
Proof.
  intros Horder.
  unfold updateOrderStatus, autocommit, transaction, order_update.
  by rewrite Horder.
Qed.

Lemma updateOrderStatus_missing st id status :
  orders st !! id = None →
  updateOrderStatus st id status = (UpdateOrderStatusFailed, st).
Proof.
  intros Horder.
  unfold updateOrderStatus, autocommit, transaction, order_update.
  by rewrite Horder.
Qed.

(** C3, as the specification states it, fails: a DELIVERED order is moved
    to CANCELLED by the admin status update, although the specification's
    life cycle has no such step. *)
Lemma updateOrderStatus_delivered_to_cancelled :
  orders deliveredStore !! 1 = Some deliveredOrder
  ∧ Order.status deliveredOrder = OrderStatus.DELIVERED
  ∧ ¬ specOrderTransition OrderStatus.DELIVERED OrderStatus.CANCELLED
  ∧ updateOrderStatus deliveredStore 1 OrderStatus.CANCELLED
    = (OrderStatusUpdated (Order.with_status OrderStatus.CANCELLED deliveredOrder),
       set_orders {[ 1 := Order.with_status OrderStatus.CANCELLED deliveredOrder ]}
                  deliveredStore).
Proof.
  split; [reflexivity|]. split; [reflexivity|].
  split; [intros H; inversion H|].
  vm_compute. reflexivity.
Qed.

(** C3, amended.  The admin status update has no transition table: for
    every existing order and every status of the enumeration, whatever the
    order's current status, the update is accepted, the answer carries the
    order with the requested status and the order is stored so; nothing else
    in the store changes. *)
Theorem updateOrderStatus_accepts_any st id status order :
  orders st !! id = Some order →
  updateOrderStatus st id status
  = (OrderStatusUpdated (Order.with_status status order),
     set_orders (<[id := Order.with_status status order]> (orders st)) st)
  ∧ Order.status (Order.with_status status order) = status.
Proof.
  intros Horder. split; [by apply updateOrderStatus_found | done].
Qed.

Lemma updateOrderStatus_accepts_any_witness :
  updateOrderStatus deliveredStore 1 OrderStatus.PENDING
  = (OrderStatusUpdated (Order.with_status OrderStatus.PENDING deliveredOrder),
     set_orders (<[1 := Order.with_status OrderStatus.PENDING deliveredOrder]>
                   (orders deliveredStore)) deliveredStore)
  ∧ Order.status (Order.with_status OrderStatus.PENDING deliveredOrder)
    = OrderStatus.PENDING.
Proof.
  apply (updateOrderStatus_accepts_any deliveredStore 1 OrderStatus.PENDING
           deliveredOrder).
  vm_compute. reflexivity.
Defined.

(** C10. Frame of the admin status update.  For every order id and every
    requested status, CANCELLED included, the update leaves the inventory
    table, the status history and every table other than [orders] as they
    were, and leaves every other order as it was; when the order exists the
    stored order differs from the former one in its status only, and when it
    does not the request fails and the store is unchanged. *)
Theorem updateOrderStatus_frame st id status :
  let result := updateOrderStatus st id status in
  inventory result.2 = inventory st
  ∧ preorder_status_history result.2 = preorder_status_history st
  ∧ products result.2 = products st
  ∧ product_variants result.2 = product_variants st
  ∧ addresses result.2 = addresses st
  ∧ cart result.2 = cart st
  ∧ cart_items result.2 = cart_items st
  ∧ preorders result.2 = preorders st
  ∧ (∀ other, other ≠ id → orders result.2 !! other = orders st !! other)
  ∧ match orders st !! id with
    | Some order =>
        ∃ order',
          result.1 = OrderStatusUpdated order'
          ∧ orders result.2 !! id = Some order'
          ∧ Order.status order' = status
          ∧ Order.id order' = Order.id order
          ∧ Order.userId order' = Order.userId order
          ∧ Order.orderNumber order' = Order.orderNumber order
          ∧ Order.totalAmount order' = Order.totalAmount order
          ∧ Order.shippingAddressId order' = Order.shippingAddressId order
          ∧ Order.billingAddressId order' = Order.billingAddressId order
          ∧ Order.paymentMethod order' = Order.paymentMethod order
          ∧ Order.orderType order' = Order.orderType order
          ∧ Order.items order' = Order.items order
    | None => result = (UpdateOrderStatusFailed, st)
    end.
Proof.
  intros result. unfold result.
  destruct (orders st !! id) as [order|] eqn:Horder.
  - rewrite (updateOrderStatus_found st id status order Horder). simpl.
    repeat split; try done.
    + intros other Hother. by rewrite lookup_insert_ne.
    + exists (Order.with_status status order).
      rewrite lookup_insert_eq. done.
  - rewrite (updateOrderStatus_missing st id status Horder). done.
Qed.

(** ** Preorder placement *)

Lemma product_findFirst_preorderable_Some st productId product :
  product_findFirst_preorderable st productId = Some product →
  products st !! productId = Some product.
Proof.
  unfold product_findFirst_preorderable.
  destruct (products st !! productId) as [p|]; simpl; [|done].
  by destruct (Product.isActive p && Product.allowPreorder p); intros [= ->].
Qed.

Lemma aggregate_activeQuantity st productId :
  default 0 (preorder_aggregate_sum st productId) = activeQuantity st productId.
Proof.
  unfold preorder_aggregate_sum, activeQuantity.
  by destruct (List.filter _ (preorders st)).
Qed.

Lemma limitExceeded_Some st product productId quantity available :
  limitExceeded st product productId quantity = Some available →
  ∃ limit, Product.preorderLimit product = Some limit
           ∧ limit ≠ 0
           ∧ limit < activeQuantity st productId + quantity
           ∧ available = limit - activeQuantity st productId.
Proof.
  unfold limitExceeded. rewrite aggregate_activeQuantity.
  destruct (Product.preorderLimit product) as [limit|]; [|done].
  destruct (Z.eqb_spec limit 0); [done|].
  destruct (Z.ltb_spec limit (activeQuantity st productId + quantity)); [|done].
  intros [= <-]. eauto.
Qed.

Lemma limitExceeded_over st product productId quantity limit :
  Product.preorderLimit product = Some limit →
  limit ≠ 0 →
  limit < activeQuantity st productId + quantity →
  limitExceeded st product productId quantity
  = Some (limit - activeQuantity st productId).
Proof.
  intros Hlimit Hne Hover. unfold limitExceeded.
  rewrite Hlimit, aggregate_activeQuantity.
  destruct (Z.eqb_spec limit 0); [done|].
  by destruct (Z.ltb_spec limit (activeQuantity st productId + quantity)); [|lia].
Qed.

Lemma limitExceeded_None st product productId quantity limit :
  limitExceeded st product productId quantity = None →
  Product.preorderLimit product = Some limit →
  limit ≠ 0 →
  activeQuantity st productId + quantity ≤ limit.
Proof.
  unfold limitExceeded. rewrite aggregate_activeQuantity.
  intros Hnone Hlimit Hne. rewrite Hlimit in Hnone.
  destruct (Z.eqb_spec limit 0); [done|].
  by destruct (Z.ltb_spec limit (activeQuantity st productId + quantity)).
Qed.

(** Every outcome of the handler: a created preorder with the store it
    leaves, or another answer and the store as it was. *)
Lemma createPreorder_outcome st userId now req :
  (∃ product,
     reachesLimitCheck st now req product
     ∧ limitExceeded st product (CreatePreorderRequest.productId req)
         (CreatePreorderRequest.quantity req) = None
     ∧ createPreorder st userId now req
       = (PreorderCreated (placedPreorder st userId req product)
            (totalOf product req) (depositOf product req)
            (totalOf product req - depositOf product req)
            (Product.expectedStockDate product),
          preorderedStore st req product (placedPreorder st userId req product)))
  ∨ ((∀ p t d r e,
        (createPreorder st userId now req).1 ≠ PreorderCreated p t d r e)
     ∧ (createPreorder st userId now req).2 = st).
Proof.
  unfold createPreorder.
  destruct (createPreorder_valid req) eqn:Hvalid; simpl; [|by right].
  destruct (product_findFirst_preorderable st _) as [product|] eqn:Hprod;
    [|by right].
  destruct (variantMissing st _ _) eqn:Hvar; [by right|].
  destruct (windowClosed product now) eqn:Hwin; [by right|].
  destruct (limitExceeded st product _ _) eqn:Hlimit; [by right|].
  destruct (preorder_findFirst_active st userId _ _); [by right|].
  destruct (addressMissing st userId _); [by right|].
  left. exists product. split; [done|]. split; [done|].
  unfold transaction, tx_bind, preorder_create, product_update. simpl.
  by rewrite (product_findFirst_preorderable_Some _ _ _ Hprod).
Qed.

Lemma createPreorder_created_inv st userId now req p t d r e st' :
  createPreorder st userId now req = (PreorderCreated p t d r e, st') →
  ∃ product,
    reachesLimitCheck st now req product
    ∧ limitExceeded st product (CreatePreorderRequest.productId req)
        (CreatePreorderRequest.quantity req) = None
    ∧ p = placedPreorder st userId req product
    ∧ t = totalOf product req
    ∧ d = depositOf product req
    ∧ r = totalOf product req - depositOf product req
    ∧ e = Product.expectedStockDate product
    ∧ st' = preorderedStore st req product p.
Proof.
  intros Hres.
  destruct (createPreorder_outcome st userId now req)
    as [(product & Hreach & Hlimit & Heq) | [Hnot _]].
  - rewrite Hres in Heq. inversion Heq; subst. exists product. done.
  - exfalso. apply (Hnot p t d r e). by rewrite Hres.
Qed.

Lemma sumOf_app {A} (f : A → Z) (l1 l2 : list A) :
  sumOf f (l1 ++ l2) = sumOf f l1 + sumOf f l2.
Proof. induction l1 as [|x l1 IH]; simpl; [done | rewrite IH; lia]. Qed.

Lemma placedPreorder_active st userId req product :
  activePreorder (Preorder.status (placedPreorder st userId req product)) = true.
Proof. simpl. by destruct (0 <? depositOf product req). Qed.

Lemma activeQuantity_preordered st userId req product :
  activeQuantity
    (preorderedStore st req product (placedPreorder st userId req product))
    (CreatePreorderRequest.productId req)
  = activeQuantity st (CreatePreorderRequest.productId req)
    + CreatePreorderRequest.quantity req.
Proof.
  unfold activeQuantity. cbn [preorderedStore preorders set_products set_preorders].
  rewrite List.filter_app, sumOf_app. f_equal.
  cbn [List.filter]. rewrite placedPreorder_active.
  cbn [placedPreorder Preorder.productId]. rewrite Z.eqb_refl. simpl. lia.
Qed.

(** C5. Preorder limit.  For a product with a preorder limit L, with S the
    units on the product's PENDING and CONFIRMED preorders and q the
    requested quantity: the placement is refused for the limit only when
    S + q > L, and then reports the remaining capacity L - S and the
    requested quantity and changes nothing; whenever S + q > L and the
    request reaches the limit check (valid request, product active and open
    to preorders, variant available, window open), it is so refused; when
    S + q ≤ L it is not refused for the limit; and a created preorder raises
    S by q, so that later requests are measured against S + q.  A product
    has a limit for the handler when [preorderLimit] is set and not 0 (its
    guard is [if (product.preorderLimit)]); the product routes store limits
    of at least 1 only. *)
Theorem createPreorder_limit st userId now req product L :
  products st !! CreatePreorderRequest.productId req = Some product →
  Product.preorderLimit product = Some L →
  L ≠ 0 →
  let S := activeQuantity st (CreatePreorderRequest.productId req) in
  let q := CreatePreorderRequest.quantity req in
  let result := createPreorder st userId now req in
  (∀ available requested,
     result.1 = PreorderLimitExceeded available requested →
     L < S + q ∧ available = L - S ∧ requested = q ∧ result.2 = st)
  ∧ (L < S + q → reachesLimitCheck st now req product →
     result = (PreorderLimitExceeded (L - S) q, st))
  ∧ (S + q ≤ L →
     ∀ available requested,
       result.1 ≠ PreorderLimitExceeded available requested)
  ∧ (∀ p t d r e,
       result.1 = PreorderCreated p t d r e →
       S + q ≤ L
       ∧ activeQuantity result.2 (CreatePreorderRequest.productId req) = S + q).
Proof.
  intros Hproduct Hlimit Hne S q result.
  assert (Hrejected : ∀ available requested,
            result.1 = PreorderLimitExceeded available requested →
            L < S + q ∧ available = L - S ∧ requested = q ∧ result.2 = st).
  { intros available requested. unfold result, createPreorder.
    destruct (createPreorder_valid req); simpl; [|done].
    destruct (product_findFirst_preorderable st _) as [found|] eqn:Hfound;
      [|done].
    apply product_findFirst_preorderable_Some in Hfound.
    assert (found = product) as -> by congruence.
    destruct (variantMissing st _ _); [done|].
    destruct (windowClosed product now); [done|].
    destruct (limitExceeded st product _ _) as [a|] eqn:Hover.
    - simpl. intros [= <- <-].
      apply limitExceeded_Some in Hover as (limit & Hl & _ & Hlt & ->).
      assert (limit = L) as -> by congruence. done.
    - destruct (preorder_findFirst_active st userId _ _); [done|].
      destruct (addressMissing st userId _); [done|].
      unfold transaction.
      match goal with |- context [match ?b st with _ => _ end] =>
        destruct (b st) as [[o st1]|] end; done. }
  split; [exact Hrejected|]. split; [|split].
  - intros Hover (Hvalid & Hfound & Hvar & Hwin).
    unfold result, createPreorder. rewrite Hvalid. simpl.
    rewrite Hfound, Hvar, Hwin. unfold S, q in Hover.
    by rewrite (limitExceeded_over st product _ _ L Hlimit Hne Hover).
  - intros Hfits available requested Hres.
    apply Hrejected in Hres as [Hover _]. lia.
  - intros p t d r e Hres.
    destruct (createPreorder st userId now req) as [resp st'] eqn:Heq.
    unfold result in *. simpl in Hres. subst resp.
    apply createPreorder_created_inv in Heq
      as (found & (_ & Hfound & _) & Hnone & -> & _ & _ & _ & _ & ->).
    apply product_findFirst_preorderable_Some in Hfound.
    assert (found = product) as -> by congruence.
    split; [by apply (limitExceeded_None st product _ _ L)|].
    simpl. apply activeQuantity_preordered.
Qed.

(** C9. Frame of preorder placement.  In every outcome the inventory table
    is left as it was, row for row (quantity, reserved quantity and
    threshold), and so are the variants, addresses, carts, cart items,
    orders and the status history.  A created preorder adds exactly one row,
    the returned one, to the preorders and raises the product's running
    counter [totalPreorders] by the requested quantity, the product being
    otherwise unchanged; any other outcome leaves the whole store as it
    was. *)
Theorem createPreorder_frame st userId now req :
  let result := createPreorder st userId now req in
  inventory result.2 = inventory st
  ∧ product_variants result.2 = product_variants st
  ∧ addresses result.2 = addresses st
  ∧ cart result.2 = cart st
  ∧ cart_items result.2 = cart_items st
  ∧ orders result.2 = orders st
  ∧ preorder_status_history result.2 = preorder_status_history st
  ∧ match result.1 with
    | PreorderCreated p _ _ _ _ =>
        preorders result.2 = preorders st ++ [p]
        ∧ ∃ product,
            products st !! CreatePreorderRequest.productId req = Some product
            ∧ products result.2
              = <[CreatePreorderRequest.productId req :=
                    incrementTotalPreorders (CreatePreorderRequest.quantity req)
                                            product]> (products st)
            ∧ Product.totalPreorders
                (incrementTotalPreorders (CreatePreorderRequest.quantity req) product)
              = Product.totalPreorders product + CreatePreorderRequest.quantity req
    | _ => result.2 = st
    end.
Proof.
  intros result. unfold result.
  destruct (createPreorder_outcome st userId now req)
    as [(product & (_ & Hprod & _) & _ & ->) | [Hnot Hkeep]].
  - simpl. repeat split; try done.
    exists product. split; [by apply product_findFirst_preorderable_Some | done].
  - rewrite Hkeep. repeat split; try done.
    destruct (createPreorder st userId now req) as [resp st'].
    simpl in *. destruct resp; try done. by destruct (Hnot preorder totalAmount depositPaid remainingAmount expectedDelivery).
Qed.

(** ** Preorder life cycle *)

Lemma includes_validTransitions from to :
  includes (validTransitions from) to = true ↔ specPreorderTransition from to.
Proof.
  destruct from, to; simpl; split; intros H;
    try done; try constructor; inversion H.
Qed.

Lemma find_updated id (data : Preorder.t → Preorder.t) rows row :
  (∀ p, Preorder.id (data p) = Preorder.id p) →
  find (λ p, Preorder.id p =? id) rows = Some row →
  find (λ p, Preorder.id p =? id)
       (map (λ p, if Preorder.id p =? id then data p else p) rows)
  = Some (data row).
Proof.
  intros Hid. induction rows as [|p rows IH]; simpl; [done|].
  destruct (Preorder.id p =? id) eqn:Hp.
  - intros [= ->]. simpl. by rewrite Hid, Hp.
  - intros Hfind. simpl. rewrite Hp. by apply IH.
Qed.

Lemma updatePreorderStatus_accepted st userId now id req current :
  updatePreorderStatus_valid req = true →
  preorder_findUnique st id = Some current →
  includes (validTransitions (Preorder.status current))
           (UpdatePreorderStatusRequest.status req) = true →
  updatePreorderStatus st userId now id req
  = (PreorderStatusUpdated (updateData userId now req current)
       {| StatusChange.from := Preorder.status current;
          StatusChange.to := UpdatePreorderStatusRequest.status req;
          StatusChange.updatedBy := userId;
          StatusChange.timestamp := now |},
     set_preorder_status_history
       (preorder_status_history st
        ++ [historyRecord userId now id req (Preorder.status current)])
       (set_preorders
          (map (λ p, if Preorder.id p =? id
                     then updateData userId now req p else p)
               (preorders st)) st)).
Proof.
  intros Hvalid Hfind Hstep. unfold updatePreorderStatus.
  rewrite Hvalid, Hfind. simpl. rewrite Hstep. simpl.
  unfold autocommit, transaction, preorder_update. by rewrite Hfind.
Qed.

Lemma updatePreorderStatus_refused st userId now id req current :
  updatePreorderStatus_valid req = true →
  preorder_findUnique st id = Some current →
  includes (validTransitions (Preorder.status current))
           (UpdatePreorderStatusRequest.status req) = false →
  updatePreorderStatus st userId now id req
  = (InvalidStatusTransition (Preorder.status current)
       (UpdatePreorderStatusRequest.status req)
       (validTransitions (Preorder.status current)), st).
Proof.
  intros Hvalid Hfind Hstep. unfold updatePreorderStatus.
  rewrite Hvalid, Hfind. simpl. by rewrite Hstep.
Qed.

(** C6. Preorder status machine with audit history.  For a request that
    passes validation on an existing preorder in status F asking for status
    T: the update is accepted exactly when F to T is a line of the table
    (PENDING to CONFIRMED, CANCELLED or EXPIRED; CONFIRMED to READY or
    CANCELLED; READY to SHIPPED or CANCELLED; SHIPPED to DELIVERED);
    otherwise it is refused as an invalid transition and the store is
    unchanged, which is the case for every request out of DELIVERED,
    CANCELLED or EXPIRED and for PENDING to READY; an accepted update stores
    the preorder with status T and appends to the history one record with
    the preorder's id, F, T, the acting user and the time of the request. *)
Theorem updatePreorderStatus_machine st userId now id req current :
  updatePreorderStatus_valid req = true →
  preorder_findUnique st id = Some current →
  let F := Preorder.status current in
  let T := UpdatePreorderStatusRequest.status req in
  let result := updatePreorderStatus st userId now id req in
  ((∃ p change, result.1 = PreorderStatusUpdated p change)
   ↔ specPreorderTransition F T)
  ∧ (¬ specPreorderTransition F T →
     result = (InvalidStatusTransition F T (validTransitions F), st))
  ∧ (F = PreorderStatus.DELIVERED ∨ F = PreorderStatus.CANCELLED
     ∨ F = PreorderStatus.EXPIRED
     ∨ (F = PreorderStatus.PENDING ∧ T = PreorderStatus.READY) →
     result = (InvalidStatusTransition F T (validTransitions F), st))
  ∧ (specPreorderTransition F T →
     ∃ p record,
       result.1 = PreorderStatusUpdated p
                    {| StatusChange.from := F; StatusChange.to := T;
                       StatusChange.updatedBy := userId;
                       StatusChange.timestamp := now |}
       ∧ Preorder.status p = T
       ∧ preorder_findUnique result.2 id = Some p
       ∧ preorder_status_history result.2
         = preorder_status_history st ++ [record]
       ∧ PreorderStatusHistory.preorderId record = id
       ∧ PreorderStatusHistory.fromStatus record = F
       ∧ PreorderStatusHistory.toStatus record = T
       ∧ PreorderStatusHistory.changedBy record = userId
       ∧ PreorderStatusHistory.timestamp record = now).
Proof.
  intros Hvalid Hfind F T result.
  assert (Hrefuse : ¬ specPreorderTransition F T →
            result = (InvalidStatusTransition F T (validTransitions F), st)).
  { intros Hno. apply updatePreorderStatus_refused; [done | done |].
    destruct (includes (validTransitions (Preorder.status current))
                (UpdatePreorderStatusRequest.status req)) eqn:Hin; [|done].
    by apply includes_validTransitions in Hin. }
  split; [|split; [exact Hrefuse | split]].
  - split.
    + intros (p & change & Hres).
      destruct (includes (validTransitions F) T) eqn:Hin;
        [by apply includes_validTransitions|].
      unfold result in Hres.
      by rewrite (updatePreorderStatus_refused _ _ _ _ _ _ Hvalid Hfind Hin) in Hres.
    + intros Hstep. apply includes_validTransitions in Hstep.
      unfold result.
      rewrite (updatePreorderStatus_accepted _ _ _ _ _ _ Hvalid Hfind Hstep).
      by eexists _, _.
  - intros Hterminal. apply Hrefuse. intros Hstep.
    destruct Hterminal as [HF | [HF | [HF | [HF HT]]]];
      rewrite HF in Hstep; try (by inversion Hstep).
    rewrite HT in Hstep. inversion Hstep.
  - intros Hstep. apply includes_validTransitions in Hstep.
    unfold result.
    rewrite (updatePreorderStatus_accepted _ _ _ _ _ _ Hvalid Hfind Hstep).
    exists (updateData userId now req current),
           (historyRecord userId now id req F).
    simpl. repeat split; try done.
    unfold preorder_findUnique. simpl. by apply find_updated.
Qed.

(** ** The cart table under add-to-cart

    The placement theorem asks for at most one regular line per variant in
    the caller's cart.  That holds in every store in which the rows of the
    cart table are pairwise different in cart, product, variant and preorder
    flag and regular rows name their variant's product, and add-to-cart and
    order placement keep the table so. *)

Lemma option_Z_eqb_eq a b : option_Z_eqb a b = true ↔ a = b.
Proof.
  destruct a as [x|], b as [y|]; simpl; split; try done.
  - intros H. apply Z.eqb_eq in H. by subst.
  - intros [= ->]. apply Z.eqb_refl.
Qed.

Lemma sameCartLine_key c p v b it :
  sameCartLine c p v b it = true ↔ lineKey it = (c, p, v, b).
Proof.
  unfold sameCartLine, lineKey. rewrite !andb_true_iff.
  rewrite !Z.eqb_eq, option_Z_eqb_eq, Bool.eqb_true_iff.
  split; [intros [[[-> ->] ->] ->]; done | intros [= -> -> -> ->]; done].
Qed.

Lemma regularVariantIds_load st c rows :
  regularVariantIds
    (map (loadCartLine st) (List.filter (λ it, CartItem.cartId it =? c) rows))
  = omap (regularVariantOf c) rows.
Proof.
  unfold regularVariantIds, regularItems.
  induction rows as [|it rows IH]; [done|].
  cbn [List.filter omap list_omap]. unfold regularVariantOf at 1.
  destruct (CartItem.cartId it =? c); cbn [andb map List.filter]; [|exact IH].
  unfold CartLine.isPreorder at 1. cbn [loadCartLine CartLine.item].
  destruct (CartItem.isPreorder it); cbn [negb omap list_omap]; [exact IH|].
  cbn [loadCartLine CartLine.item].
  destruct (CartItem.productVariantId it); [f_equal|]; exact IH.
Qed.

Lemma NoDup_omap_key {K} (key : CartItem.t → K) (g : CartItem.t → option Z) rows :
  NoDup (map key rows) →
  (∀ x y v, x ∈ rows → y ∈ rows → g x = Some v → g y = Some v → key x = key y) →
  NoDup (omap g rows).
Proof.
  induction rows as [|x rows IH]; intros Hnd Hinj; [constructor|].
  cbn [map] in Hnd. apply NoDup_cons in Hnd as [Hx Hnd].
  assert (Hrest : NoDup (omap g rows)).
  { apply IH; [done|]. intros a b v Ha Hb. apply Hinj; by apply list_elem_of_further. }
  cbn [omap list_omap]. destruct (g x) as [v|] eqn:Hg; [|done].
  apply NoDup_cons. split; [|done].
  intros Hin. apply list_elem_of_omap in Hin as (y & Hy & Hgy).
  apply Hx. rewrite (Hinj x y v); [by apply list_elem_of_fmap_2 | | | done | done].
  - apply list_elem_of_here.
  - by apply list_elem_of_further.
Qed.

Lemma cart_wf_one_line_per_variant st userId :
  cart_wf st → one_line_per_variant st userId.
Proof.
  intros [Huniq Hmatch]. unfold one_line_per_variant, cartLines, cart_findUnique.
  destruct (cart st !! userId) as [c|]; simpl; [|constructor].
  rewrite regularVariantIds_load.
  apply (NoDup_omap_key lineKey); [exact Huniq|].
  intros x y v Hx Hy Hgx Hgy. unfold regularVariantOf in *.
  destruct (CartItem.cartId x =? Cart.id c) eqn:Hcx; [|done].
  destruct (CartItem.cartId y =? Cart.id c) eqn:Hcy; [|done].
  destruct (CartItem.isPreorder x) eqn:Hpx; [done|].
  destruct (CartItem.isPreorder y) eqn:Hpy; [done|].
  simpl in *. apply Z.eqb_eq in Hcx, Hcy.
  destruct (Hmatch x v Hx Hpx Hgx) as (vx & Hvx & Hprodx).
  destruct (Hmatch y v Hy Hpy Hgy) as (vy & Hvy & Hprody).
  unfold lineKey. rewrite Hcx, Hcy, Hgx, Hgy, Hpx, Hpy, <- Hprodx, <- Hprody.
  congruence.
Qed.

Lemma lineKey_with_quantity n it : lineKey (with_quantity n it) = lineKey it.
Proof. done. Qed.

Lemma updateFirst_keys p n rows :
  map lineKey (updateFirst p (with_quantity n) rows) = map lineKey rows.
Proof.
  induction rows as [|it rows IH]; [done|]. simpl.
  destruct (p it); simpl; [done | by rewrite IH].
Qed.

Lemma updateFirst_elem p n rows it :
  it ∈ updateFirst p (with_quantity n) rows →
  ∃ it0, it0 ∈ rows ∧ lineKey it = lineKey it0.
Proof.
  induction rows as [|x rows IH]; simpl; [by intros ?%elem_of_nil|].
  destruct (p x).
  - intros [->|Hin]%elem_of_cons.
    + exists x. split; [apply list_elem_of_here | done].
    + exists it. split; [by apply list_elem_of_further | done].
  - intros [->|Hin]%elem_of_cons.
    + exists x. split; [apply list_elem_of_here | done].
    + destruct (IH Hin) as (it0 & Hin0 & Hkey).
      exists it0. split; [by apply list_elem_of_further | done].
Qed.

Lemma cart_getOrCreate_keeps st userId :
  cart_items (cart_getOrCreate st userId).2 = cart_items st
  ∧ product_variants (cart_getOrCreate st userId).2 = product_variants st.
Proof. unfold cart_getOrCreate. by destruct (cart st !! userId). Qed.

(** A store with the same cart rows and variants is as well-formed. *)
Lemma cart_wf_same st st' :
  cart_items st' = cart_items st →
  product_variants st' = product_variants st →
  cart_wf st → cart_wf st'.
Proof.
  unfold cart_wf, cart_lines_unique, regular_lines_match_variant.
  intros -> ->. done.
Qed.

(** Updating the quantity of the row found keeps the table well-formed. *)
Lemma cart_wf_updated st p n :
  cart_wf st →
  cart_wf (set_cart_items (updateFirst p (with_quantity n) (cart_items st)) st).
Proof.
  intros [Huniq Hmatch]. split.
  - unfold cart_lines_unique. simpl. by rewrite updateFirst_keys.
  - intros it v Hin Hpre Hv. simpl in Hin.
    apply updateFirst_elem in Hin as (it0 & Hin0 & Hkey).
    unfold lineKey in Hkey. injection Hkey as Hc Hp Hvar Hb.
    destruct (Hmatch it0 v Hin0) as (x & Hx & Hprod); [congruence.. |].
    exists x. split; [done | congruence].
Qed.

(** Appending a row that the search did not find, and that names its
    variant's product, keeps the table well-formed. *)
Lemma cart_wf_added st c pid vid pre quantity price :
  cart_wf st →
  find (sameCartLine c pid vid pre) (cart_items st) = None →
  (pre = false → ∀ v, vid = Some v →
     ∃ w, product_variants st !! v = Some w ∧ ProductVariant.productId w = pid) →
  cart_wf (set_cart_items
             (cart_items st
              ++ [{| CartItem.cartId := c; CartItem.productId := pid;
                     CartItem.productVariantId := vid;
                     CartItem.quantity := quantity; CartItem.price := price;
                     CartItem.isPreorder := pre |}]) st).
Proof.
  intros [Huniq Hmatch] Hfind Hnew. split.
  - unfold cart_lines_unique. simpl. rewrite map_app. simpl.
    apply NoDup_app. split; [done|]. split; [|apply NoDup_singleton].
    intros key Hkey Hlast. apply list_elem_of_singleton in Hlast.
    apply list_elem_of_fmap in Hkey as (it & Hit & Hin).
    assert (Hsame : sameCartLine c pid vid pre it = false).
    { apply list_elem_of_In in Hin.
      eapply find_none in Hfind; [|exact Hin]. exact Hfind. }
    assert (sameCartLine c pid vid pre it = true); [|congruence].
    apply sameCartLine_key. by rewrite <- Hit, Hlast.
  - intros it v Hin Hpre Hv. simpl in Hin.
    apply elem_of_app in Hin as [Hin | Hin%list_elem_of_singleton].
    + by apply Hmatch.
    + subst it. simpl in Hv, Hpre. by apply Hnew.
Qed.

Lemma putInCart_keeps_cart_wf st userId pid vid pre variant quantity price :
  cart_wf st →
  (∀ v, vid = Some v →
     ∃ w, product_variants st !! v = Some w ∧ ProductVariant.productId w = pid) →
  cart_wf (putInCart st userId pid vid pre variant quantity price).2.
Proof.
  intros Hwf Hnew. unfold putInCart.
  destruct (cart_getOrCreate_keeps st userId) as [Hitems Hvars].
  destruct (cart_getOrCreate st userId) as [c st1]. simpl in Hitems, Hvars.
  assert (Hwf1 : cart_wf st1) by (by apply (cart_wf_same st)).
  destruct (find _ (cart_items st1)) as [existing|] eqn:Hfind.
  - destruct (lacksStock pre variant _) as [[]|]; [done | | done].
    by apply cart_wf_updated.
  - apply cart_wf_added; [done | done |].
    intros _ v Hv. rewrite Hvars. by apply Hnew.
Qed.

(** Add-to-cart keeps the cart table well-formed, whatever it answers. *)
Lemma addToCart_keeps_cart_wf st userId req :
  cart_wf st → cart_wf (addToCart st userId req).2.
Proof.
  intros Hwf. unfold addToCart.
  destruct (1 <=? AddToCartRequest.quantity req); simpl; [|done].
  destruct (product_findFirst_active st _) as [product|]; [|done].
  set (vid := truthy_id (AddToCartRequest.productVariantId req)).
  set (pid := AddToCartRequest.productId req).
  set (found := match vid with
                | Some v => Some (productVariant_findFirst st v pid)
                | None => None
                end).
  assert (Hnew : found ≠ Some None → ∀ v, vid = Some v →
            ∃ w, product_variants st !! v = Some w
                 ∧ ProductVariant.productId w = pid).
  { intros Hfound v Hv. unfold found in Hfound. rewrite Hv in Hfound.
    unfold productVariant_findFirst in Hfound.
    destruct (product_variants st !! v) as [w|]; simpl in Hfound; [|done].
    destruct (Z.eqb_spec (ProductVariant.productId w) pid); simpl in Hfound;
      [|done].
    by exists w. }
  destruct found as [[variant|]|] eqn:Hfound; [| done |].
  - destruct (lacksStock _ _ _) as [[]|]; [done | | done].
    destruct (_ && negb (Product.allowPreorder product)); [done|].
    by apply putInCart_keeps_cart_wf; [|apply Hnew].
  - destruct (lacksStock _ _ _) as [[]|]; [done | | done].
    destruct (_ && negb (Product.allowPreorder product)); [done|].
    by apply putInCart_keeps_cart_wf; [|apply Hnew].
Qed.

(** Order placement keeps it too: it only deletes rows. *)
Lemma createOrder_keeps_cart_wf st userId req orderNumber :
  cart_wf st → cart_wf (createOrder st userId req orderNumber).2.
Proof.
  intros Hwf.
  destruct (createOrder st userId req orderNumber) as [resp st'] eqn:Hres.
  destruct resp as [order| | | |];
    try (rewrite <- (createOrder_rejected_keeps st userId req orderNumber) in Hwf;
         [by rewrite Hres in Hwf | by rewrite Hres]).
  destruct (createOrder_created_inv _ _ _ _ _ _ Hres)
    as (c & items & Hvalid & Hcart & Hne & Hok & Hins).
  destruct (createOrder_commits st userId req orderNumber c items
              Hvalid Hcart Hne Hok Hins) as (m & Heq & _).
  rewrite Hres in Heq. inversion Heq as [[Horder Hst]]. simpl.
  destruct Hwf as [Huniq Hmatch]. split.
  - unfold cart_lines_unique. simpl.
    eapply sublist_NoDup; [exact Huniq|].
    apply (fmap_sublist lineKey). clear.
    induction (cart_items st) as [|it rows IH]; simpl; [constructor|].
    destruct (negb _); by constructor.
  - intros it v Hin Hpre Hv. simpl in Hin.
    apply list_elem_of_In, filter_In in Hin as [Hin _].
    apply list_elem_of_In in Hin. by apply Hmatch.
Qed.

(** So the cart of every user has one regular line per variant in any store
    reached from a well-formed one by adding to carts and placing orders. *)
Lemma cart_wf_after_addToCart st userId req other :
  cart_wf st → one_line_per_variant (addToCart st userId req).2 other.
Proof.
  intros Hwf. by apply cart_wf_one_line_per_variant, addToCart_keeps_cart_wf.
Qed.

(** ** The scenarios of the specification, run *)

(** 2 units at 21.99 with 5 in stock: total 43.98, a REGULAR order, 3 left
    in stock and an empty cart. *)
Example scenario_order_placement :
  let result := createOrder shop 1 checkout "ORD-1767225600000-K3X9A" in
  ∃ order,
    result.1 = OrderCreated order
    ∧ Order.totalAmount order = 4398
    ∧ Order.orderType order = OrderType.REGULAR
    ∧ Order.status order = OrderStatus.PENDING
    ∧ Inventory.quantity <$> inventory result.2 !! 70 = Some 3
    ∧ cartLines result.2 1 = [].
Proof. vm_compute. eexists. repeat split; reflexivity. Qed.

(** Preorder price 139.99, quantity 2, deposit 10.00: total 279.98, deposit
    paid 10.00, remaining 269.98, status CONFIRMED. *)
Example scenario_preorder_placement :
  ∃ p e st',
    createPreorder shop 1 1767225600000 (preorderOf 2 (Some 1000))
    = (PreorderCreated p 27998 1000 26998 e, st')
    ∧ Preorder.price p = 13999
    ∧ Preorder.depositPaid p = 1000
    ∧ Preorder.remainingAmount p = 26998
    ∧ Preorder.status p = PreorderStatus.CONFIRMED.
Proof. vm_compute. eexists _, _, _. repeat split; reflexivity. Qed.

(** Limit 100 with 90 taken: 11 more are refused with 10 remaining, 10 more
    are accepted, and after that 1 more is refused. *)
Example scenario_preorder_limit :
  createPreorder busyShop 1 1767225600000 (preorderOf 11 None)
  = (PreorderLimitExceeded 10 11, busyShop)
  ∧ ∃ p t d r e st',
      createPreorder busyShop 1 1767225600000 (preorderOf 10 None)
      = (PreorderCreated p t d r e, st')
      ∧ createPreorder st' 3 1767225600001 (preorderOf 1 None)
        = (PreorderLimitExceeded 0 1, st').
Proof.
  split; [vm_compute; reflexivity|].
  eexists _, _, _, _, _, _. split; [reflexivity|].
  vm_compute. reflexivity.
Qed.

(** A preorder cannot go from PENDING straight to READY. *)
Example scenario_pending_to_ready :
  (updatePreorderStatus
    (set_preorders [{| Preorder.id := 1; Preorder.userId := 2;
                       Preorder.productId := 8;
                       Preorder.productVariantId := None;
                       Preorder.quantity := 1; Preorder.price := 13999;
                       Preorder.status := PreorderStatus.PENDING;
                       Preorder.shippingAddressId := None;
                       Preorder.expectedDate := None;
                       Preorder.depositPaid := 0;
                       Preorder.remainingAmount := 13999;
                       Preorder.updatedBy := None;
                       Preorder.trackingNumber := None;
                       Preorder.adminNotes := None;
                       Preorder.shippedAt := None;
                       Preorder.deliveredAt := None;
                       Preorder.cancelledAt := None |}] shop)
    9 1767225600000 1 (statusRequest PreorderStatus.READY)).1
  = InvalidStatusTransition PreorderStatus.PENDING PreorderStatus.READY
         [PreorderStatus.CONFIRMED; PreorderStatus.CANCELLED;
          PreorderStatus.EXPIRED].
Proof. vm_compute. reflexivity. Qed.

(** Cancelling an order twice: the second request is refused. *)
Example scenario_cancel_twice :
  let placed := (createOrder shop 1 checkout "ORD-1767225600000-K3X9A").2 in
  let id := fresh (dom (orders shop)) in
  (cancelOrder placed 1 id).1 = OrderCancelled
  ∧ cancelOrder (cancelOrder placed 1 id).2 1 id
    = (OrderCannotBeCancelled, (cancelOrder placed 1 id).2).
Proof. vm_compute. split; reflexivity. Qed.

(** An order for an address that is not on file: the database rejects the
    order row, the handler answers with its failure answer, and the stock
    stays at 5 and the cart as it was. *)
Example scenario_missing_address :
  createOrder shop 1
    {| CreateOrderRequest.shippingAddressId := 999;
       CreateOrderRequest.billingAddressId := None;
       CreateOrderRequest.paymentMethod := "stripe" |}
    "ORD-1767225600000-K3X9A"
  = (CreateOrderFailed, shop).
Proof. vm_compute. reflexivity. Qed.

(** An order number that an order on file already has is rejected as
    well. *)
Example scenario_order_number_taken :
  createOrder (shopWith confirmedOrder) 1 checkout "ORD-1-AAAAA"
  = (CreateOrderFailed, shopWith confirmedOrder).
Proof. vm_compute. reflexivity. Qed.

(** Adding 2 shirts and then 1 more gives one line of 3. *)
Example scenario_add_twice :
  let add n :=
    {| AddToCartRequest.productId := 7;
       AddToCartRequest.productVariantId := Some 70;
       AddToCartRequest.quantity := n;
       AddToCartRequest.isPreorder := None |} in
  let empty := set_cart_items [] shop in
  (addToCart empty 1 (add 2)).1 = ItemAdded twoShirts
  ∧ (addToCart empty 1 (add 2)).2 = shop
  ∧ (addToCart shop 1 (add 1)).1 = CartUpdated (with_quantity 3 twoShirts)
  ∧ cart_items (addToCart shop 1 (add 1)).2 = [with_quantity 3 twoShirts].
Proof. vm_compute. repeat split; reflexivity. Qed.

(** ** The theorems at the shop *)


Lemma shop_inventory_nonneg : inventory_nonneg shop.
Proof.
  intros vid row Hrow. unfold shop in Hrow. cbn [inventory] in Hrow.
  apply lookup_singleton_Some in Hrow as [_ <-]. simpl. lia.
Qed.

Lemma shop_cart_wf : cart_wf shop.
Proof.
  split.
  - apply NoDup_singleton.
  - intros it vid Hit _ Hvid. apply list_elem_of_singleton in Hit. subst it.
    injection Hvid as <-. by exists shirtM.
Qed.







Lemma createPreorder_limit_witness :
  createPreorder busyShop 1 1767225600000 (preorderOf 11 None)
  = (PreorderLimitExceeded (100 - 90) 11, busyShop)
  ∧ ∀ available requested,
      (createPreorder busyShop 1 1767225600000 (preorderOf 10 None)).1
      ≠ PreorderLimitExceeded available requested.
Proof.
  split.
  - destruct (createPreorder_limit busyShop 1 1767225600000 (preorderOf 11 None)
                sneaker 100) as (_ & Hover & _).
    + reflexivity.
    + reflexivity.
    + discriminate.
    + apply Hover; [vm_compute; reflexivity|].
      repeat split; reflexivity.
  - destruct (createPreorder_limit busyShop 1 1767225600000 (preorderOf 10 None)
                sneaker 100) as (_ & _ & Hfits & _).
    + reflexivity.
    + reflexivity.
    + discriminate.
    + apply Hfits. vm_compute. discriminate.
Defined.

Lemma updatePreorderStatus_machine_witness :
  ∃ p record,
    (updatePreorderStatus busyShop 9 1767225600000 1
       (statusRequest PreorderStatus.READY)).1
    = PreorderStatusUpdated p
        {| StatusChange.from := PreorderStatus.CONFIRMED;
           StatusChange.to := PreorderStatus.READY;
           StatusChange.updatedBy := 9;
           StatusChange.timestamp := 1767225600000 |}
    ∧ Preorder.status p = PreorderStatus.READY
    ∧ preorder_status_history
        (updatePreorderStatus busyShop 9 1767225600000 1
           (statusRequest PreorderStatus.READY)).2
      = [record]
    ∧ PreorderStatusHistory.fromStatus record = PreorderStatus.CONFIRMED
    ∧ PreorderStatusHistory.toStatus record = PreorderStatus.READY
    ∧ PreorderStatusHistory.changedBy record = 9.
Proof.
  destruct (updatePreorderStatus_machine busyShop 9 1767225600000 1
              (statusRequest PreorderStatus.READY) ninety)
    as (_ & _ & _ & Haccepted).
  - reflexivity.
  - reflexivity.
  - destruct Haccepted as (p & record & Hres & Hstatus & _ & Hhistory & _
                           & Hfrom & Hto & Hby & _); [constructor|].
    exists p, record. done.
Defined.






Lemma place_then_cancel_restores_witness :
  ∃ order st1 st2,
    createOrder shop 1 checkout "ORD-1767225600000-K3X9A"
    = (OrderCreated order, st1)
    ∧ Inventory.quantity <$> inventory st1 !! 70 = Some 3
    ∧ cancelOrder st1 1 (Order.id order) = (OrderCancelled, st2)
    ∧ inventory st2 = inventory shop.
Proof.
  eexists _, _. 
  destruct (place_then_cancel_restores shop 1 checkout "ORD-1767225600000-K3X9A"
              _ _ eq_refl) as (st2 & Hcancel & Hsame & _).
  exists st2. split; [reflexivity|]. split; [reflexivity|].
  split; [exact Hcancel | exact Hsame].
Defined.

(** ** Customer cancellation of a preorder *)

Lemma preorder_findFirst_owned_Some st id userId p :
  preorder_findFirst_owned st id userId = Some p →
  p ∈ preorders st ∧ Preorder.id p = id ∧ Preorder.userId p = userId.
Proof.
  unfold preorder_findFirst_owned. intros Hfind.
  apply find_some in Hfind as [Hin Hp].
  apply andb_true_iff in Hp as [Hid Hu].
  rewrite list_elem_of_In. split; [done | lia].
Qed.

Lemma preorder_findFirst_owned_None st id userId :
  preorder_findFirst_owned st id userId = None ↔
  ∀ p, p ∈ preorders st → Preorder.id p = id → Preorder.userId p ≠ userId.
Proof.
  unfold preorder_findFirst_owned. split.
  - intros Hnone p Hin Hid Hu. rewrite list_elem_of_In in Hin.
    apply (find_none _ _ Hnone) in Hin.
    apply andb_false_iff in Hin as [H|H]; lia.
  - intros Hall.
    destruct (find _ (preorders st)) as [p|] eqn:Hfind; [|done].
    apply find_some in Hfind as [Hin Hp].
    apply andb_true_iff in Hp as [Hid Hu].
    rewrite <- list_elem_of_In in Hin.
    exfalso. apply (Hall p Hin); lia.
Qed.

Lemma preorder_findUnique_elem st p :
  p ∈ preorders st → is_Some (preorder_findUnique st (Preorder.id p)).
Proof.
  unfold preorder_findUnique. intros Hin.
  destruct (find _ (preorders st)) as [q|] eqn:Hfind; [by eexists|].
  rewrite list_elem_of_In in Hin. apply (find_none _ _ Hfind) in Hin. lia.
Qed.

Lemma preorder_findUnique_Some st id p :
  preorder_findUnique st id = Some p → p ∈ preorders st ∧ Preorder.id p = id.
Proof.
  unfold preorder_findUnique. intros Hfind.
  apply find_some in Hfind as [Hin Hp]. rewrite list_elem_of_In.
  split; [done | lia].
Qed.

Lemma NoDup_ids_eq (rows : list Preorder.t) p q :
  NoDup (map Preorder.id rows) → p ∈ rows → q ∈ rows →
  Preorder.id p = Preorder.id q → p = q.
Proof.
  induction rows as [|r rows IH]; simpl; intros Hnd Hp Hq Hid.
  - by apply elem_of_nil in Hp.
  - apply NoDup_cons in Hnd as [Hr Hnd].
    apply elem_of_cons in Hp as [->|Hp]; apply elem_of_cons in Hq as [->|Hq].
    + done.
    + exfalso. apply Hr. rewrite Hid. apply list_elem_of_fmap. eauto.
    + exfalso. apply Hr. rewrite <- Hid. apply list_elem_of_fmap. eauto.
    + by apply IH.
Qed.

Lemma preorder_findUnique_unique st p :
  preorder_ids_unique st → p ∈ preorders st →
  preorder_findUnique st (Preorder.id p) = Some p.
Proof.
  intros Hnd Hin.
  destruct (preorder_findUnique_elem st p Hin) as [q Hq]. rewrite Hq.
  apply preorder_findUnique_Some in Hq as [Hq Hid].
  f_equal. by apply (NoDup_ids_eq (preorders st)).
Qed.

(** A cancellation past the two checks commits when the product row is
    there and is rolled back when it is not. *)
Lemma cancelPreorder_commits st userId now id p first product :
  preorder_findFirst_owned st id userId = Some p →
  activePreorder (Preorder.status p) = true →
  preorder_findUnique st id = Some first →
  products st !! Preorder.productId p = Some product →
  cancelPreorder st userId now id
  = (PreorderCancelled (cancelData now first) (refundInfoOf p),
     cancelledPreorderStore st now id p product).
Proof.
  intros Hfind Hactive Hfirst Hproduct. unfold cancelPreorder.
  rewrite Hfind, Hactive. simpl.
  unfold transaction, tx_bind, preorder_update, product_update.
  rewrite Hfirst. simpl. by rewrite Hproduct.
Qed.

Lemma cancelPreorder_rolls_back st userId now id p :
  preorder_findFirst_owned st id userId = Some p →
  activePreorder (Preorder.status p) = true →
  products st !! Preorder.productId p = None →
  cancelPreorder st userId now id = (CancelPreorderFailed, st).
Proof.
  intros Hfind Hactive Hproduct. unfold cancelPreorder.
  rewrite Hfind, Hactive. simpl.
  unfold transaction, tx_bind, preorder_update, product_update.
  destruct (preorder_findUnique st id); simpl; [|done].
  by rewrite Hproduct.
Qed.

Lemma cancelPreorder_refused st userId now id p :
  preorder_findFirst_owned st id userId = Some p →
  activePreorder (Preorder.status p) = false →
  cancelPreorder st userId now id
  = (PreorderCannotBeCancelled (Preorder.status p)
       [PreorderStatus.PENDING; PreorderStatus.CONFIRMED], st).
Proof.
  intros Hfind Hactive. unfold cancelPreorder. by rewrite Hfind, Hactive.
Qed.

Lemma activePreorder_iff s :
  activePreorder s = true
  ↔ s = PreorderStatus.PENDING ∨ s = PreorderStatus.CONFIRMED.
Proof.
  destruct s; simpl; split; intros H; try done;
    try (by left); try (by right); by destruct H.
Qed.

Lemma cancelPreorder_cancelled_inv st userId now id row info st' :
  cancelPreorder st userId now id = (PreorderCancelled row info, st') →
  ∃ p first product,
    preorder_findFirst_owned st id userId = Some p
    ∧ activePreorder (Preorder.status p) = true
    ∧ preorder_findUnique st id = Some first
    ∧ products st !! Preorder.productId p = Some product
    ∧ row = cancelData now first
    ∧ info = refundInfoOf p
    ∧ st' = cancelledPreorderStore st now id p product.
Proof.
  destruct (preorder_findFirst_owned st id userId) as [p|] eqn:Hfind.
  - destruct (preorder_findFirst_owned_Some _ _ _ _ Hfind) as (Hin & Hid & Hu).
    destruct (preorder_findUnique_elem st p Hin) as [first Hfirst].
    rewrite Hid in Hfirst.
    destruct (activePreorder (Preorder.status p)) eqn:Hactive.
    + destruct (products st !! Preorder.productId p) as [product|] eqn:Hproduct.
      * rewrite (cancelPreorder_commits _ _ _ _ _ _ _ Hfind Hactive Hfirst Hproduct).
        intros [= <- <- <-]. by exists p, first, product.
      * by rewrite (cancelPreorder_rolls_back _ _ _ _ _ Hfind Hactive Hproduct).
    + by rewrite (cancelPreorder_refused _ _ _ _ _ Hfind Hactive).
  - unfold cancelPreorder. by rewrite Hfind.
Qed.

(** X1. Guard of the customer's cancellation.  A preorder is cancelled
    exactly when the caller owns a preorder with the given id, it is PENDING
    or CONFIRMED, and its product row exists.  An id that no preorder of the
    caller carries, another user's preorder included, is answered with not
    found; a preorder in any other status is refused with that status
    reported; and every answer other than the cancellation leaves the whole
    store as it was, the update of the preorder being rolled back when the
    decrement of the product's counter fails. *)
Theorem cancelPreorder_guard st userId now id :
  let result := cancelPreorder st userId now id in
  ((∃ row info, result.1 = PreorderCancelled row info)
   ↔ ∃ p, preorder_findFirst_owned st id userId = Some p
          ∧ (Preorder.status p = PreorderStatus.PENDING
             ∨ Preorder.status p = PreorderStatus.CONFIRMED)
          ∧ is_Some (products st !! Preorder.productId p))
  ∧ ((∀ p, p ∈ preorders st → Preorder.id p = id → Preorder.userId p ≠ userId) →
     result = (CancelledPreorderNotFound, st))
  ∧ (∀ p, preorder_findFirst_owned st id userId = Some p →
          Preorder.status p ≠ PreorderStatus.PENDING →
          Preorder.status p ≠ PreorderStatus.CONFIRMED →
          result = (PreorderCannotBeCancelled (Preorder.status p)
                      [PreorderStatus.PENDING; PreorderStatus.CONFIRMED], st))
  ∧ ((∀ row info, result.1 ≠ PreorderCancelled row info) → result.2 = st).
Proof.
  intros result. unfold result.
  destruct (preorder_findFirst_owned st id userId) as [p|] eqn:Hfind.
  - destruct (preorder_findFirst_owned_Some _ _ _ _ Hfind) as (Hin & Hid & Hu).
    destruct (preorder_findUnique_elem st p Hin) as [first Hfirst].
    rewrite Hid in Hfirst.
    destruct (activePreorder (Preorder.status p)) eqn:Hactive.
    + destruct (products st !! Preorder.productId p) as [product|] eqn:Hproduct.
      * rewrite (cancelPreorder_commits _ _ _ _ _ _ _ Hfind Hactive Hfirst Hproduct).
        simpl. split; [|split; [|split]].
        -- split; [intros _ | by eauto].
           exists p. rewrite <- activePreorder_iff, Hproduct. eauto.
        -- intros Hall. by destruct (Hall p Hin Hid).
        -- intros q [= <-] H1 H2.
           apply activePreorder_iff in Hactive as [?|?]; done.
        -- intros Hnot. by destruct (Hnot (cancelData now first) (refundInfoOf p)).
      * rewrite (cancelPreorder_rolls_back _ _ _ _ _ Hfind Hactive Hproduct).
        simpl. split; [|split; [|split]]; try done.
        -- split; [by intros (? & ? & ?)|].
           intros (q & [= <-] & _ & [x Hx]). congruence.
        -- intros Hall. by destruct (Hall p Hin Hid).
        -- intros q [= <-] H1 H2.
           apply activePreorder_iff in Hactive as [?|?]; done.
    + rewrite (cancelPreorder_refused _ _ _ _ _ Hfind Hactive).
      simpl. split; [|split; [|split]]; try done.
      * split; [by intros (? & ? & ?)|].
        intros (q & [= <-] & Hs & _).
        apply activePreorder_iff in Hs. congruence.
      * intros Hall. by destruct (Hall p Hin Hid).
      * by intros q [= <-] _ _.
  - unfold cancelPreorder. rewrite Hfind. simpl.
    split; [|split; [|split]]; try done.
    split; [by intros (? & ? & ?) | by intros (? & ? & _)].
Qed.

Lemma activeQuantity_sum st productId :
  activeQuantity st productId = sumOf (activeUnits productId) (preorders st).
Proof.
  unfold activeQuantity, activeUnits.
  induction (preorders st) as [|p rows IH]; simpl; [done|].
  destruct ((Preorder.productId p =? productId)
            && activePreorder (Preorder.status p)); simpl; lia.
Qed.

Lemma map_update_not_in id (f : Preorder.t → Preorder.t) rows :
  id ∉ map Preorder.id rows →
  map (λ q, if Preorder.id q =? id then f q else q) rows = rows.
Proof.
  induction rows as [|r rows IH]; simpl; [done|].
  intros Hout. apply not_elem_of_cons in Hout as [Hne Hout].
  destruct (Z.eqb_spec (Preorder.id r) id); [congruence|].
  by rewrite IH.
Qed.

(** Under unique ids an update by id changes the one row. *)
Lemma sumOf_update (g : Preorder.t → Z) (f : Preorder.t → Preorder.t) rows p :
  NoDup (map Preorder.id rows) → p ∈ rows →
  sumOf g (map (λ q, if Preorder.id q =? Preorder.id p then f q else q) rows)
  = sumOf g rows - g p + g (f p).
Proof.
  induction rows as [|r rows IH]; simpl; intros Hnd Hin.
  - by apply elem_of_nil in Hin.
  - apply NoDup_cons in Hnd as [Hr Hnd].
    destruct (Z.eqb_spec (Preorder.id r) (Preorder.id p)) as [Heq|Hne].
    + assert (r = p) as ->.
      { apply elem_of_cons in Hin as [->|Hin]; [done|].
        exfalso. apply Hr. rewrite Heq. apply list_elem_of_fmap. eauto. }
      rewrite map_update_not_in by done. simpl. lia.
    + apply elem_of_cons in Hin as [->|Hin]; [done|].
      simpl. rewrite IH by done. lia.
Qed.

Lemma map_update_ids id (f : Preorder.t → Preorder.t) rows :
  (∀ p, Preorder.id (f p) = Preorder.id p) →
  map Preorder.id (map (λ q, if Preorder.id q =? id then f q else q) rows)
  = map Preorder.id rows.
Proof.
  intros Hid. induction rows as [|r rows IH]; simpl; [done|].
  rewrite IH. by destruct (Preorder.id r =? id); rewrite ?Hid.
Qed.

Lemma map_update_unique id (f : Preorder.t → Preorder.t) rows p :
  NoDup (map Preorder.id rows) → p ∈ rows → Preorder.id p = id →
  map (λ q, if Preorder.id q =? id then f q else q) rows
  = map (λ q, if Preorder.id q =? id then f p else q) rows.
Proof.
  intros Hnd Hin Hid. apply map_ext_in. intros q Hq.
  destruct (Z.eqb_spec (Preorder.id q) id) as [Heq|]; [|done].
  rewrite <- list_elem_of_In in Hq.
  f_equal. apply (NoDup_ids_eq rows); [done | done | done | congruence].
Qed.


(** X2. Effect and frame of the customer's cancellation.  The ids of the
    preorders being unique (the primary key), a cancellation answered with
    success has replaced the caller's preorder of that id by the returned
    row, which has status CANCELLED and the time of the request as
    [cancelledAt] and is otherwise as placed; it has lowered the product's
    counter [totalPreorders] by the preorder's quantity and released those
    units from the PENDING and CONFIRMED quantity its limit is measured
    against; it has written no status-history record and has left the
    inventory, variants, addresses, carts and orders untouched; and the
    refund note it answers with is present exactly when a deposit was paid,
    and then carries the deposit as amount. *)
Theorem cancelPreorder_effect st userId now id row info st' :
  preorder_ids_unique st →
  cancelPreorder st userId now id = (PreorderCancelled row info, st') →
  ∃ p product,
    p ∈ preorders st ∧ Preorder.id p = id ∧ Preorder.userId p = userId
    ∧ samePlacement p row
    ∧ Preorder.status row = PreorderStatus.CANCELLED
    ∧ Preorder.cancelledAt row = Some now
    ∧ preorders st'
      = map (λ q, if Preorder.id q =? id then row else q) (preorders st)
    ∧ products st !! Preorder.productId p = Some product
    ∧ products st'
      = <[Preorder.productId p :=
            decrementTotalPreorders (Preorder.quantity p) product]> (products st)
    ∧ Product.totalPreorders (decrementTotalPreorders (Preorder.quantity p) product)
      = Product.totalPreorders product - Preorder.quantity p
    ∧ activeQuantity st' (Preorder.productId p)
      = activeQuantity st (Preorder.productId p) - Preorder.quantity p
    ∧ preorder_status_history st' = preorder_status_history st
    ∧ inventory st' = inventory st
    ∧ product_variants st' = product_variants st
    ∧ addresses st' = addresses st
    ∧ cart st' = cart st
    ∧ cart_items st' = cart_items st
    ∧ orders st' = orders st
    ∧ (0 < Preorder.depositPaid p →
       ∃ refund, info = Some refund
                 ∧ RefundInfo.amount refund = Preorder.depositPaid p
                 ∧ RefundInfo.status refund = "PENDING_REFUND")
    ∧ (Preorder.depositPaid p ≤ 0 → info = None).
Proof.
  intros Hnd Hres.
  apply cancelPreorder_cancelled_inv in Hres
    as (p & first & product & Hfind & Hactive & Hfirst & Hproduct
        & -> & -> & ->).
  destruct (preorder_findFirst_owned_Some _ _ _ _ Hfind) as (Hin & Hid & Hu).
  assert (first = p) as ->.
  { rewrite <- Hid in Hfirst.
    rewrite (preorder_findUnique_unique st p Hnd Hin) in Hfirst. congruence. }
  exists p, product.
  split; [done|]. split; [done|]. split; [done|].
  split; [by repeat split|]. split; [done|]. split; [done|].
  split.
  { cbn [cancelledPreorderStore preorders set_products set_preorders].
    by apply map_update_unique. }
  split; [done|]. split; [done|]. split; [done|].
  split.
  { rewrite !activeQuantity_sum.
    cbn [cancelledPreorderStore preorders set_products set_preorders].
    rewrite <- Hid. rewrite sumOf_update by done.
    unfold activeUnits. cbn [cancelData Preorder.productId Preorder.status
      Preorder.quantity]. rewrite Hactive, Z.eqb_refl. simpl. lia. }
  do 7 (split; [done|]).
  unfold refundInfoOf. split.
  - intros Hpaid.
    destruct (Z.ltb_spec 0 (Preorder.depositPaid p)); [|lia].
    by eexists.
  - intros Hnone.
    by destruct (Z.ltb_spec 0 (Preorder.depositPaid p)); [lia|].
Qed.

Lemma busyShop_ids_unique : preorder_ids_unique busyShop.
Proof. unfold preorder_ids_unique. simpl. apply NoDup_singleton. Qed.

Lemma cancelPreorder_effect_witness :
  ∃ row info st',
    cancelPreorder busyShop 2 1767225600000 1 = (PreorderCancelled row info, st')
    ∧ Preorder.status row = PreorderStatus.CANCELLED
    ∧ activeQuantity st' 8 = 0
    ∧ inventory st' = inventory busyShop
    ∧ ∃ refund, info = Some refund ∧ RefundInfo.amount refund = 1000.
Proof.
  eexists _, _, _. split; [reflexivity|].
  destruct (cancelPreorder_effect busyShop 2 1767225600000 1 _ _ _
              busyShop_ids_unique eq_refl)
    as (p & product & Hin & _ & _ & _ & Hstatus & _ & _ & _ & _ & _ & Hactive
        & _ & Hinv & _ & _ & _ & _ & _ & Hrefund & _).
  apply list_elem_of_singleton in Hin. subst p.
  split; [exact Hstatus|]. split; [exact Hactive|]. split; [exact Hinv|].
  destruct Hrefund as (refund & Hinfo & Hamount & _); [done|].
  by exists refund.
Defined.





Lemma find_update (f : Preorder.t → bool) id (data : Preorder.t → Preorder.t)
    rows p :
  (∀ q, f (data q) = f q) →
  (∀ q, f q = true → Preorder.id q = id) →
  find f rows = Some p →
  find f (map (λ q, if Preorder.id q =? id then data q else q) rows)
  = Some (data p).
Proof.
  intros Hdata Hid. induction rows as [|r rows IH]; simpl; [done|].
  destruct (f r) eqn:Hr.
  - intros [= ->]. rewrite (Hid p Hr), Z.eqb_refl. by rewrite Hdata, Hr.
  - intros Hfind.
    destruct (Preorder.id r =? id); rewrite ?Hdata, Hr; by apply IH.
Qed.

(** X4. A cancelled preorder stays cancelled.  After a customer's
    cancellation has succeeded, a second cancellation of the same preorder
    is refused with the status CANCELLED reported, so the product's counter
    is lowered once only; and every valid admin status update of it is
    refused as an invalid transition out of CANCELLED, which has no
    successor.  Both leave the store as the cancellation left it. *)
Theorem cancelPreorder_final st userId now id row info st1 :
  cancelPreorder st userId now id = (PreorderCancelled row info, st1) →
  (∀ later,
     cancelPreorder st1 userId later id
     = (PreorderCannotBeCancelled PreorderStatus.CANCELLED
          [PreorderStatus.PENDING; PreorderStatus.CONFIRMED], st1))
  ∧ (∀ admin later req,
       updatePreorderStatus_valid req = true →
       updatePreorderStatus st1 admin later id req
       = (InvalidStatusTransition PreorderStatus.CANCELLED
            (UpdatePreorderStatusRequest.status req) [], st1)).
Proof.
  intros Hres.
  apply cancelPreorder_cancelled_inv in Hres
    as (p & first & product & Hfind & _ & Hfirst & _ & _ & _ & ->).
  split.
  - intros later.
    apply (cancelPreorder_refused _ _ _ _ (cancelData now p)); [|done].
    unfold preorder_findFirst_owned in *.
    cbn [cancelledPreorderStore preorders set_products set_preorders].
    apply find_update; [done | | done].
    intros q Hq. apply andb_true_iff in Hq as [Hq _]. lia.
  - intros admin later req Hvalid.
    apply (updatePreorderStatus_refused _ _ _ _ _ (cancelData now first));
      [done | | done].
    unfold preorder_findUnique in *.
    cbn [cancelledPreorderStore preorders set_products set_preorders].
    apply find_update; [done | | done].
    intros q Hq. lia.
Qed.

Lemma cancelPreorder_final_witness :
  let st1 := (cancelPreorder busyShop 2 1767225600000 1).2 in
  cancelPreorder st1 2 1767229200000 1
  = (PreorderCannotBeCancelled PreorderStatus.CANCELLED
       [PreorderStatus.PENDING; PreorderStatus.CONFIRMED], st1)
  ∧ updatePreorderStatus st1 9 1767229200000 1
      (statusRequest PreorderStatus.READY)
    = (InvalidStatusTransition PreorderStatus.CANCELLED PreorderStatus.READY [],
       st1).
Proof.
  intros st1.
  destruct (cancelPreorder_final busyShop 2 1767225600000 1 _ _ _ eq_refl)
    as [Hagain Hadmin].
  split; [apply Hagain | by apply Hadmin].
Defined.

(** ** Frame of the admin update of a preorder's status *)

(** The store an admin status update leaves: as it was, or with the rows of
    the id updated and one history record appended. *)
Lemma updatePreorderStatus_store st userId now id req :
  (updatePreorderStatus st userId now id req).2 = st
  ∨ ∃ current,
      preorder_findUnique st id = Some current
      ∧ includes (validTransitions (Preorder.status current))
                 (UpdatePreorderStatusRequest.status req) = true
      ∧ (updatePreorderStatus st userId now id req).2
        = set_preorder_status_history
            (preorder_status_history st
             ++ [historyRecord userId now id req (Preorder.status current)])
            (set_preorders
               (map (λ p, if Preorder.id p =? id
                          then updateData userId now req p else p)
                    (preorders st)) st).
Proof.
  destruct (updatePreorderStatus_valid req) eqn:Hvalid.
  - destruct (preorder_findUnique st id) as [current|] eqn:Hfind.
    + destruct (includes (validTransitions (Preorder.status current))
                  (UpdatePreorderStatusRequest.status req)) eqn:Hstep.
      * right. exists current.
        by rewrite (updatePreorderStatus_accepted _ _ _ _ _ _ Hvalid Hfind Hstep).
      * left.
        by rewrite (updatePreorderStatus_refused _ _ _ _ _ _ Hvalid Hfind Hstep).
    + left. unfold updatePreorderStatus. by rewrite Hvalid, Hfind.
  - left. unfold updatePreorderStatus. by rewrite Hvalid.
Qed.

(** X5. Frame of the admin update of a preorder's status.  Whatever the
    answer, the update leaves the products as they were, the counter
    [totalPreorders] included, so that a cancellation made this way does not
    lower it, as the customer's own cancellation does; it leaves the
    inventory, variants, addresses, carts and orders untouched; rows of the
    preorders with another id are unchanged, and the row of the id keeps its
    owner, product, variant, quantity, price, deposit, remaining amount,
    address and expected date; the history keeps its records and gains at
    most one; and an answer other than success leaves the whole store as it
    was. *)
Theorem updatePreorderStatus_frame st userId now id req :
  let result := updatePreorderStatus st userId now id req in
  products result.2 = products st
  ∧ inventory result.2 = inventory st
  ∧ product_variants result.2 = product_variants st
  ∧ addresses result.2 = addresses st
  ∧ cart result.2 = cart st
  ∧ cart_items result.2 = cart_items st
  ∧ orders result.2 = orders st
  ∧ Forall2 (λ p q, samePlacement p q ∧ (Preorder.id p ≠ id → q = p))
            (preorders st) (preorders result.2)
  ∧ (∃ records,
       preorder_status_history result.2 = preorder_status_history st ++ records
       ∧ (length records ≤ 1)%nat)
  ∧ ((∀ p change, result.1 ≠ PreorderStatusUpdated p change) → result.2 = st).
Proof.
  intros result. unfold result.
  assert (Hsame : Forall2 (λ p q, samePlacement p q ∧ (Preorder.id p ≠ id → q = p))
                    (preorders st) (preorders st)).
  { apply Forall_Forall2_diag, Forall_forall. intros p _.
    by repeat split. }
  destruct (updatePreorderStatus_store st userId now id req)
    as [Hkeep | (current & Hfind & Hstep & Hstore)].
  - rewrite Hkeep. do 7 (split; [done|]). split; [done|].
    split; [|done]. exists []. split; [by rewrite app_nil_r | simpl; lia].
  - split; [by rewrite Hstore|]. split; [by rewrite Hstore|].
    split; [by rewrite Hstore|]. split; [by rewrite Hstore|].
    split; [by rewrite Hstore|]. split; [by rewrite Hstore|].
    split; [by rewrite Hstore|].
    split; [|split].
    + rewrite Hstore.
      cbn [preorders set_preorder_status_history set_preorders].
      apply Forall2_fmap_r, Forall_Forall2_diag, Forall_forall. intros p _.
      unfold compose. cbv beta. destruct (Z.eqb_spec (Preorder.id p) id).
      * split; [by repeat split | intros Hne; by destruct Hne].
      * split; [by repeat split | done].
    + rewrite Hstore. eexists. split; [reflexivity|]. simpl. lia.
    + intros Hnot. exfalso.
      destruct (updatePreorderStatus_valid req) eqn:Hvalid.
      * rewrite (updatePreorderStatus_accepted _ _ _ _ _ _ Hvalid Hfind Hstep)
          in Hnot.
        by eapply Hnot.
      * unfold updatePreorderStatus in Hstore. rewrite Hvalid in Hstore.
        simpl in Hstore.
        assert (Hh : preorder_status_history st
                     = preorder_status_history st
                       ++ [historyRecord userId now id req (Preorder.status current)])
          by (by rewrite Hstore at 1).
        apply (f_equal length) in Hh. rewrite length_app in Hh. simpl in Hh. lia.
Qed.

(** ** Order placement: what it leaves alone and why it refuses *)

(** The store a placement leaves: as it was, or the committed one. *)
Lemma createOrder_store st userId req orderNumber :
  ((∀ order, (createOrder st userId req orderNumber).1 ≠ OrderCreated order)
   ∧ (createOrder st userId req orderNumber).2 = st)
  ∨ ∃ c items (m : gmap Z Inventory.t),
      createOrder_valid req = true
      ∧ cart_findUnique st userId = Some (c, items)
      ∧ items ≠ []
      ∧ Forall stocked (regularItems items)
      ∧ createOrder st userId req orderNumber
        = (OrderCreated (placedOrder st userId req orderNumber items),
           placedStore st c (placedOrder st userId req orderNumber items) m)
      ∧ ∀ v, m !! v = increment (net v (placedMoves items)) <$> inventory st !! v.
Proof.
  destruct (createOrder st userId req orderNumber) as [r s] eqn:Hres.
  assert (Hcases : (∃ order, r = OrderCreated order) ∨ ∀ order, r ≠ OrderCreated order)
    by (destruct r; eauto).
  destruct Hcases as [[order ->] | Hnot].
  - right.
    destruct (createOrder_created_inv _ _ _ _ _ _ Hres)
      as (c & items & Hvalid & Hcart & Hne & Hok & Hins).
    destruct (createOrder_commits st userId req orderNumber c items
                Hvalid Hcart Hne Hok Hins) as (m & Heq & Hm).
    exists c, items, m. rewrite Hres in Heq. done.
  - left. split; [done|].
    assert (Hkeep := createOrder_rejected_keeps st userId req orderNumber).
    rewrite Hres in Hkeep. by apply Hkeep.
Qed.

Lemma filter_other_cart c k rows :
  k ≠ c →
  List.filter (λ it, CartItem.cartId it =? k)
    (List.filter (λ it, negb (CartItem.cartId it =? c)) rows)
  = List.filter (λ it, CartItem.cartId it =? k) rows.
Proof.
  intros Hne. induction rows as [|it rows IH]; simpl; [done|].
  destruct (Z.eqb_spec (CartItem.cartId it) c) as [Hc|Hc]; simpl.
  - destruct (Z.eqb_spec (CartItem.cartId it) k); [congruence | done].
  - by rewrite IH.
Qed.

Lemma fresh_order_id st id order :
  orders st !! id = Some order → id ≠ fresh (dom (orders st)).
Proof.
  intros Horder ->.
  apply (is_fresh (dom (orders st))). apply elem_of_dom. by eexists.
Qed.

(** X6. Frame of order placement.  Whatever the answer, placing an order
    leaves the products, variants, addresses, carts, preorders and the
    status history as they were: an order made of preorder lines creates no
    preorder and does not move the product's counter [totalPreorders].
    Every order on file before is still there unchanged.  The inventory
    keeps its rows; a row changes in its quantity only, and only if a
    regular line of the caller's cart names its variant.  The cart items of
    every other cart are kept as they were. *)
Theorem createOrder_frame st userId req orderNumber :
  let result := createOrder st userId req orderNumber in
  products result.2 = products st
  ∧ product_variants result.2 = product_variants st
  ∧ addresses result.2 = addresses st
  ∧ cart result.2 = cart st
  ∧ preorders result.2 = preorders st
  ∧ preorder_status_history result.2 = preorder_status_history st
  ∧ (∀ id order, orders st !! id = Some order →
       orders result.2 !! id = Some order)
  ∧ (∀ v, is_Some (inventory result.2 !! v) ↔ is_Some (inventory st !! v))
  ∧ (∀ v before after,
       inventory st !! v = Some before →
       inventory result.2 !! v = Some after →
       Inventory.reservedQuantity after = Inventory.reservedQuantity before
       ∧ Inventory.lowStockThreshold after = Inventory.lowStockThreshold before
       ∧ (v ∉ regularVariantIds (cartLines st userId) → after = before))
  ∧ (∀ c k, cart st !! userId = Some c → k ≠ Cart.id c →
       List.filter (λ it, CartItem.cartId it =? k) (cart_items result.2)
       = List.filter (λ it, CartItem.cartId it =? k) (cart_items st))
  ∧ (cart st !! userId = None → cart_items result.2 = cart_items st).
Proof.
  intros result. unfold result.
  destruct (createOrder_store st userId req orderNumber)
    as [[_ Hkeep] | (c & items & m & _ & Hcart & _ & _ & Heq & Hm)].
  - rewrite Hkeep. do 7 (split; [done|]). split; [done|].
    split; [|done]. intros v before after Hb Ha.
    assert (after = before) as -> by congruence. done.
  - rewrite Heq. cbn [snd].
    assert (Hlines : cartLines st userId = items)
      by (unfold cartLines; by rewrite Hcart).
    do 6 (split; [done|]). split; [|split; [|split; [|split]]].
    + intros id order Horder.
      cbn [placedStore orders set_cart_items set_inventory set_orders
           placedOrder Order.id].
      rewrite lookup_insert_ne; [done|].
      intros Heq'. by apply (fresh_order_id st id order).
    + intros v. cbn [placedStore inventory set_cart_items set_inventory].
      rewrite Hm. by rewrite fmap_is_Some.
    + intros v before after Hb Ha.
      cbn [placedStore inventory set_cart_items set_inventory] in Ha.
      rewrite Hm, Hb in Ha. simpl in Ha. inversion Ha; subst after; clear Ha.
      split; [done|]. split; [done|].
      intros Hout. rewrite net_not_in; [apply increment_0|].
      intros Hin. apply Hout. rewrite Hlines.
      eapply elem_of_sublist; [exact Hin | apply placedMoves_sublist].
    + intros c' k Hc Hk.
      assert (c' = c) as ->.
      { unfold cart_findUnique in Hcart. rewrite Hc in Hcart.
        simpl in Hcart. congruence. }
      cbn [placedStore cart_items set_cart_items].
      by apply filter_other_cart.
    + intros Hnone. unfold cart_findUnique in Hcart.
      by rewrite Hnone in Hcart.
Qed.

Lemma verifyStock_first_short items productId :
  verifyStock items = StockShort productId →
  ∃ before line after,
    items = before ++ line :: after
    ∧ Forall stocked before
    ∧ short line
    ∧ CartItem.productId (CartLine.item line) = productId.
Proof.
  induction items as [|line items IH]; simpl; [done|].
  destruct (CartLine.productVariant line) as [[v [inv|]]|] eqn:Hv.
  - destruct (Z.ltb_spec (Inventory.quantity inv) (CartLine.quantity line)).
    + intros [= <-]. exists [], line, items.
      split; [done|]. split; [constructor|]. split; [|done].
      by exists v, inv.
    + intros Hrest.
      destruct (IH Hrest) as (before & bad & after & -> & Hok & Hshort & Hpid).
      exists (line :: before), bad, after.
      split; [done|]. split; [|done].
      constructor; [|done]. unfold stocked. by rewrite Hv.
  - done.
  - intros Hrest.
    destruct (IH Hrest) as (before & bad & after & -> & Hok & Hshort & Hpid).
    exists (line :: before), bad, after.
    split; [done|]. split; [|done].
    constructor; [|done]. unfold stocked. by rewrite Hv.
Qed.

Lemma createOrder_throws st userId req orderNumber c items :
  createOrder_valid req = true →
  cart_findUnique st userId = Some (c, items) →
  verifyStock (regularItems items) = StockThrows →
  createOrder st userId req orderNumber = (CreateOrderFailed, st).
Proof.
  intros Hvalid Hcart Hcheck. unfold createOrder.
  rewrite Hvalid, Hcart. simpl.
  destruct items as [|l0 items0] eqn:Hitems; [done|]. rewrite <- Hitems in *.
  replace (length items =? 0)%nat with false by (by rewrite Hitems).
  fold (regularItems items). by rewrite Hcheck.
Qed.

Lemma createOrder_empty st userId req orderNumber :
  createOrder_valid req = true →
  cartLines st userId = [] →
  createOrder st userId req orderNumber = (CartIsEmpty, st).
Proof.
  intros Hvalid Hnil. unfold createOrder. rewrite Hvalid. simpl.
  unfold cartLines in Hnil.
  destruct (cart_findUnique st userId) as [[c items]|]; [|done].
  by subst items.
Qed.

Lemma createOrder_invalid st userId req orderNumber :
  createOrder_valid req = false →
  createOrder st userId req orderNumber = (CreateOrderInvalid, st).
Proof. intros Hvalid. unfold createOrder. by rewrite Hvalid. Qed.

(** The answers of a valid request, by the state of the cart. *)
Lemma createOrder_cases st userId req orderNumber :
  createOrder_valid req = true →
  let result := createOrder st userId req orderNumber in
  let items := cartLines st userId in
  (items = [] ∧ result = (CartIsEmpty, st))
  ∨ (items ≠ [] ∧ ∃ productId,
       verifyStock (regularItems items) = StockShort productId
       ∧ result = (InsufficientStock productId, st))
  ∨ (items ≠ [] ∧ result = (CreateOrderFailed, st))
  ∨ (items ≠ [] ∧ ∃ st',
       result = (OrderCreated (placedOrder st userId req orderNumber items), st')).
Proof.
  intros Hvalid result items.
  destruct items as [|l0 rest] eqn:Hitems.
  { left. split; [done|]. by apply createOrder_empty. }
  right. rewrite <- Hitems.
  assert (Hne : items ≠ []) by (by rewrite Hitems).
  destruct (cartLines_Some st userId l0) as [c Hcart].
  { fold items. rewrite Hitems. apply list_elem_of_here. }
  fold items in Hcart.
  destruct (verifyStock (regularItems items)) eqn:Hcheck.
  - apply verifyStock_ok in Hcheck.
    destruct (orderInsertable_decide st req orderNumber) as [Hins|Hno].
    + right. right. split; [done|].
      destruct (createOrder_commits st userId req orderNumber c items
                  Hvalid Hcart Hne Hcheck Hins) as (m & Heq & _).
      eauto.
    + right. left. split; [done|].
      by apply (createOrder_not_insertable _ _ _ _ c items).
  - left. split; [done|]. exists productId. split; [done|].
    by apply (createOrder_short _ _ _ _ c items).
  - right. left. split; [done|].
    by apply (createOrder_throws _ _ _ _ c items).
Qed.

(** X7. Why order placement refuses.  The request is rejected as invalid
    exactly when its payment method is empty.  A valid request is answered
    with an empty cart exactly when the caller has no cart or a cart without
    items, so no order is ever created without items.  An answer of
    insufficient stock names the product of the first regular line, in cart
    order, whose variant has fewer units than the line asks for; every
    regular line before it passes the check. *)
Theorem createOrder_rejections st userId req orderNumber :
  let result := createOrder st userId req orderNumber in
  let items := cartLines st userId in
  (result.1 = CreateOrderInvalid ↔ CreateOrderRequest.paymentMethod req = "")
  ∧ (CreateOrderRequest.paymentMethod req ≠ "" →
     (result.1 = CartIsEmpty ↔ items = []))
  ∧ (∀ order, result.1 = OrderCreated order →
       items ≠ [] ∧ length (Order.items order) = length items)
  ∧ (∀ productId, result.1 = InsufficientStock productId →
       ∃ before line after,
         regularItems items = before ++ line :: after
         ∧ Forall stocked before
         ∧ short line
         ∧ CartItem.productId (CartLine.item line) = productId).
Proof.
  intros result items.
  destruct (createOrder_valid req) eqn:Hvalid.
  - assert (Hpay : CreateOrderRequest.paymentMethod req ≠ "").
    { unfold createOrder_valid in Hvalid. apply negb_true_iff in Hvalid.
      intros Heq. rewrite Heq in Hvalid. done. }
    destruct (createOrder_cases st userId req orderNumber Hvalid)
      as [[Hnil Heq] | [(Hne & pid & Hcheck & Heq)
          | [[Hne Heq] | (Hne & st' & Heq)]]];
      fold result in Heq; fold items in Hnil || fold items in Hne;
      rewrite Heq; simpl.
    + repeat split; try done.
    + split; [done|]. split; [done|]. split; [done|].
      intros productId [= <-]. by apply verifyStock_first_short.
    + repeat split; try done.
    + split; [done|]. split; [done|]. split; [|done].
      intros order [= <-]. split; [done|]. simpl. by rewrite length_map.
  - assert (Hpay : CreateOrderRequest.paymentMethod req = "").
    { unfold createOrder_valid in Hvalid. apply negb_false_iff in Hvalid.
      by apply String.eqb_eq. }
    unfold result. rewrite (createOrder_invalid _ _ _ _ Hvalid). simpl.
    repeat split; try done.
Qed.

(** ** Reading an order back *)

Lemma cancelOrder_foreign st userId id order :
  orders st !! id = Some order → Order.userId order ≠ userId →
  cancelOrder st userId id = (OrderNotFound, st).
Proof.
  intros Horder Huser. unfold cancelOrder, order_findFirst.
  rewrite Horder. simpl.
  by destruct (Z.eqb_spec (Order.userId order) userId).
Qed.

Lemma cancelOrder_cancelled_inv st userId id st' :
  cancelOrder st userId id = (OrderCancelled, st') →
  ∃ order, orders st !! id = Some order
           ∧ Order.userId order = userId
           ∧ orders st' !! id
             = Some (Order.with_status OrderStatus.CANCELLED order).
Proof.
  unfold cancelOrder, order_findFirst.
  destruct (orders st !! id) as [order|] eqn:Horder; simpl; [|done].
  destruct (Z.eqb_spec (Order.userId order) userId) as [Huser|]; [|done].
  destruct (cancellable (Order.status order)); simpl; [|done].
  unfold transaction, tx_bind, order_update. rewrite Horder.
  rewrite (forEach_moves restoreStock restoredMove).
  2:{ intros line Hline s.
      apply list_elem_of_fmap in Hline as (item & -> & _).
      apply restoreStock_move. }
  match goal with |- context [forEach moveStock ?l ?s] =>
    destruct (forEach moveStock l s) as [[[] s1]|] eqn:Hrun end; [|done].
  intros [= <-]. apply moveStock_run in Hrun as (m & -> & _).
  exists order. split; [done|]. split; [done|]. simpl.
  apply lookup_insert_eq.
Qed.

(** X8. An order is read back by its owner only.  After a placement has
    created an order, its owner reads it under its id with the items it was
    created with, and the status view shows the order number of the request,
    status PENDING and the order's type; every other user is answered with
    not found by the detail view, by the status view and by the
    cancellation, which then changes nothing; and once the owner's
    cancellation has succeeded the status view shows CANCELLED. *)
Theorem createOrder_then_read st userId req orderNumber order st1 :
  createOrder st userId req orderNumber = (OrderCreated order, st1) →
  (∃ details,
     getOrder st1 userId (Order.id order) = OrderFound details
     ∧ OrderDetails.order details = order
     ∧ map (λ x, x.1.1) (OrderDetails.items details) = Order.items order)
  ∧ getOrderStatus st1 userId (Order.id order)
    = OrderStatusFound
        {| OrderStatusView.id := Order.id order;
           OrderStatusView.orderNumber := orderNumber;
           OrderStatusView.status := OrderStatus.PENDING;
           OrderStatusView.orderType := Order.orderType order |}
  ∧ (∀ other, other ≠ userId →
       getOrder st1 other (Order.id order) = GetOrderNotFound
       ∧ getOrderStatus st1 other (Order.id order) = GetOrderStatusNotFound
       ∧ cancelOrder st1 other (Order.id order) = (OrderNotFound, st1))
  ∧ (∀ st2, cancelOrder st1 userId (Order.id order) = (OrderCancelled, st2) →
       getOrderStatus st2 userId (Order.id order)
       = OrderStatusFound
           {| OrderStatusView.id := Order.id order;
              OrderStatusView.orderNumber := orderNumber;
              OrderStatusView.status := OrderStatus.CANCELLED;
              OrderStatusView.orderType := Order.orderType order |}).
Proof.
  intros Hres.
  destruct (createOrder_store st userId req orderNumber)
    as [[Hnot _] | (c & items & m & _ & _ & _ & _ & Heq & _)].
  { exfalso. apply (Hnot order). by rewrite Hres. }
  rewrite Hres in Heq.
  assert (Horder : order = placedOrder st userId req orderNumber items)
    by congruence.
  assert (Hst1 : st1 = placedStore st c
                         (placedOrder st userId req orderNumber items) m)
    by congruence.
  clear Heq.
  assert (Hstored : orders st1 !! Order.id order = Some order).
  { rewrite Hst1, Horder. apply lookup_insert_eq. }
  assert (Huser : Order.userId order = userId) by (by rewrite Horder).
  assert (Hnumber : Order.orderNumber order = orderNumber) by (by rewrite Horder).
  assert (Hstatus : Order.status order = OrderStatus.PENDING) by (by rewrite Horder).
  split; [|split; [|split]].
  - eexists. split.
    { unfold getOrder. rewrite Hstored, Huser, Z.eqb_refl. reflexivity. }
    split; [done|]. simpl. rewrite map_map. simpl. apply map_id.
  - unfold getOrderStatus. rewrite Hstored, Huser, Z.eqb_refl.
    by rewrite Hnumber, Hstatus.
  - intros other Hother.
    assert (Hne : Order.userId order ≠ other) by congruence.
    unfold getOrder, getOrderStatus. rewrite Hstored.
    destruct (Z.eqb_spec (Order.userId order) other); [done|].
    split; [done|]. split; [done|]. by apply (cancelOrder_foreign _ _ _ order).
  - intros st2 Hcancel.
    apply cancelOrder_cancelled_inv in Hcancel as (o & Ho & _ & Hst2).
    assert (o = order) as -> by congruence.
    unfold getOrderStatus. rewrite Hst2. simpl.
    by rewrite Huser, Z.eqb_refl, Hnumber.
Qed.

Lemma createOrder_then_read_witness :
  ∃ order st1,
    createOrder shop 1 checkout "ORD-1767225600000-K3X9A" = (OrderCreated order, st1)
    ∧ getOrderStatus st1 1 (Order.id order)
      = OrderStatusFound
          {| OrderStatusView.id := Order.id order;
             OrderStatusView.orderNumber := "ORD-1767225600000-K3X9A";
             OrderStatusView.status := OrderStatus.PENDING;
             OrderStatusView.orderType := OrderType.REGULAR |}
    ∧ getOrder st1 2 (Order.id order) = GetOrderNotFound.
Proof.
  eexists _, _. split; [reflexivity|].
  destruct (createOrder_then_read shop 1 checkout "ORD-1767225600000-K3X9A"
              _ _ eq_refl) as (_ & Hstatus & Hother & _).
  split; [exact Hstatus|]. by apply Hother.
Defined.

(** X9. The admin's status update returns no stock.  When the admin status
    update moves an order to a status other than PENDING and CONFIRMED,
    CANCELLED included, the update itself leaves the inventory as it was,
    and in the store the update leaves, the customer's cancellation is
    refused for every caller and changes nothing: it answers that the
    order cannot be cancelled to the owner and not-found to anyone else.
    (This is about the store right after the update; a later status update
    back to PENDING or CONFIRMED makes the order cancellable again.) *)
Theorem admin_status_blocks_restock st id status order :
  orders st !! id = Some order →
  status ≠ OrderStatus.PENDING →
  status ≠ OrderStatus.CONFIRMED →
  let st1 := (updateOrderStatus st id status).2 in
  inventory st1 = inventory st
  ∧ cancelOrder st1 (Order.userId order) id = (OrderCannotBeCancelled, st1)
  ∧ ∀ userId, (cancelOrder st1 userId id).1 ≠ OrderCancelled
              ∧ (cancelOrder st1 userId id).2 = st1.
Proof.
  intros Horder Hp Hc st1. unfold st1.
  rewrite (updateOrderStatus_found _ _ _ _ Horder). cbn [snd].
  split; [done|].
  assert (Hrefused : ∀ userId,
    cancelOrder
      (set_orders (<[id := Order.with_status status order]> (orders st)) st)
      userId id
    = (if Order.userId order =? userId
       then OrderCannotBeCancelled else OrderNotFound,
       set_orders (<[id := Order.with_status status order]> (orders st)) st)).
  { intros userId. unfold cancelOrder, order_findFirst.
    cbn [orders set_orders]. rewrite lookup_insert_eq. simpl.
    destruct (Order.userId order =? userId); [|done].
    by destruct status. }
  split.
  - by rewrite Hrefused, Z.eqb_refl.
  - intros userId. rewrite Hrefused.
    by destruct (Order.userId order =? userId).
Qed.

Lemma admin_status_blocks_restock_witness :
  let st1 := (updateOrderStatus (shopWith confirmedOrder) 1
                OrderStatus.CANCELLED).2 in
  inventory st1 = inventory shop
  ∧ cancelOrder st1 1 1 = (OrderCannotBeCancelled, st1).
Proof.
  intros st1.
  destruct (admin_status_blocks_restock (shopWith confirmedOrder) 1
              OrderStatus.CANCELLED confirmedOrder)
    as (Hinv & Hrefused & _); [reflexivity | discriminate | discriminate |].
  split; [exact Hinv | exact Hrefused].
Defined.

(** ** Adding to the cart *)

Lemma putInCart_cases st userId pid vid pre variant q price :
  let c := (cart_getOrCreate st userId).1 in
  let st1 := (cart_getOrCreate st userId).2 in
  let same := sameCartLine (Cart.id c) pid vid pre in
  let result := putInCart st userId pid vid pre variant q price in
  match find same (cart_items st) with
  | Some existing =>
      let n := CartItem.quantity existing + q in
      match lacksStock pre variant n with
      | None => result = (AddToCartFailed, st1)
      | Some true => result = (CartInsufficientStock, st1)
      | Some false =>
          result = (CartUpdated (with_quantity n existing),
                    set_cart_items
                      (updateFirst same (with_quantity n) (cart_items st)) st1)
      end
  | None =>
      result = (ItemAdded (newCartItem (Cart.id c, pid, vid, pre) q price),
                set_cart_items
                  (cart_items st
                   ++ [newCartItem (Cart.id c, pid, vid, pre) q price]) st1)
  end.
Proof.
  intros c st1 same result. unfold result, putInCart, same, c, st1.
  destruct (cart_getOrCreate_keeps st userId) as [Hitems _].
  destruct (cart_getOrCreate st userId) as [c' st1']. simpl in *.
  rewrite Hitems.
  destruct (find _ (cart_items st)) as [existing|]; [|done].
  by destruct (lacksStock pre variant _) as [[]|].
Qed.

(** Add-to-cart either answers before it touches the cart, leaving the
    store as it was, or goes on to put the line in the cart. *)
Lemma addToCart_cases st userId req :
  ((∀ item, (addToCart st userId req).1 ≠ ItemAdded item)
   ∧ (∀ item, (addToCart st userId req).1 ≠ CartUpdated item)
   ∧ (addToCart st userId req).2 = st)
  ∨ ∃ product price,
      1 ≤ AddToCartRequest.quantity req
      ∧ product_findFirst_active st (AddToCartRequest.productId req)
        = Some product
      ∧ (∀ vid, truthy_id (AddToCartRequest.productVariantId req) = Some vid →
           is_Some (requestedVariant st req))
      ∧ lacksStock (default false (AddToCartRequest.isPreorder req))
          (requestedVariant st req) (AddToCartRequest.quantity req)
        = Some false
      ∧ addToCart st userId req
        = putInCart st userId (AddToCartRequest.productId req)
            (truthy_id (AddToCartRequest.productVariantId req))
            (default false (AddToCartRequest.isPreorder req))
            (requestedVariant st req) (AddToCartRequest.quantity req) price.
Proof.
  unfold addToCart, requestedVariant.
  destruct (Z.leb_spec 1 (AddToCartRequest.quantity req)); simpl; [|by left].
  destruct (product_findFirst_active st _) as [product|]; [|by left].
  destruct (truthy_id (AddToCartRequest.productVariantId req)) as [vid|];
    simpl.
  - destruct (productVariant_findFirst st vid _) as [variant|]; [|by left].
    destruct (lacksStock _ _ _) as [[]|] eqn:Hstock; [by left | | by left].
    destruct (_ && negb (Product.allowPreorder product)); [by left|].
    right. eexists product, _. by repeat split.
  - destruct (lacksStock _ _ _) as [[]|] eqn:Hstock; [by left | | by left].
    destruct (_ && negb (Product.allowPreorder product)); [by left|].
    right. eexists product, _. by repeat split.
Qed.

Lemma set_cart_items_same st : set_cart_items (cart_items st) st = st.
Proof. by destruct st. Qed.

Lemma cart_getOrCreate_cart st userId :
  cart (cart_getOrCreate st userId).2 !! userId
  = Some (cart_getOrCreate st userId).1
  ∧ (∀ u, u ≠ userId → cart (cart_getOrCreate st userId).2 !! u = cart st !! u)
  ∧ (∀ c, cart st !! userId = Some c → cart_getOrCreate st userId = (c, st)).
Proof.
  unfold cart_getOrCreate.
  destruct (cart st !! userId) as [c|] eqn:Hc; simpl.
  - split; [done|]. split; [done|]. by intros c' [= ->].
  - split; [apply lookup_insert_eq|]. split; [|done].
    intros u Hu. by apply lookup_insert_ne.
Qed.

Lemma cart_getOrCreate_frame st userId :
  let st1 := (cart_getOrCreate st userId).2 in
  products st1 = products st
  ∧ product_variants st1 = product_variants st
  ∧ inventory st1 = inventory st
  ∧ addresses st1 = addresses st
  ∧ cart_items st1 = cart_items st
  ∧ orders st1 = orders st
  ∧ preorders st1 = preorders st
  ∧ preorder_status_history st1 = preorder_status_history st.
Proof. unfold cart_getOrCreate. by destruct (cart st !! userId). Qed.

(** The store add-to-cart leaves: the cart is there, and the cart items
    are the former ones, or one of them updated, or one more. *)
Lemma addToCart_store st userId req :
  (addToCart st userId req).2 = st
  ∨ ∃ rows, (addToCart st userId req).2
            = set_cart_items rows (cart_getOrCreate st userId).2.
Proof.
  destruct (addToCart_cases st userId req)
    as [(_ & _ & Hkeep) | (product & price & _ & _ & _ & _ & ->)]; [by left|].
  right.
  assert (Hcases := putInCart_cases st userId (AddToCartRequest.productId req)
            (truthy_id (AddToCartRequest.productVariantId req))
            (default false (AddToCartRequest.isPreorder req))
            (requestedVariant st req) (AddToCartRequest.quantity req) price).
  cbv zeta in Hcases.
  destruct (find _ (cart_items st)) as [existing|].
  - destruct (lacksStock _ _ _) as [[]|]; rewrite Hcases; simpl; eauto.
    + exists (cart_items (cart_getOrCreate st userId).2).
      by rewrite set_cart_items_same.
    + exists (cart_items (cart_getOrCreate st userId).2).
      by rewrite set_cart_items_same.
  - rewrite Hcases. simpl. eauto.
Qed.

Lemma filter_updateFirst_other c pid vid pre n k rows :
  k ≠ c →
  List.filter (λ it, CartItem.cartId it =? k)
    (updateFirst (sameCartLine c pid vid pre) (with_quantity n) rows)
  = List.filter (λ it, CartItem.cartId it =? k) rows.
Proof.
  intros Hk. induction rows as [|it rows IH]; simpl; [done|].
  destruct (sameCartLine c pid vid pre it) eqn:Hsame; simpl.
  - apply sameCartLine_key in Hsame. unfold lineKey in Hsame.
    injection Hsame as Hc _ _ _.
    by destruct (Z.eqb_spec (CartItem.cartId it) k); [congruence|].
  - by rewrite IH.
Qed.

Lemma heldQuantity_updateFirst key0 key existing q rows :
  find (λ it, bool_decide (lineKey it = key0)) rows = Some existing →
  sumOf CartItem.quantity
    (List.filter (λ it, bool_decide (lineKey it = key))
       (updateFirst (λ it, bool_decide (lineKey it = key0))
          (with_quantity (CartItem.quantity existing + q)) rows))
  = sumOf CartItem.quantity
      (List.filter (λ it, bool_decide (lineKey it = key)) rows)
    + (if bool_decide (key0 = key) then q else 0).
Proof.
  induction rows as [|it rows IH]; simpl; [done|].
  destruct (bool_decide_reflect (lineKey it = key0)) as [Hit|Hit].
  - intros [= ->]. simpl. rewrite lineKey_with_quantity, Hit.
    destruct (bool_decide (key0 = key)); simpl; lia.
  - intros Hfind. simpl.
    destruct (bool_decide (lineKey it = key)); simpl; rewrite IH by done; lia.
Qed.

Lemma sameCartLine_decide c pid vid pre :
  ∀ it, sameCartLine c pid vid pre it
        = bool_decide (lineKey it = (c, pid, vid, pre)).
Proof.
  intros it. apply eq_true_iff_eq.
  rewrite sameCartLine_key. symmetry. apply bool_decide_eq_true.
Qed.

Lemma find_ext {A} (f g : A → bool) (l : list A) :
  (∀ x, f x = g x) → find f l = find g l.
Proof.
  intros Hfg. induction l as [|x l IH]; simpl; [done|].
  by rewrite Hfg, IH.
Qed.

Lemma updateFirst_ext p p' f rows :
  (∀ x, p x = p' x) → updateFirst p f rows = updateFirst p' f rows.
Proof.
  intros Hp. induction rows as [|x l IH]; simpl; [done|].
  by rewrite Hp, IH.
Qed.

Lemma find_none_heldQuantity key rows :
  find (λ it, bool_decide (lineKey it = key)) rows = None →
  List.filter (λ it, bool_decide (lineKey it = key)) rows = [].
Proof.
  induction rows as [|it rows IH]; simpl; [done|].
  destruct (bool_decide (lineKey it = key)); [done | exact IH].
Qed.

(** X10. Frame of add-to-cart.  Whatever the answer, adding to the cart
    leaves the products, variants, addresses, orders, preorders and status
    history as they were, and the inventory as well: it reserves nothing
    and takes nothing from stock.  The carts of other users are untouched,
    the caller's cart is kept when there is one, and the items of every
    other cart are left as they were; an answer other than added or updated
    changes no cart item at all. *)
Theorem addToCart_frame st userId req :
  let result := addToCart st userId req in
  products result.2 = products st
  ∧ product_variants result.2 = product_variants st
  ∧ inventory result.2 = inventory st
  ∧ addresses result.2 = addresses st
  ∧ orders result.2 = orders st
  ∧ preorders result.2 = preorders st
  ∧ preorder_status_history result.2 = preorder_status_history st
  ∧ (∀ u, u ≠ userId → cart result.2 !! u = cart st !! u)
  ∧ (is_Some (cart st !! userId) → cart result.2 = cart st)
  ∧ (∀ k, k ≠ Cart.id (cart_getOrCreate st userId).1 →
       List.filter (λ it, CartItem.cartId it =? k) (cart_items result.2)
       = List.filter (λ it, CartItem.cartId it =? k) (cart_items st))
  ∧ ((∀ item, result.1 ≠ ItemAdded item) →
     (∀ item, result.1 ≠ CartUpdated item) →
     cart_items result.2 = cart_items st).
Proof.
  intros result. unfold result.
  destruct (cart_getOrCreate_frame st userId)
    as (Hp & Hv & Hi & Ha & Hc & Ho & Hpre & Hh).
  destruct (cart_getOrCreate_cart st userId) as (_ & Hother & Hown).
  destruct (addToCart_cases st userId req)
    as [(_ & _ & Hkeep) | (product & price & _ & _ & _ & _ & Heq)].
  { rewrite Hkeep. by repeat split. }
  rewrite Heq.
  assert (Hcases := putInCart_cases st userId (AddToCartRequest.productId req)
            (truthy_id (AddToCartRequest.productVariantId req))
            (default false (AddToCartRequest.isPreorder req))
            (requestedVariant st req) (AddToCartRequest.quantity req) price).
  cbv zeta in Hcases.
  assert (Hcart : is_Some (cart st !! userId) →
                  cart (cart_getOrCreate st userId).2 = cart st).
  { intros [c Hsome]. by rewrite (Hown c Hsome). }
  destruct (find _ (cart_items st)) as [existing|].
  - destruct (lacksStock _ _ _) as [[]|]; rewrite Hcases;
      cbn [fst snd set_cart_items products product_variants inventory
           addresses orders preorders preorder_status_history cart cart_items];
      (do 7 (split; [done|])); (split; [done|]); (split; [done|]).
    + split; [by intros; rewrite Hc | by intros; rewrite Hc].
    + split; [|intros _ Hnot; by edestruct Hnot].
      intros k Hk. by apply filter_updateFirst_other.
    + split; [by intros; rewrite Hc | by intros; rewrite Hc].
  - rewrite Hcases.
    cbn [fst snd set_cart_items products product_variants inventory
         addresses orders preorders preorder_status_history cart cart_items].
    do 7 (split; [done|]). split; [done|]. split; [done|].
    split; [|intros Hnot; by edestruct Hnot].
    intros k Hk. rewrite List.filter_app. simpl.
    destruct (Z.eqb_spec (Cart.id (cart_getOrCreate st userId).1) k);
      [congruence|]. by rewrite app_nil_r.
Qed.

Lemma lineKey_newCartItem key quantity price :
  lineKey (newCartItem key quantity price) = key.
Proof. by destruct key as [[[c pid] vid] pre]. Qed.

(** X11. What add-to-cart puts in the cart.  When the answer is added or
    updated, the caller has a cart, the returned line is in it under the
    product, variant and preorder flag of the request, and the units held
    under that key have grown by the requested quantity while the units
    under every other key are as before.  An update answers for a line that
    was there: the table has as many rows as before, and the line keeps the
    price captured when it was first added.  An addition answers for a key
    that held nothing: the new row is appended with the requested
    quantity. *)
Theorem addToCart_effect st userId req item :
  let result := addToCart st userId req in
  let key := requestedKey st userId req in
  result.1 = ItemAdded item ∨ result.1 = CartUpdated item →
  lineKey item = key
  ∧ cart result.2 !! userId = Some (cart_getOrCreate st userId).1
  ∧ item ∈ cart_items result.2
  ∧ heldQuantity result.2 key
    = heldQuantity st key + AddToCartRequest.quantity req
  ∧ (∀ other, other ≠ key → heldQuantity result.2 other = heldQuantity st other)
  ∧ (result.1 = CartUpdated item →
       ∃ existing,
         existing ∈ cart_items st
         ∧ lineKey existing = key
         ∧ CartItem.price item = CartItem.price existing
         ∧ CartItem.quantity item
           = CartItem.quantity existing + AddToCartRequest.quantity req
         ∧ length (cart_items result.2) = length (cart_items st))
  ∧ (result.1 = ItemAdded item →
       heldQuantity st key = 0
       ∧ CartItem.quantity item = AddToCartRequest.quantity req
       ∧ cart_items result.2 = cart_items st ++ [item]).
Proof.
  intros result key Hres. unfold result in *.
  destruct (cart_getOrCreate_cart st userId) as (Hcart & _ & _).
  destruct (addToCart_cases st userId req)
    as [(Hna & Hnu & _) | (product & price & _ & _ & _ & _ & Heq)].
  { exfalso. destruct Hres as [H|H]; [by apply (Hna item) | by apply (Hnu item)]. }
  rewrite Heq in *.
  assert (Hcases := putInCart_cases st userId (AddToCartRequest.productId req)
            (truthy_id (AddToCartRequest.productVariantId req))
            (default false (AddToCartRequest.isPreorder req))
            (requestedVariant st req) (AddToCartRequest.quantity req) price).
  cbv zeta in Hcases. fold (requestedKey st userId req) in Hcases. fold key in Hcases.
  set (same := sameCartLine (Cart.id (cart_getOrCreate st userId).1)
                 (AddToCartRequest.productId req)
                 (truthy_id (AddToCartRequest.productVariantId req))
                 (default false (AddToCartRequest.isPreorder req))) in *.
  assert (Hsame : ∀ it, same it = bool_decide (lineKey it = key))
    by apply sameCartLine_decide.
  rewrite (find_ext _ _ _ Hsame) in Hcases.
  destruct (find _ (cart_items st)) as [existing|] eqn:Hfind.
  - apply find_some in Hfind as Hex. destruct Hex as [Hin Hkey].
    apply bool_decide_eq_true in Hkey. rewrite <- list_elem_of_In in Hin.
    destruct (lacksStock _ _ _) as [[]|]; rewrite Hcases in *;
      try (by destruct Hres).
    destruct Hres as [Hres|Hres]; [done|]. simpl in Hres.
    injection Hres as <-. cbn [fst snd].
    rewrite (updateFirst_ext _ _ _ _ Hsame).
    split; [done|]. split; [done|].
    split.
    { cbn [cart_items set_cart_items]. clear -Hfind.
      induction (cart_items st) as [|it rows IH]; simpl in *; [done|].
      destruct (bool_decide (lineKey it = key)).
      - injection Hfind as ->. apply list_elem_of_here.
      - apply list_elem_of_further. by apply IH. }
    split.
    { unfold heldQuantity. cbn [cart_items set_cart_items].
      rewrite (heldQuantity_updateFirst key key existing) by done.
      by rewrite bool_decide_eq_true_2. }
    split.
    { intros other Hother. unfold heldQuantity. cbn [cart_items set_cart_items].
      rewrite (heldQuantity_updateFirst key other existing) by done.
      rewrite bool_decide_eq_false_2 by done. lia. }
    split; [|done]. intros _. exists existing.
    split; [done|]. split; [done|]. split; [done|]. split; [done|].
    cbn [cart_items set_cart_items]. rewrite <- !(length_map lineKey).
    by rewrite updateFirst_keys.
  - rewrite Hcases in *. destruct Hres as [Hres|Hres]; [|done].
    simpl in Hres. injection Hres as <-. cbn [fst snd].
    apply find_none_heldQuantity in Hfind as Hnone.
    assert (Hkey := lineKey_newCartItem key (AddToCartRequest.quantity req) price).
    split; [done|]. split; [done|].
    split.
    { cbn [cart_items set_cart_items]. apply elem_of_app. right.
      apply list_elem_of_here. }
    split.
    { unfold heldQuantity. cbn [cart_items set_cart_items].
      rewrite List.filter_app, sumOf_app. cbn [List.filter].
      rewrite bool_decide_eq_true_2 by done. simpl. lia. }
    split.
    { intros other Hother. unfold heldQuantity. cbn [cart_items set_cart_items].
      rewrite List.filter_app, sumOf_app. cbn [List.filter].
      rewrite bool_decide_eq_false_2 by congruence. simpl. lia. }
    split; [done|]. intros _.
    split; [|done]. unfold heldQuantity. by rewrite Hnone.
Qed.

Lemma addToCart_effect_witness :
  ∃ item,
    (addToCart shop 1 (moreShirts 1)).1 = CartUpdated item
    ∧ CartItem.quantity item = 2 + 1
    ∧ CartItem.price item = 2199
    ∧ heldQuantity (addToCart shop 1 (moreShirts 1)).2 (10, 7, Some 70, false)
      = 2 + 1.
Proof.
  eexists. split; [reflexivity|].
  destruct (addToCart_effect shop 1 (moreShirts 1) _ (or_intror eq_refl))
    as (_ & _ & _ & Hheld & _ & Hupdated & _).
  destruct (Hupdated eq_refl) as (existing & Hin & _ & Hprice & Hqty & _).
  apply list_elem_of_singleton in Hin. subst existing.
  split; [exact Hqty|]. split; [exact Hprice | exact Hheld].
Defined.

(** ** From the cart to the order *)

Lemma loadCartLine_same st st' it :
  product_variants st' = product_variants st →
  inventory st' = inventory st →
  loadCartLine st' it = loadCartLine st it.
Proof. intros Hv Hi. unfold loadCartLine. by rewrite Hv, Hi. Qed.

Lemma updateFirst_elem_of (p : CartItem.t → bool) f rows it :
  it ∈ updateFirst p f rows →
  it ∈ rows ∨ ∃ x, find p rows = Some x ∧ it = f x.
Proof.
  induction rows as [|x rows IH]; simpl; [by intros ?%elem_of_nil|].
  destruct (p x) eqn:Hp.
  - intros [->|Hin]%elem_of_cons.
    + right. by exists x.
    + left. by apply list_elem_of_further.
  - intros [->|Hin]%elem_of_cons.
    + left. apply list_elem_of_here.
    + destruct (IH Hin) as [Hold | Hnew]; [left | by right].
      by apply list_elem_of_further.
Qed.

Lemma find_updateFirst_elem (p : CartItem.t → bool) f rows x :
  find p rows = Some x → f x ∈ updateFirst p f rows.
Proof.
  induction rows as [|y rows IH]; simpl; [done|].
  destruct (p y).
  - intros [= ->]. apply list_elem_of_here.
  - intros Hfind. apply list_elem_of_further. by apply IH.
Qed.

(** The line the stock check of add-to-cart has passed is in stock. *)
Lemma stocked_of_lacksStock st req it :
  CartItem.productId it = AddToCartRequest.productId req →
  CartItem.productVariantId it
  = truthy_id (AddToCartRequest.productVariantId req) →
  (∀ vid, truthy_id (AddToCartRequest.productVariantId req) = Some vid →
     is_Some (requestedVariant st req)) →
  lacksStock false (requestedVariant st req) (CartItem.quantity it)
  = Some false →
  stocked (loadCartLine st it).
Proof.
  intros Hpid Hvid Hfound Hstock. unfold stocked, loadCartLine.
  cbn [CartLine.productVariant CartLine.quantity CartLine.item].
  rewrite Hvid. unfold requestedVariant in *.
  destruct (truthy_id (AddToCartRequest.productVariantId req)) as [vid|];
    simpl in *; [|done].
  destruct (Hfound vid eq_refl) as [variant Hvariant].
  rewrite Hvariant in Hstock. unfold productVariant_findFirst in Hvariant.
  destruct (product_variants st !! vid) as [w|]; simpl in *; [|done].
  destruct (_ && _); [|done]. injection Hvariant as <-.
  simpl in Hstock.
  destruct (inventory st !! vid) as [inv|]; [|done].
  injection Hstock as Hstock. by apply Z.ltb_ge.
Qed.

Lemma fresh_cart_id st u c :
  cart st !! u = Some c →
  Cart.id c ≠ fresh (map (λ kv, Cart.id kv.2) (map_to_list (cart st))).
Proof.
  intros Hc Heq.
  apply (infinite_is_fresh (map (λ kv, Cart.id kv.2) (map_to_list (cart st)))).
  rewrite <- Heq. apply list_elem_of_fmap. exists (u, c).
  split; [done|]. by apply elem_of_map_to_list.
Qed.

(** Under the foreign key the items of the caller's cart are the items of
    the cart add-to-cart works on, also when it has to create the cart. *)
Lemma cartLines_of_getOrCreate st userId it :
  cart_items_have_cart st →
  it ∈ cart_items st →
  CartItem.cartId it = Cart.id (cart_getOrCreate st userId).1 →
  loadCartLine st it ∈ cartLines st userId.
Proof.
  intros Hfk Hin Hc. unfold cartLines, cart_findUnique, cart_getOrCreate in *.
  destruct (cart st !! userId) as [c|] eqn:Hcart; simpl in *.
  - apply list_elem_of_fmap. exists it. split; [done|].
    apply list_elem_of_In, filter_In. split; [by apply list_elem_of_In|].
    by apply Z.eqb_eq.
  - exfalso. destruct (Hfk it Hin) as (u & c & Hu & Hid).
    apply (fresh_cart_id st u c Hu). congruence.
Qed.

(** X12. What could be added can be ordered.  In a store whose cart items
    all belong to a cart, let every regular line of the caller's cart pass
    the stock check.  When add-to-cart then answers added or updated, every
    regular line of the cart passes the stock check afterwards as well, the
    line just added or raised included, so a valid order placement made
    next is refused neither for an empty cart nor for lack of stock: it is
    answered with a created order when the database accepts the order row
    (both addresses on file, order number not taken) and the values
    written fit their columns, and it fails, leaving the store as it is,
    when the database rejects the order row. *)
Theorem addToCart_then_createOrder st userId req item checkoutReq orderNumber :
  cart_items_have_cart st →
  Forall stocked (regularItems (cartLines st userId)) →
  (addToCart st userId req).1 = ItemAdded item
  ∨ (addToCart st userId req).1 = CartUpdated item →
  createOrder_valid checkoutReq = true →
  let st1 := (addToCart st userId req).2 in
  Forall stocked (regularItems (cartLines st1 userId))
  ∧ loadCartLine st1 item ∈ cartLines st1 userId
  ∧ (orderInsertable st1 checkoutReq orderNumber →
     placementFits st1 (cartLines st1 userId) →
     ∃ order st2,
       createOrder st1 userId checkoutReq orderNumber
       = (OrderCreated order, st2))
  ∧ (¬ orderInsertable st1 checkoutReq orderNumber →
     createOrder st1 userId checkoutReq orderNumber
     = (CreateOrderFailed, st1)).
Proof.
  intros Hfk Hok Hres Hvalid st1.
  destruct (addToCart_cases st userId req)
    as [(Hna & Hnu & _) | (product & price & _ & _ & Hfound & Hstock & Heq)].
  { exfalso. destruct Hres as [H|H]; [by apply (Hna item) | by apply (Hnu item)]. }
  destruct (cart_getOrCreate_frame st userId)
    as (_ & Hv0 & Hi0 & _ & _ & _ & _ & _).
  destruct (cart_getOrCreate_cart st userId) as (Hcart0 & _ & _).
  set (c := (cart_getOrCreate st userId).1) in *.
  set (st0 := (cart_getOrCreate st userId).2) in *.
  set (pre := default false (AddToCartRequest.isPreorder req)) in *.
  set (vid := truthy_id (AddToCartRequest.productVariantId req)) in *.
  assert (Hcases := putInCart_cases st userId (AddToCartRequest.productId req)
            vid pre (requestedVariant st req) (AddToCartRequest.quantity req)
            price).
  cbv zeta in Hcases. fold c st0 in Hcases. rewrite <- Heq in Hcases.
  set (same := sameCartLine (Cart.id c) (AddToCartRequest.productId req) vid pre)
    in *.
  (* the rows of the cart afterwards, and the returned line among them *)
  assert (Hrows : ∃ rows,
            addToCart st userId req
            = ((addToCart st userId req).1, set_cart_items rows st0)
            ∧ item ∈ rows
            ∧ lineKey item = (Cart.id c, AddToCartRequest.productId req, vid, pre)
            ∧ (pre = false → stocked (loadCartLine st item))
            ∧ ∀ it, it ∈ rows → it ∈ cart_items st ∨ it = item).
  { destruct (find same (cart_items st)) as [existing|] eqn:Hfind.
    - destruct (lacksStock pre (requestedVariant st req)
                  (CartItem.quantity existing + AddToCartRequest.quantity req))
        as [[]|] eqn:Hstock2; rewrite Hcases in Hres;
        try (by destruct Hres).
      destruct Hres as [Hres|Hres]; [done|]. injection Hres as <-.
      apply find_some in Hfind as Hex. destruct Hex as [_ Hkey].
      apply sameCartLine_key in Hkey.
      eexists. split; [by rewrite Hcases|].
      split; [by apply find_updateFirst_elem|]. split; [done|].
      split.
      + intros Hpre. rewrite Hpre in Hstock2.
        unfold lineKey in Hkey. injection Hkey as _ Hp Hvar _.
        by apply (stocked_of_lacksStock st req).
      + intros it Hit. apply updateFirst_elem_of in Hit as [Hold|(x & Hx & ->)];
          [by left|].
        right. congruence.
    - rewrite Hcases in Hres. destruct Hres as [Hres|Hres]; [|done].
      injection Hres as <-.
      eexists. split; [by rewrite Hcases|].
      split; [apply elem_of_app; right; apply list_elem_of_here|].
      split; [done|]. split.
      + intros Hpre. rewrite Hpre in Hstock.
        by apply (stocked_of_lacksStock st req).
      + intros it Hit. apply elem_of_app in Hit as [Hold|Hnew]; [by left|].
        right. by apply list_elem_of_singleton in Hnew. }
  destruct Hrows as (rows & Hst1 & Hitem & Hkey & Hnew & Hold).
  assert (Hstore : st1 = set_cart_items rows st0)
    by (unfold st1; by rewrite Hst1).
  assert (Hload : ∀ it, loadCartLine st1 it = loadCartLine st it).
  { intros it. apply loadCartLine_same; by rewrite Hstore. }
  assert (Hlines : cartLines st1 userId
                   = map (loadCartLine st1)
                       (List.filter (λ it, CartItem.cartId it =? Cart.id c) rows)).
  { unfold cartLines, cart_findUnique. rewrite Hstore.
    cbn [cart set_cart_items cart_items]. by rewrite Hcart0. }
  assert (Hcartid : CartItem.cartId item = Cart.id c).
  { unfold lineKey in Hkey. by injection Hkey. }
  assert (Hpreorder : CartItem.isPreorder item = pre).
  { unfold lineKey in Hkey. by injection Hkey. }
  assert (Hin : loadCartLine st1 item ∈ cartLines st1 userId).
  { rewrite Hlines. apply list_elem_of_fmap. exists item. split; [done|].
    apply list_elem_of_In, filter_In. split; [by apply list_elem_of_In|].
    by apply Z.eqb_eq. }
  assert (Hall : Forall stocked (regularItems (cartLines st1 userId))).
  { apply Forall_forall. intros line Hline.
    apply regularItems_elem in Hline as [Hline Hregular].
    rewrite Hlines in Hline.
    apply list_elem_of_fmap in Hline as (it & -> & Hit).
    apply list_elem_of_In, filter_In in Hit as [Hit Hc].
    apply list_elem_of_In in Hit. apply Z.eqb_eq in Hc.
    rewrite Hload in *.
    destruct (Hold it Hit) as [Hbefore | ->].
    - rewrite Forall_forall in Hok. apply Hok.
      apply regularItems_elem. split; [|done].
      by apply cartLines_of_getOrCreate.
    - apply Hnew. rewrite <- Hpreorder. exact Hregular. }
  split; [exact Hall|]. split; [exact Hin|].
  destruct (cartLines_Some st1 userId _ Hin) as [c1 Hfind1].
  assert (Hne : cartLines st1 userId ≠ []).
  { intros Hnil. rewrite Hnil in Hin. by apply elem_of_nil in Hin. }
  split.
  - intros Hins _.
    destruct (createOrder_commits st1 userId checkoutReq orderNumber c1
                (cartLines st1 userId) Hvalid Hfind1 Hne Hall Hins)
      as (m & Hcreated & _).
    eauto.
  - intros Hno.
    by apply (createOrder_not_insertable _ _ _ _ c1 (cartLines st1 userId)).
Qed.

Lemma shop_cart_items_have_cart : cart_items_have_cart shop.
Proof.
  intros it Hit. apply list_elem_of_singleton in Hit. subst it.
  exists 1, {| Cart.id := 10 |}. split; reflexivity.
Qed.

Lemma shop_lines_stocked : Forall stocked (regularItems (cartLines shop 1)).
Proof. repeat constructor. vm_compute. discriminate. Qed.

Lemma threeShirts_orderInsertable orderNumber :
  orderInsertable (addToCart shop 1 (moreShirts 1)).2 checkout orderNumber.
Proof.
  split; [by eexists|]. split; [by eexists|].
  intros id order Horder.
  change (orders (addToCart shop 1 (moreShirts 1)).2) with (orders shop)
    in Horder.
  unfold shop in Horder. cbn [orders] in Horder.
  by rewrite lookup_empty in Horder.
Qed.

Lemma threeShirts_placementFits :
  placementFits (addToCart shop 1 (moreShirts 1)).2
    (cartLines (addToCart shop 1 (moreShirts 1)).2 1).
Proof.
  change (cartLines (addToCart shop 1 (moreShirts 1)).2 1)
    with [loadCartLine shop (with_quantity 3 twoShirts)].
  split; [|split].
  - constructor; [|constructor].
    unfold fitsInteger, fitsDecimal. cbn. lia.
  - unfold fitsDecimal. cbn. lia.
  - intros k v row Hrow.
    change (inventory (addToCart shop 1 (moreShirts 1)).2)
      with (inventory shop) in Hrow.
    unfold shop in Hrow. cbn [inventory] in Hrow.
    apply lookup_singleton_Some in Hrow as [<- <-].
    change (placedMoves [loadCartLine shop (with_quantity 3 twoShirts)])
      with [(70, -3)].
    unfold fitsInteger. destruct k as [|k]; cbn; [lia|].
    rewrite take_nil. cbn. lia.
Qed.

Lemma addToCart_then_createOrder_witness :
  ∃ order st2,
    createOrder (addToCart shop 1 (moreShirts 1)).2 1 checkout
      "ORD-1767225600000-K3X9A"
    = (OrderCreated order, st2).
Proof.
  destruct (addToCart_then_createOrder shop 1 (moreShirts 1)
              (with_quantity 3 twoShirts) checkout "ORD-1767225600000-K3X9A"
              shop_cart_items_have_cart shop_lines_stocked
              (or_intror eq_refl) eq_refl)
    as (_ & _ & Hcreated & _).
  exact (Hcreated (threeShirts_orderInsertable _) threeShirts_placementFits).
Defined.

(** ** Viewing the cart *)

Lemma sumOf_filter_split {A} (f : A → Z) (p : A → bool) (l : list A) :
  sumOf f (List.filter (λ x, negb (p x)) l) + sumOf f (List.filter p l)
  = sumOf f l.
Proof.
  induction l as [|x l IH]; simpl; [done|].
  destruct (p x); simpl; lia.
Qed.

Lemma filter_split_Permutation {A} (p : A → bool) (l : list A) :
  List.filter (λ x, negb (p x)) l ++ List.filter p l ≡ₚ l.
Proof.
  induction l as [|x l IH]; simpl; [done|].
  destruct (p x); simpl.
  - rewrite <- Permutation_middle. by constructor.
  - by constructor.
Qed.

(** X13. The summary of the cart.  For a user with a cart the view changes
    nothing and shows the lines of the cart, split into the regular lines
    and the preorder lines, which together are the lines of the cart.
    Where no line has a negative quantity and the quantities add up to no
    more than 2^53, the largest range in which a JavaScript number counts
    exactly, the total item count is the sum of the quantities of all
    lines and the sum of the two item counts, each the sum of the
    quantities of its lines.  An order placed on this cart is created with
    one item per line shown.  (The subtotals of the view are sums of
    JavaScript numbers and are left out here.) *)
Theorem getCart_summary st userId c items summary regular preorder st' :
  getCart st userId = (CartFound c items summary regular preorder, st') →
  st' = st
  ∧ cart st !! userId = Some c
  ∧ items = cartLines st userId
  ∧ regular ++ preorder ≡ₚ items
  ∧ Forall (λ l, CartLine.isPreorder l = false) regular
  ∧ Forall (λ l, CartLine.isPreorder l = true) preorder
  ∧ (countsExactly items →
     CartSummary.totalItemCount summary = sumOf CartLine.quantity items
     ∧ CartSummary.regularItemCount summary = sumOf CartLine.quantity regular
     ∧ CartSummary.preorderItemCount summary
       = sumOf CartLine.quantity preorder
     ∧ CartSummary.totalItemCount summary
       = CartSummary.regularItemCount summary
         + CartSummary.preorderItemCount summary)
  ∧ ∀ req orderNumber order st2,
      createOrder st userId req orderNumber = (OrderCreated order, st2) →
      length (Order.items order) = length items.
Proof.
  unfold getCart. intros Hres.
  destruct (cart_findUnique st userId) as [[c' its]|] eqn:Hcart.
  2:{ by destruct (cart_getOrCreate st userId). }
  injection Hres as <- <- <- <- <- <-.
  assert (Hlines : cartLines st userId = its)
    by (unfold cartLines; by rewrite Hcart).
  split; [done|]. split.
  { unfold cart_findUnique in Hcart.
    destruct (cart st !! userId) as [c0|]; simpl in Hcart; [|done].
    by injection Hcart as -> _. }
  split; [done|]. split; [apply filter_split_Permutation|].
  split.
  { apply Forall_forall. intros l Hl.
    apply list_elem_of_In, filter_In in Hl as [_ Hl].
    by apply negb_true_iff. }
  split.
  { apply Forall_forall. intros l Hl.
    by apply list_elem_of_In, filter_In in Hl as [_ Hl]. }
  split.
  { intros _.
    cbn [CartSummary.totalItemCount CartSummary.regularItemCount
         CartSummary.preorderItemCount].
    rewrite !fold_left_sumOf.
    assert (Hcount := sumOf_filter_split CartLine.quantity
                        CartLine.isPreorder its).
    split; [lia|]. split; [lia|]. split; [lia | done]. }
  intros req orderNumber order st2 Hcreate.
  destruct (createOrder_store st userId req orderNumber)
    as [[Hnot _] | (c1 & items1 & m & _ & Hcart1 & _ & _ & Heq & _)].
  { exfalso. apply (Hnot order). by rewrite Hcreate. }
  rewrite Hcreate in Heq.
  assert (Horder : order = placedOrder st userId req orderNumber items1)
    by congruence.
  assert (items1 = its) as -> by congruence.
  rewrite Horder. simpl. by rewrite length_map.
Qed.

Lemma getCart_summary_witness :
  ∃ c items summary regular preorder,
    getCart shop 1 = (CartFound c items summary regular preorder, shop)
    ∧ regular = items
    ∧ preorder = []
    ∧ CartSummary.totalItemCount summary = 2.
Proof.
  eexists _, _, _, _, _. split; [reflexivity|].
  destruct (getCart_summary shop 1 _ _ _ _ _ _ eq_refl)
    as (_ & _ & _ & _ & _ & _ & Hcount & _).
  split; [reflexivity|]. split; [reflexivity|].
  apply Hcount. split.
  - constructor; [cbn; lia | constructor].
  - cbn. lia.
Defined.

Lemma filter_none {A} (p : A → bool) (l : list A) :
  (∀ x, x ∈ l → p x = false) → List.filter p l = [].
Proof.
  induction l as [|x l IH]; intros Hall; simpl; [done|].
  rewrite (Hall x) by apply list_elem_of_here.
  apply IH. intros y Hy. apply Hall. by apply list_elem_of_further.
Qed.

(** X14. Viewing a cart that does not exist.  For a user without a cart,
    in a store whose cart items all belong to a cart, the view creates the
    cart, under an id that no other cart has, and shows it without items; it
    changes nothing else.  The cart is then there: the next view finds it,
    with no lines and all totals 0, and a valid order placement is answered
    with an empty cart. *)
Theorem getCart_creates_cart st userId :
  cart_items_have_cart st →
  cart st !! userId = None →
  ∃ newCart st1,
    getCart st userId = (CartCreated newCart [], st1)
    ∧ cart st1 = <[userId := newCart]> (cart st)
    ∧ (∀ u c, cart st !! u = Some c → Cart.id c ≠ Cart.id newCart)
    ∧ st1 = (cart_getOrCreate st userId).2
    ∧ cart_items st1 = cart_items st
    ∧ inventory st1 = inventory st
    ∧ orders st1 = orders st
    ∧ getCart st1 userId
      = (CartFound newCart []
           {| CartSummary.regularSubtotal := 0;
              CartSummary.preorderSubtotal := 0;
              CartSummary.totalSubtotal := 0;
              CartSummary.regularItemCount := 0;
              CartSummary.preorderItemCount := 0;
              CartSummary.totalItemCount := 0 |} [] [], st1)
    ∧ ∀ req orderNumber,
        createOrder_valid req = true →
        createOrder st1 userId req orderNumber = (CartIsEmpty, st1).
Proof.
  intros Hfk Hnone.
  remember {| Cart.id := fresh (map (λ kv, Cart.id kv.2)
                                 (map_to_list (cart st))) |} as newCart eqn:Hnew.
  assert (Hcreate : cart_getOrCreate st userId
                    = (newCart,
                       {| products := products st;
                          product_variants := product_variants st;
                          inventory := inventory st; addresses := addresses st;
                          cart := <[userId := newCart]> (cart st);
                          cart_items := cart_items st; orders := orders st;
                          preorders := preorders st;
                          preorder_status_history := preorder_status_history st |})).
  { unfold cart_getOrCreate. by rewrite Hnone, Hnew. }
  assert (Hfresh : ∀ u c, cart st !! u = Some c → Cart.id c ≠ Cart.id newCart).
  { intros u c Hc. rewrite Hnew. by apply (fresh_cart_id st u c). }
  assert (Hempty : List.filter (λ it, CartItem.cartId it =? Cart.id newCart)
                     (cart_items st) = []).
  { apply filter_none. intros it Hit. apply Z.eqb_neq. intros Heq.
    destruct (Hfk it Hit) as (u & c & Hc & Hid).
    apply (Hfresh u c Hc). congruence. }
  eexists newCart, _.
  split.
  { assert (Hfind0 : cart_findUnique st userId = None)
      by (unfold cart_findUnique; by rewrite Hnone).
    unfold getCart. rewrite Hfind0, Hcreate. cbn [cart_items].
    by rewrite Hempty. }
  rewrite Hcreate. cbn [snd cart cart_items inventory orders].
  split; [done|]. split; [done|]. split; [done|]. split; [done|].
  split; [done|]. split; [done|].
  assert (Hfind : cart_findUnique
                    {| products := products st;
                       product_variants := product_variants st;
                       inventory := inventory st; addresses := addresses st;
                       cart := <[userId := newCart]> (cart st);
                       cart_items := cart_items st; orders := orders st;
                       preorders := preorders st;
                       preorder_status_history := preorder_status_history st |}
                    userId = Some (newCart, [])).
  { unfold cart_findUnique. cbn [cart cart_items].
    rewrite lookup_insert_eq. simpl. by rewrite Hempty. }
  split.
  - unfold getCart. by rewrite Hfind.
  - intros req orderNumber Hvalid. apply createOrder_empty; [done|].
    unfold cartLines. by rewrite Hfind.
Qed.

Lemma getCart_creates_cart_witness :
  ∃ newCart st1,
    getCart shop 2 = (CartCreated newCart [], st1)
    ∧ cart st1 !! 2 = Some newCart
    ∧ Cart.id newCart ≠ 10.
Proof.
  destruct (getCart_creates_cart shop 2 shop_cart_items_have_cart eq_refl)
    as (newCart & st1 & Hview & Hcart & Hfresh & _).
  exists newCart, st1. split; [exact Hview|]. split.
  - rewrite Hcart. apply lookup_insert_eq.
  - intros Heq. by apply (Hfresh 1 {| Cart.id := 10 |}).
Defined.

(** ** Stock summaries of a product *)

Lemma filter_length_pos {A} (p : A → bool) (l : list A) :
  (0 < length (List.filter p l))%nat ↔ ∃ x, x ∈ l ∧ p x = true.
Proof.
  induction l as [|x l IH]; simpl.
  - split; [lia | by intros (x & Hx%elem_of_nil & _)].
  - destruct (p x) eqn:Hp; simpl.
    + split; [|lia]. intros _. exists x. split; [apply list_elem_of_here | done].
    + rewrite IH. split.
      * intros (y & Hy & Hpy). exists y. split; [by apply list_elem_of_further | done].
      * intros (y & [->|Hy]%elem_of_cons & Hpy); [congruence|]. eauto.
Qed.

Lemma sumOf_nonneg {A} (f : A → Z) (l : list A) :
  Forall (λ x, 0 ≤ f x) l → 0 ≤ sumOf f l.
Proof. induction 1; simpl; lia. Qed.

Lemma sumOf_pos {A} (f : A → Z) (l : list A) :
  Forall (λ x, 0 ≤ f x) l → (0 < sumOf f l ↔ ∃ x, x ∈ l ∧ 0 < f x).
Proof.
  induction 1 as [|x l Hx Hl IH]; simpl.
  - split; [lia | by intros (x & Hx%elem_of_nil & _)].
  - assert (Hsum := sumOf_nonneg f l Hl). split.
    + intros Hpos. destruct (Z.lt_ge_cases 0 (f x)).
      * exists x. split; [apply list_elem_of_here | done].
      * destruct IH as [IH _]. destruct IH as (y & Hy & Hfy); [lia|].
        exists y. split; [by apply list_elem_of_further | done].
    + intros (y & [->|Hy]%elem_of_cons & Hfy); [lia|].
      assert (0 < sumOf f l) by (apply IH; eauto). lia.
Qed.

(** X15. The stock summary of a product is consistent.  When no variant
    has a negative quantity: the total stock is the sum of the variants'
    quantities and the available stock is the total less the reserved; the
    product has stock exactly when some variant has, that is when the count
    of variants in stock is not 0; the stock level is OUT_OF_STOCK exactly
    when the product has no stock, and IN_STOCK exactly when the total is
    above the default threshold of 10; a product flagged as low on stock has
    stock; and the variants in stock are at most as many as the variants. *)
Theorem calculateStockMetrics_consistent variants :
  Forall (λ v, 0 ≤ quantityOf v) variants →
  let metrics := calculateStockMetrics variants in
  StockMetrics.totalStock metrics = sumOf quantityOf variants
  ∧ StockMetrics.availableStock metrics
    = StockMetrics.totalStock metrics - StockMetrics.reservedStock metrics
  ∧ (StockMetrics.hasStock metrics = true
     ↔ ∃ v, v ∈ variants ∧ 0 < quantityOf v)
  ∧ (StockMetrics.hasStock metrics = true
     ↔ (0 < StockMetrics.inStockVariants metrics)%nat)
  ∧ (StockMetrics.stockLevel metrics = OUT_OF_STOCK
     ↔ StockMetrics.hasStock metrics = false)
  ∧ (StockMetrics.stockLevel metrics = IN_STOCK
     ↔ 10 < StockMetrics.totalStock metrics)
  ∧ (StockMetrics.isLowStock metrics = true
     → StockMetrics.hasStock metrics = true)
  ∧ (StockMetrics.inStockVariants metrics
     ≤ StockMetrics.variantCount metrics)%nat.
Proof.
  intros Hpos metrics. unfold metrics, calculateStockMetrics.
  cbn [StockMetrics.totalStock StockMetrics.reservedStock
       StockMetrics.availableStock StockMetrics.hasStock
       StockMetrics.isLowStock StockMetrics.stockLevel
       StockMetrics.variantCount StockMetrics.inStockVariants].
  rewrite !fold_left_sumOf, !Z.add_0_l.
  assert (Hsum := sumOf_nonneg quantityOf variants Hpos).
  assert (Hex := sumOf_pos quantityOf variants Hpos).
  split; [done|]. split; [done|].
  split; [by rewrite Z.ltb_lt|].
  split.
  { rewrite Z.ltb_lt, Hex, filter_length_pos.
    split; intros (v & Hv & Hq); exists v; (split; [done|]);
      by apply Z.ltb_lt. }
  split.
  { unfold getStockLevel. simpl.
    destruct (Z.eqb_spec (sumOf quantityOf variants) 0) as [Hz|Hz].
    - rewrite Hz. done.
    - destruct (sumOf quantityOf variants <=? 10);
        (split; [done|]); rewrite Z.ltb_ge; lia. }
  split.
  { unfold getStockLevel. simpl.
    destruct (Z.eqb_spec (sumOf quantityOf variants) 0) as [Hz|Hz].
    - split; [done | lia].
    - destruct (Z.leb_spec (sumOf quantityOf variants) 10);
        split; (done || lia). }
  split.
  { rewrite Nat.ltb_lt, filter_length_pos, Z.ltb_lt, Hex.
    intros (v & Hv & Hlow). exists v. split; [done|].
    apply andb_true_iff in Hlow as [Hq _]. by apply Z.ltb_lt. }
  apply List.filter_length_le.
Qed.

Lemma shirtViews_nonneg : Forall (λ v, 0 ≤ quantityOf v) shirtViews.
Proof. repeat constructor; vm_compute; discriminate. Qed.

Lemma calculateStockMetrics_consistent_witness :
  StockMetrics.totalStock (calculateStockMetrics shirtViews) = 0 + 4 + 12
  ∧ StockMetrics.hasStock (calculateStockMetrics shirtViews) = true
  ∧ StockMetrics.stockLevel (calculateStockMetrics shirtViews) = IN_STOCK.
Proof.
  destruct (calculateStockMetrics_consistent shirtViews shirtViews_nonneg)
    as (Htotal & _ & Hhas & _ & _ & Hlevel & _).
  split; [exact Htotal|]. split.
  - apply Hhas. exists (viewOf 71 red sizeM 4 10).
    split; [|done]. apply list_elem_of_further, list_elem_of_here.
  - apply Hlevel. rewrite Htotal. done.
Defined.

(** X16. The inventory view of a variant is consistent.  For a variant
    whose quantity is not negative, the stock level shown is OUT_OF_STOCK
    exactly when the variant is shown as not in stock, LOW_STOCK exactly
    when it is in stock and flagged low, and IN_STOCK exactly when it is in
    stock and not flagged low; the available quantity is the quantity less
    the reserved quantity; and the threshold shown is never 0, a stored 0
    or a missing inventory row being shown as 10. *)
Theorem inventoryView_consistent variant :
  0 ≤ quantityOf variant →
  let view := inventoryView variant in
  (InventoryView.stockLevel view = OUT_OF_STOCK
   ↔ InventoryView.isInStock view = false)
  ∧ (InventoryView.stockLevel view = LOW_STOCK
     ↔ InventoryView.isInStock view = true
       ∧ InventoryView.isLowStock view = true)
  ∧ (InventoryView.stockLevel view = IN_STOCK
     ↔ InventoryView.isInStock view = true
       ∧ InventoryView.isLowStock view = false)
  ∧ InventoryView.availableQuantity view
    = InventoryView.quantity view - InventoryView.reservedQuantity view
  ∧ InventoryView.lowStockThreshold view ≠ 0
  ∧ (VariantView.inventory variant = None →
     InventoryView.quantity view = 0
     ∧ InventoryView.stockLevel view = OUT_OF_STOCK
     ∧ InventoryView.lowStockThreshold view = 10).
Proof.
  intros Hpos view. unfold view, inventoryView, getStockLevel.
  cbn [InventoryView.stockLevel InventoryView.isInStock InventoryView.isLowStock
       InventoryView.availableQuantity InventoryView.quantity
       InventoryView.reservedQuantity InventoryView.lowStockThreshold default].
  unfold id.
  split; [|split; [|split; [|split; [done | split]]]].
  - destruct (Z.eqb_spec (quantityOf variant) 0) as [Hz|Hz].
    + rewrite Hz. done.
    + destruct (quantityOf variant <=? lowStockThresholdOf variant);
        (split; [done|]); rewrite Z.ltb_ge; lia.
  - destruct (Z.eqb_spec (quantityOf variant) 0) as [Hz|Hz].
    + rewrite Hz. split; [done | by intros [? _]].
    + destruct (quantityOf variant <=? lowStockThresholdOf variant).
      * split; [|done]. intros _. split; [|done]. apply Z.ltb_lt. lia.
      * split; [done | by intros [_ ?]].
  - destruct (Z.eqb_spec (quantityOf variant) 0) as [Hz|Hz].
    + rewrite Hz. split; [done | by intros [? _]].
    + destruct (quantityOf variant <=? lowStockThresholdOf variant).
      * split; [done | by intros [_ ?]].
      * split; [|done]. intros _. split; [|done]. apply Z.ltb_lt. lia.
  - unfold lowStockThresholdOf.
    destruct (VariantView.inventory variant) as [inv|]; [|done].
    by destruct (Z.eqb_spec (Inventory.lowStockThreshold inv) 0).
  - intros Hnone. unfold quantityOf, lowStockThresholdOf. by rewrite Hnone.
Qed.

Lemma inventoryView_consistent_witness :
  InventoryView.stockLevel (inventoryView (viewOf 72 blue sizeM 12 0)) = IN_STOCK
  ∧ InventoryView.lowStockThreshold (inventoryView (viewOf 72 blue sizeM 12 0))
    = 10.
Proof.
  destruct (inventoryView_consistent (viewOf 72 blue sizeM 12 0))
    as (_ & _ & Hin & _); [vm_compute; discriminate|].
  split; [by apply Hin | reflexivity].
Defined.

(** *** Sorting *)

Section Sorting.
Context {A : Type} (compare : A → A → Z) (key : A → Z).
Hypothesis compare_key : ∀ a b, 0 < compare a b ↔ key b < key a.

Lemma insertSorted_Permutation x l : insertSorted compare x l ≡ₚ x :: l.
Proof.
  induction l as [|y l IH]; simpl; [done|].
  destruct (0 <? compare x y); [|done].
  rewrite IH. apply Permutation_swap.
Qed.

Lemma sort_Permutation l : sort compare l ≡ₚ l.
Proof.
  induction l as [|x l IH]; simpl; [done|].
  rewrite insertSorted_Permutation. by constructor.
Qed.

Lemma insertSorted_sorted x l :
  StronglySorted (λ a b, key a ≤ key b) l →
  StronglySorted (λ a b, key a ≤ key b) (insertSorted compare x l).
Proof.
  induction 1 as [|y l Hl IH Hy]; simpl; [repeat constructor|].
  destruct (Z.ltb_spec 0 (compare x y)) as [Hlt|Hge].
  - apply compare_key in Hlt. constructor; [done|].
    rewrite insertSorted_Permutation. constructor; [lia | done].
  - assert (Hle : key x ≤ key y).
    { destruct (Z.lt_ge_cases (key y) (key x)) as [Hlt|]; [|lia].
      apply compare_key in Hlt. lia. }
    constructor; [by constructor|].
    constructor; [done|].
    eapply Forall_impl; [exact Hy|]. simpl. intros z Hz. lia.
Qed.

Lemma sort_sorted l : StronglySorted (λ a b, key a ≤ key b) (sort compare l).
Proof.
  induction l as [|x l IH]; simpl; [constructor|].
  by apply insertSorted_sorted.
Qed.

Lemma head_sort_least l d :
  head (sort compare l) = Some d →
  d ∈ l ∧ ∀ d', d' ∈ l → key d ≤ key d'.
Proof.
  intros Hhead. assert (Hsorted := sort_sorted l).
  assert (Hperm := sort_Permutation l).
  destruct (sort compare l) as [|x rest]; [done|].
  injection Hhead as ->. split.
  - rewrite <- Hperm. apply list_elem_of_here.
  - intros d' Hd'. rewrite <- Hperm in Hd'.
    apply StronglySorted_inv in Hsorted as [_ Hall].
    apply elem_of_cons in Hd' as [->|Hd']; [lia|].
    rewrite Forall_forall in Hall. by apply Hall.
Qed.

Lemma head_sort_None l : head (sort compare l) = None ↔ l = [].
Proof.
  assert (Hperm := sort_Permutation l). split.
  - intros Hhead. destruct (sort compare l); [|done].
    by apply Permutation_nil_l in Hperm.
  - by intros ->.
Qed.

End Sorting.

Lemma StronglySorted_filter {A} (R : A → A → Prop) (p : A → bool) l :
  StronglySorted R l → StronglySorted R (List.filter p l).
Proof.
  induction 1 as [|x l Hl IH Hx]; simpl; [constructor|].
  destruct (p x); [|done]. constructor; [done|].
  apply Forall_forall. intros y Hy.
  apply list_elem_of_In, filter_In in Hy as [Hy _].
  rewrite Forall_forall in Hx. by apply Hx, list_elem_of_In.
Qed.

(** *** Grouping the variants by color or size *)

Section GroupingProperties.
Context {A : Type} (attributeOf : VariantView.t → option A) (idOf : A → Z).

Lemma mapUpdate_keys a v (m : list (Z * Availability.t A)) k :
  k ∈ map fst (mapUpdate idOf a v m) ↔ k ∈ map fst m ∨ k = idOf a.
Proof.
  induction m as [|[k0 d0] m IH]; simpl.
  - rewrite list_elem_of_singleton. split; [by right | intros [H|H]; [|done]].
    by apply elem_of_nil in H.
  - destruct (Z.eqb_spec k0 (idOf a)) as [->|Hne]; simpl.
    + rewrite !elem_of_cons. tauto.
    + rewrite !elem_of_cons, IH. tauto.
Qed.

Lemma mapUpdate_NoDup a v (m : list (Z * Availability.t A)) :
  NoDup (map fst m) → NoDup (map fst (mapUpdate idOf a v m)).
Proof.
  induction m as [|[k0 d0] m IH]; simpl; intros Hnd.
  - apply NoDup_singleton.
  - apply NoDup_cons in Hnd as [Hk Hnd].
    destruct (Z.eqb_spec k0 (idOf a)) as [->|Hne]; simpl.
    + by apply NoDup_cons.
    + apply NoDup_cons. split; [|by apply IH].
      rewrite mapUpdate_keys. intros [H|H]; [done | congruence].
Qed.

Lemma mapUpdate_elem a v (m : list (Z * Availability.t A)) k d :
  NoDup (map fst m) →
  (k, d) ∈ mapUpdate idOf a v m →
  (k ≠ idOf a ∧ (k, d) ∈ m)
  ∨ (k = idOf a ∧ ∃ d0, d = addVariant v d0
       ∧ ((k, d0) ∈ m
          ∨ ((k ∉ map fst m)
             ∧ d0 = {| Availability.attribute := a;
                       Availability.totalStock := 0;
                       Availability.variants := [] |}))).
Proof.
  induction m as [|[k0 d0] m IH]; simpl; intros Hnd.
  - intros Hin. apply list_elem_of_singleton in Hin. injection Hin as -> ->.
    right. split; [done|].
    eexists. split; [done|]. right. split; [|done]. apply not_elem_of_nil.
  - apply NoDup_cons in Hnd as [Hk0 Hnd].
    destruct (Z.eqb_spec k0 (idOf a)) as [->|Hne].
    + intros [[= -> ->] | Hin]%elem_of_cons.
      * right. split; [done|]. exists d0. split; [done|]. left.
        apply list_elem_of_here.
      * left. split; [|by apply list_elem_of_further].
        intros ->. apply Hk0. apply list_elem_of_fmap. by exists (idOf a, d).
    + intros [[= -> ->] | Hin]%elem_of_cons.
      * left. split; [done|]. apply list_elem_of_here.
      * destruct (IH Hnd Hin) as [[Hk Hold] | (Hk & d1 & Hd & Hcase)].
        -- left. split; [done|]. by apply list_elem_of_further.
        -- right. split; [done|]. exists d1. split; [done|].
           destruct Hcase as [Hold | [Hnew Hfresh]].
           ++ left. by apply list_elem_of_further.
           ++ right. split; [|done]. subst k.
              apply not_elem_of_cons. split; [congruence | done].
Qed.

Lemma mapUpdate_total a v (m : list (Z * Availability.t A)) :
  sumOf Availability.totalStock (map snd (mapUpdate idOf a v m))
  = sumOf Availability.totalStock (map snd m) + quantityOf v.
Proof.
  induction m as [|[k0 d0] m IH]; simpl; [lia|].
  destruct (k0 =? idOf a); simpl; [lia|]. rewrite IH. lia.
Qed.

Lemma hasAttribute_Some v a k :
  attributeOf v = Some a →
  hasAttribute attributeOf idOf k v = (idOf a =? k).
Proof. intros Ha. unfold hasAttribute. by rewrite Ha. Qed.

Lemma groupedSoFar_step seen m v :
  groupedSoFar attributeOf idOf seen m →
  groupedSoFar attributeOf idOf (seen ++ [v]) (groupStep attributeOf idOf m v).
Proof.
  intros (Hnd & Hentries & Hkeys & Htotal). unfold groupStep.
  destruct (attributeOf v) as [a|] eqn:Ha.
  - split; [by apply mapUpdate_NoDup|]. split; [|split].
    + intros k d Hin.
      destruct (mapUpdate_elem a v m k d Hnd Hin)
        as [[Hk Hold] | (-> & d0 & -> & Hcase)].
      * destruct (Hentries k d Hold) as (Hid & Hvs & Hts & w & Hw & Hhas).
        rewrite List.filter_app. simpl.
        rewrite (hasAttribute_Some v a k Ha).
        destruct (Z.eqb_spec (idOf a) k); [congruence|].
        rewrite app_nil_r. split; [done|]. split; [done|]. split; [done|].
        exists w. split; [|done]. apply elem_of_app. by left.
      * rewrite List.filter_app, sumOf_app. simpl.
        rewrite (hasAttribute_Some v a _ Ha), Z.eqb_refl. simpl.
        assert (Hlast : ∃ w, w ∈ seen ++ [v]
                             ∧ hasAttribute attributeOf idOf (idOf a) w = true).
        { exists v. split; [apply elem_of_app; right; apply list_elem_of_here|].
          by rewrite (hasAttribute_Some v a _ Ha), Z.eqb_refl. }
        destruct Hcase as [Hold | [Hnew ->]].
        -- destruct (Hentries _ d0 Hold) as (Hid & Hvs & Hts & _).
           split; [done|]. split; [by rewrite Hvs|]. split; [lia | done].
        -- assert (Hnone : List.filter (hasAttribute attributeOf idOf (idOf a)) seen
                           = []).
           { apply filter_none. intros w Hw.
             destruct (hasAttribute attributeOf idOf (idOf a) w) eqn:Hhas; [|done].
             exfalso. apply Hnew. by apply (Hkeys w Hw). }
           rewrite Hnone. simpl. split; [done|]. split; [done|].
           split; [lia | done].
    + intros w Hw k Hhas. apply mapUpdate_keys.
      apply elem_of_app in Hw as [Hw | ->%list_elem_of_singleton].
      * left. by apply (Hkeys w Hw).
      * right. rewrite (hasAttribute_Some v a k Ha) in Hhas. lia.
    + rewrite mapUpdate_total, Htotal, List.filter_app, sumOf_app. simpl.
      rewrite Ha. rewrite bool_decide_eq_true_2 by (by eexists). simpl. lia.
  - split; [done|]. split; [|split].
    + intros k d Hin.
      destruct (Hentries k d Hin) as (Hid & Hvs & Hts & w & Hw & Hhas).
      rewrite List.filter_app. simpl. unfold hasAttribute at 2 4. rewrite Ha.
      rewrite app_nil_r. split; [done|]. split; [done|]. split; [done|].
      exists w. split; [|done]. apply elem_of_app. by left.
    + intros w Hw k Hhas.
      apply elem_of_app in Hw as [Hw | ->%list_elem_of_singleton].
      * by apply (Hkeys w Hw).
      * unfold hasAttribute in Hhas. by rewrite Ha in Hhas.
    + rewrite Htotal, List.filter_app, sumOf_app. simpl. rewrite Ha.
      rewrite bool_decide_eq_false_2 by (by intros [? ?]). simpl. lia.
Qed.

Lemma groupedSoFar_fold variants : ∀ seen m,
  groupedSoFar attributeOf idOf seen m →
  groupedSoFar attributeOf idOf (seen ++ variants)
    (fold_left (groupStep attributeOf idOf) variants m).
Proof.
  induction variants as [|v variants IH]; intros seen m Hinv; simpl.
  - by rewrite app_nil_r.
  - replace (seen ++ v :: variants) with ((seen ++ [v]) ++ variants)
      by (by rewrite <- app_assoc).
    apply IH. by apply groupedSoFar_step.
Qed.

Lemma groupVariants_groupsOf variants :
  groupsOf attributeOf idOf variants (groupVariants attributeOf idOf variants).
Proof.
  unfold groupVariants. fold (groupStep attributeOf idOf).
  destruct (groupedSoFar_fold variants [] []) as (Hnd & Hentries & Hkeys & Htotal).
  { split; [constructor|]. split; [by intros k d ?%elem_of_nil|].
    split; [by intros v ?%elem_of_nil | done]. }
  simpl in *.
  set (m := fold_left (groupStep attributeOf idOf) variants []) in *.
  assert (Hfst : ∀ kd, kd ∈ m → idOf (Availability.attribute kd.2) = kd.1).
  { intros [k d] Hin. by destruct (Hentries k d Hin). }
  assert (Hids : map (λ d, idOf (Availability.attribute d)) (map snd m)
                 = map fst m).
  { rewrite map_map. apply map_ext_in. intros kd Hin.
    apply Hfst. by apply list_elem_of_In. }
  split; [by rewrite Hids|]. split; [|split; [|done]].
  - intros k. split.
    + intros (d & Hd & Hid). apply list_elem_of_fmap in Hd as ([k' d'] & -> & Hin).
      destruct (Hentries k' d' Hin) as (Hid' & _ & _ & v & Hv & Hhas).
      simpl in Hid. unfold hasAttribute in Hhas.
      destruct (attributeOf v) as [a|] eqn:Ha; [|done].
      exists v, a. split; [done|]. split; [done|]. lia.
    + intros (v & a & Hv & Ha & Hid).
      assert (Hk : k ∈ map fst m).
      { apply (Hkeys v Hv). rewrite (hasAttribute_Some v a k Ha). lia. }
      apply list_elem_of_fmap in Hk as ([k' d] & -> & Hin).
      exists d. split; [apply list_elem_of_fmap; by exists (k', d)|].
      by destruct (Hentries k' d Hin).
  - intros d Hd. apply list_elem_of_fmap in Hd as ([k d'] & -> & Hin).
    destruct (Hentries k d' Hin) as (Hid & Hvs & Hts & _). simpl.
    rewrite Hid. split; [done|]. by rewrite Hvs.
Qed.

Lemma groupsOf_Permutation variants (groups groups' : list (Availability.t A)) :
  groups ≡ₚ groups' →
  groupsOf attributeOf idOf variants groups →
  groupsOf attributeOf idOf variants groups'.
Proof.
  intros Hperm (Hnd & Hids & Hentries & Htotal).
  split; [by rewrite <- Hperm|]. split; [|split].
  - intros k. rewrite <- Hids. split; intros (d & Hd & Hid); exists d;
      (split; [|done]); (by rewrite Hperm) || (by rewrite <- Hperm).
  - intros d Hd. apply Hentries. by rewrite Hperm.
  - rewrite <- Htotal. clear -Hperm.
    induction Hperm; simpl; lia.
Qed.

Lemma groupsOf_nonneg variants (groups : list (Availability.t A)) :
  Forall (λ v, 0 ≤ quantityOf v) variants →
  groupsOf attributeOf idOf variants groups →
  Forall (λ d, 0 ≤ Availability.totalStock d) groups.
Proof.
  intros Hpos (_ & _ & Hentries & _). apply Forall_forall. intros d Hd.
  destruct (Hentries d Hd) as [Hvs ->]. apply sumOf_nonneg.
  rewrite Hvs. apply Forall_forall. intros v Hv.
  apply list_elem_of_In, filter_In in Hv as [Hv _].
  rewrite Forall_forall in Hpos. by apply Hpos, list_elem_of_In.
Qed.

Lemma groupsOf_nil variants (groups : list (Availability.t A)) :
  groupsOf attributeOf idOf variants groups →
  groups = [] ↔ ∀ v, v ∈ variants → attributeOf v = None.
Proof.
  intros (_ & Hids & _ & _). split.
  - intros -> v Hv. destruct (attributeOf v) as [a|] eqn:Ha; [|done].
    destruct (Hids (idOf a)) as [_ Hex].
    destruct Hex as (d & Hd & _); [by exists v, a|].
    by apply elem_of_nil in Hd.
  - intros Hnone. destruct groups as [|d groups]; [done|].
    destruct (Hids (idOf (Availability.attribute d))) as [Hex _].
    destruct Hex as (v & a & Hv & Ha & _).
    { exists d. split; [apply list_elem_of_here | done]. }
    rewrite (Hnone v Hv) in Ha. done.
Qed.

Lemma availability_partition (groups : list (Availability.t A)) :
  Forall (λ d, 0 ≤ Availability.totalStock d) groups →
  List.filter (λ d, 0 <? Availability.totalStock d) groups
  ++ List.filter (λ d, Availability.totalStock d =? 0) groups
  ≡ₚ groups.
Proof.
  intros Hpos.
  rewrite <- (filter_split_Permutation (λ d, Availability.totalStock d =? 0) groups)
    at 3.
  f_equiv. apply Permutation_refl'.
  induction Hpos as [|d groups Hd Hpos IH]; simpl; [done|].
  rewrite IH.
  destruct (Z.ltb_spec 0 (Availability.totalStock d)),
           (Z.eqb_spec (Availability.totalStock d) 0); simpl; (done || lia).
Qed.

(** The report both helpers build from the list of entries. *)
Lemma report_of_groups variants (groups : list (Availability.t A)) :
  Forall (λ v, 0 ≤ quantityOf v) variants →
  groupsOf attributeOf idOf variants groups →
  let available :=
    List.filter (λ d, 0 <? Availability.totalStock d) groups in
  let outOfStock :=
    List.filter (λ d, Availability.totalStock d =? 0) groups in
  let mostPopular :=
    head (sort (λ a b, Availability.totalStock b - Availability.totalStock a)
               groups) in
  available ++ outOfStock ≡ₚ groups
  ∧ groupsOf attributeOf idOf variants (available ++ outOfStock)
  ∧ Forall (λ d, 0 < Availability.totalStock d) available
  ∧ Forall (λ d, Availability.totalStock d = 0) outOfStock
  ∧ (mostPopular = None ↔ ∀ v, v ∈ variants → attributeOf v = None)
  ∧ (∀ d, mostPopular = Some d →
       d ∈ available ++ outOfStock
       ∧ ∀ d', d' ∈ available ++ outOfStock →
           Availability.totalStock d' ≤ Availability.totalStock d).
Proof.
  intros Hpos Hgroups available outOfStock mostPopular.
  assert (Hperm : available ++ outOfStock ≡ₚ groups).
  { apply availability_partition. by apply (groupsOf_nonneg variants). }
  split; [done|].
  split; [by apply (groupsOf_Permutation variants groups)|].
  split.
  { apply Forall_forall. intros d Hd.
    apply list_elem_of_In, filter_In in Hd as [_ Hd]. by apply Z.ltb_lt. }
  split.
  { apply Forall_forall. intros d Hd.
    apply list_elem_of_In, filter_In in Hd as [_ Hd]. by apply Z.eqb_eq. }
  assert (Hkey : ∀ a b : Availability.t A,
            0 < Availability.totalStock b - Availability.totalStock a
            ↔ - Availability.totalStock b < - Availability.totalStock a)
    by (intros a b; lia).
  split.
  - unfold mostPopular.
    rewrite (head_sort_None _ groups). by apply groupsOf_nil.
  - intros d Hd.
    destruct (head_sort_least _ (λ d, - Availability.totalStock d) Hkey groups d Hd)
      as [Hin Hleast].
    split; [by rewrite Hperm|].
    intros d' Hd'. rewrite Hperm in Hd'. specialize (Hleast d' Hd'). lia.
Qed.

End GroupingProperties.

(** X17. The colors of a product.  When no variant has a negative
    quantity, the colors reported as available and out of stock are,
    together, the variants grouped by color: one entry per color id that
    occurs, each with the variants of that color in their order and the sum
    of their quantities as its stock, the stocks adding up to the stock of
    all variants that have a color.  Their number is the total reported; the
    available colors are those with stock and the others have none; the most
    popular color is an entry whose stock no other entry exceeds, and is
    missing exactly when no variant has a color. *)
Theorem calculateColorAvailability_groups variants :
  Forall (λ v, 0 ≤ quantityOf v) variants →
  let report := calculateColorAvailability variants in
  let colors :=
    AvailabilityReport.available report ++ AvailabilityReport.outOfStock report in
  groupsOf VariantView.color Color.id variants colors
  ∧ AvailabilityReport.total report = length colors
  ∧ Forall (λ d, 0 < Availability.totalStock d)
           (AvailabilityReport.available report)
  ∧ Forall (λ d, Availability.totalStock d = 0)
           (AvailabilityReport.outOfStock report)
  ∧ (AvailabilityReport.mostPopular report = None
     ↔ ∀ v, v ∈ variants → VariantView.color v = None)
  ∧ (∀ d, AvailabilityReport.mostPopular report = Some d →
       d ∈ colors
       ∧ ∀ d', d' ∈ colors →
           Availability.totalStock d' ≤ Availability.totalStock d).
Proof.
  intros Hpos report colors.
  assert (Hgroups := groupVariants_groupsOf VariantView.color Color.id variants).
  destruct (report_of_groups VariantView.color Color.id variants _ Hpos Hgroups)
    as (Hperm & Hof & Havailable & Hout & Hnone & Hmost).
  split; [exact Hof|]. split; [|done].
  unfold colors, report, calculateColorAvailability.
  cbn [AvailabilityReport.total AvailabilityReport.available
       AvailabilityReport.outOfStock].
  by rewrite Hperm.
Qed.

Lemma calculateColorAvailability_groups_witness :
  let report := calculateColorAvailability shirtViews in
  AvailabilityReport.total report = 2%nat
  ∧ Availability.totalStock <$> AvailabilityReport.mostPopular report = Some 12.
Proof.
  intros report.
  destruct (calculateColorAvailability_groups shirtViews shirtViews_nonneg)
    as (_ & Htotal & _).
  split; [exact Htotal | reflexivity].
Defined.

(** X18. The sizes of a product.  When no variant has a negative quantity,
    the sizes reported as available and out of stock are, together, the
    variants grouped by size, as for the colors, and each of the two lists
    is in ascending sort order of the sizes; the most popular size is an
    entry whose stock no other entry exceeds, and is missing exactly when no
    variant has a size. *)
Theorem calculateSizeAvailability_groups variants :
  Forall (λ v, 0 ≤ quantityOf v) variants →
  let report := calculateSizeAvailability variants in
  let sizes :=
    AvailabilityReport.available report ++ AvailabilityReport.outOfStock report in
  let ascending :=
    StronglySorted (λ a b, Size.sortOrder (Availability.attribute a)
                           ≤ Size.sortOrder (Availability.attribute b)) in
  groupsOf VariantView.size Size.id variants sizes
  ∧ AvailabilityReport.total report = length sizes
  ∧ ascending (AvailabilityReport.available report)
  ∧ ascending (AvailabilityReport.outOfStock report)
  ∧ Forall (λ d, 0 < Availability.totalStock d)
           (AvailabilityReport.available report)
  ∧ Forall (λ d, Availability.totalStock d = 0)
           (AvailabilityReport.outOfStock report)
  ∧ (AvailabilityReport.mostPopular report = None
     ↔ ∀ v, v ∈ variants → VariantView.size v = None)
  ∧ (∀ d, AvailabilityReport.mostPopular report = Some d →
       d ∈ sizes
       ∧ ∀ d', d' ∈ sizes →
           Availability.totalStock d' ≤ Availability.totalStock d).
Proof.
  intros Hpos report sizes ascending.
  set (bySortOrder := λ a b : Availability.t Size.t,
         Size.sortOrder (Availability.attribute a)
         - Size.sortOrder (Availability.attribute b)).
  assert (Hkey : ∀ a b, 0 < bySortOrder a b
                        ↔ Size.sortOrder (Availability.attribute b)
                          < Size.sortOrder (Availability.attribute a))
    by (intros a b; unfold bySortOrder; lia).
  set (groups := groupVariants VariantView.size Size.id variants).
  assert (Hsorted := sort_sorted bySortOrder _ Hkey groups).
  assert (Hgroups : groupsOf VariantView.size Size.id variants
                      (sort bySortOrder groups)).
  { apply (groupsOf_Permutation _ _ variants groups).
    - symmetry. apply sort_Permutation.
    - apply groupVariants_groupsOf. }
  destruct (report_of_groups VariantView.size Size.id variants _ Hpos Hgroups)
    as (Hperm & Hof & Havailable & Hout & Hnone & Hmost).
  split; [exact Hof|].
  split.
  { unfold sizes, report, calculateSizeAvailability.
    cbn [AvailabilityReport.total AvailabilityReport.available
         AvailabilityReport.outOfStock].
    fold bySortOrder groups. by rewrite Hperm. }
  split; [by apply StronglySorted_filter|].
  split; [by apply StronglySorted_filter | done].
Qed.

Lemma calculateSizeAvailability_groups_witness :
  let report := calculateSizeAvailability shirtViews in
  AvailabilityReport.total report = 2%nat
  ∧ (Size.name ∘ Availability.attribute)
    <$> AvailabilityReport.available report = ["M"]
  ∧ (Size.name ∘ Availability.attribute)
    <$> AvailabilityReport.outOfStock report = ["L"].
Proof.
  intros report.
  destruct (calculateSizeAvailability_groups shirtViews shirtViews_nonneg)
    as (_ & Htotal & _).
  split; [exact Htotal|]. split; reflexivity.
Defined.

(** ** The stores the handlers lead to *)

(** *** Preorders stay within their limits *)

Lemma cancelPreorder_store st userId now id :
  (cancelPreorder st userId now id).2 = st
  ∨ ∃ p product,
      p ∈ preorders st
      ∧ products st !! Preorder.productId p = Some product
      ∧ (cancelPreorder st userId now id).2
        = cancelledPreorderStore st now id p product.
Proof.
  destruct (preorder_findFirst_owned st id userId) as [p|] eqn:Hfind.
  - destruct (preorder_findFirst_owned_Some _ _ _ _ Hfind) as (Hin & Hid & Hu).
    destruct (preorder_findUnique_elem st p Hin) as [first Hfirst].
    rewrite Hid in Hfirst.
    destruct (activePreorder (Preorder.status p)) eqn:Hactive.
    + destruct (products st !! Preorder.productId p) as [product|] eqn:Hproduct.
      * right. exists p, product.
        by rewrite (cancelPreorder_commits _ _ _ _ _ _ _ Hfind Hactive Hfirst Hproduct).
      * left. by rewrite (cancelPreorder_rolls_back _ _ _ _ _ Hfind Hactive Hproduct).
    + left. by rewrite (cancelPreorder_refused _ _ _ _ _ Hfind Hactive).
  - left. unfold cancelPreorder. by rewrite Hfind.
Qed.

Lemma preorders_ok_same st st' :
  products st' = products st → preorders st' = preorders st →
  preorders_ok st → preorders_ok st'.
Proof.
  unfold preorders_ok, preorder_ids_unique, within_preorder_limits,
    activeQuantity.
  intros -> ->. done.
Qed.

Lemma sumOf_map_le {A} (g : A → Z) (f : A → A) (l : list A) :
  (∀ x, x ∈ l → g (f x) ≤ g x) → sumOf g (map f l) ≤ sumOf g l.
Proof.
  induction l as [|x l IH]; simpl; intros Hle; [done|].
  assert (g (f x) ≤ g x) by (apply Hle, list_elem_of_here).
  assert (sumOf g (map f l) ≤ sumOf g l).
  { apply IH. intros y Hy. by apply Hle, list_elem_of_further. }
  lia.
Qed.

Lemma Forall_map_update (P : Preorder.t → Prop) id
    (f : Preorder.t → Preorder.t) rows :
  (∀ p, P p → P (f p)) →
  Forall P rows →
  Forall P (map (λ q, if Preorder.id q =? id then f q else q) rows).
Proof.
  intros Hf Hall. apply Forall_fmap.
  eapply Forall_impl; [exact Hall|]. simpl. intros p Hp.
  destruct (Preorder.id p =? id); [by apply Hf | done].
Qed.

(** The limit of a product is the same after an increment or a decrement
    of its counter. *)
Lemma limits_after_insert (m : gmap Z Product.t) pid product product' k found :
  m !! pid = Some product →
  Product.preorderLimit product' = Product.preorderLimit product →
  <[pid := product']> m !! k = Some found →
  ∃ before, m !! k = Some before
            ∧ Product.preorderLimit found = Product.preorderLimit before.
Proof.
  intros Hpid Hlimit Hk.
  destruct (decide (k = pid)) as [->|Hne].
  - rewrite lookup_insert_eq in Hk. injection Hk as <-. by exists product.
  - rewrite lookup_insert_ne in Hk by done. by exists found.
Qed.

Lemma createPreorder_keeps_preorders_ok st userId now req :
  preorders_ok st → preorders_ok (createPreorder st userId now req).2.
Proof.
  intros (Hids & Hqty & Hlimits).
  destruct (createPreorder_outcome st userId now req)
    as [(product & (Hvalid & Hprod & _) & Hfits & ->) | [_ ->]]; [|done].
  apply product_findFirst_preorderable_Some in Hprod.
  set (pid := CreatePreorderRequest.productId req) in *.
  set (p := placedPreorder st userId req product).
  cbn [snd]. split; [|split].
  - unfold preorder_ids_unique.
    cbn [preorderedStore preorders set_products set_preorders].
    rewrite map_app. apply NoDup_app. split; [done|].
    split; [|apply NoDup_singleton].
    intros k Hk Hlast. apply list_elem_of_singleton in Hlast. subst k.
    by apply (infinite_is_fresh (map Preorder.id (preorders st))).
  - cbn [preorderedStore preorders set_products set_preorders].
    apply Forall_app. split; [done|]. constructor; [|constructor].
    apply andb_true_iff in Hvalid as [Hq _]. apply Z.leb_le in Hq.
    cbn [p placedPreorder Preorder.quantity]. lia.
  - intros k found limit Hfound Hlimit Hne.
    cbn [preorderedStore products set_products] in Hfound.
    destruct (limits_after_insert (products st) pid product
                (incrementTotalPreorders (CreatePreorderRequest.quantity req)
                                         product)
                k found Hprod eq_refl Hfound)
      as (before & Hbefore & Hsame).
    rewrite Hsame in Hlimit.
    destruct (decide (k = pid)) as [->|Hk].
    + assert (before = product) as -> by congruence.
      unfold p, pid. rewrite activeQuantity_preordered.
      by apply (limitExceeded_None st product).
    + specialize (Hlimits k before limit Hbefore Hlimit Hne).
      rewrite activeQuantity_sum in *.
      cbn [preorderedStore preorders set_products set_preorders].
      rewrite sumOf_app. simpl. unfold activeUnits at 2.
      cbn [p placedPreorder Preorder.productId]. fold pid.
      destruct (Z.eqb_spec pid k); [congruence|]. simpl. lia.
Qed.

Lemma cancelPreorder_keeps_preorders_ok st userId now id :
  preorders_ok st → preorders_ok (cancelPreorder st userId now id).2.
Proof.
  intros (Hids & Hqty & Hlimits).
  destruct (cancelPreorder_store st userId now id)
    as [-> | (p & product & Hin & Hproduct & ->)]; [done|].
  split; [|split].
  - unfold preorder_ids_unique.
    cbn [cancelledPreorderStore preorders set_products set_preorders].
    by rewrite map_update_ids.
  - cbn [cancelledPreorderStore preorders set_products set_preorders].
    by apply Forall_map_update.
  - intros k found limit Hfound Hlimit Hne.
    cbn [cancelledPreorderStore products set_products] in Hfound.
    destruct (limits_after_insert (products st) (Preorder.productId p) product
                (decrementTotalPreorders (Preorder.quantity p) product)
                k found Hproduct eq_refl Hfound)
      as (before & Hbefore & Hsame).
    rewrite Hsame in Hlimit.
    specialize (Hlimits k before limit Hbefore Hlimit Hne).
    rewrite activeQuantity_sum in *.
    cbn [cancelledPreorderStore preorders set_products set_preorders].
    etrans; [|exact Hlimits]. apply sumOf_map_le. intros q Hq.
    destruct (Preorder.id q =? id); [|done].
    unfold activeUnits. cbn [cancelData Preorder.status Preorder.productId].
    rewrite andb_false_r.
    rewrite Forall_forall in Hqty. specialize (Hqty q Hq).
    destruct (_ && _); lia.
Qed.

Lemma updatePreorderStatus_keeps_preorders_ok st userId now id req :
  preorders_ok st → preorders_ok (updatePreorderStatus st userId now id req).2.
Proof.
  intros (Hids & Hqty & Hlimits).
  destruct (updatePreorderStatus_store st userId now id req)
    as [-> | (current & Hfind & Hstep & ->)]; [done|].
  split; [|split].
  - unfold preorder_ids_unique.
    cbn [preorders set_preorder_status_history set_preorders].
    by rewrite map_update_ids.
  - cbn [preorders set_preorder_status_history set_preorders].
    by apply Forall_map_update.
  - intros k found limit Hfound Hlimit Hne.
    specialize (Hlimits k found limit Hfound Hlimit Hne).
    rewrite activeQuantity_sum in *.
    cbn [preorders set_preorder_status_history set_preorders].
    etrans; [|exact Hlimits]. apply sumOf_map_le. intros q Hq.
    destruct (Z.eqb_spec (Preorder.id q) id) as [Hid|]; [|done].
    apply preorder_findUnique_Some in Hfind as [Hcurrent Hcid].
    assert (q = current) as ->.
    { apply (NoDup_ids_eq (preorders st)); [done | done | done | congruence]. }
    unfold activeUnits. cbn [updateData Preorder.status Preorder.productId
      Preorder.quantity].
    rewrite Forall_forall in Hqty. specialize (Hqty current Hcurrent).
    apply includes_validTransitions in Hstep.
    destruct (Preorder.productId current =? k); simpl; [|done].
    inversion Hstep as [H1 H2|H1 H2|H1 H2|H1 H2|H1 H2|H1 H2|H1 H2|H1 H2];
      rewrite <- H1, <- H2 in *; simpl; lia.
Qed.

(** *** What each handler leaves of the other tables *)

Lemma cancelOrder_store st userId id :
  (cancelOrder st userId id).2 = st
  ∨ ∃ order (m : gmap Z Inventory.t),
      orders st !! id = Some order
      ∧ (cancelOrder st userId id).2 = cancelledStore st id order m
      ∧ ∀ v, m !! v = increment (net v (restoredMoves st order))
                        <$> inventory st !! v.
Proof.
  unfold cancelOrder, order_findFirst.
  destruct (orders st !! id) as [order|] eqn:Horder; simpl; [|by left].
  destruct (Order.userId order =? userId); [|by left].
  destruct (cancellable (Order.status order)); simpl; [|by left].
  unfold transaction, tx_bind, order_update. rewrite Horder.
  rewrite (forEach_moves restoreStock restoredMove).
  2:{ intros line Hline s.
      apply list_elem_of_fmap in Hline as (item & -> & _).
      apply restoreStock_move. }
  match goal with |- context [forEach moveStock ?l ?s] =>
    destruct (forEach moveStock l s) as [[[] s1]|] eqn:Hrun end; [|by left].
  right. apply moveStock_run in Hrun as (m & -> & Hm).
  by exists order, m.
Qed.

Lemma updateOrderStatus_store st id status :
  (updateOrderStatus st id status).2 = st
  ∨ ∃ order,
      orders st !! id = Some order
      ∧ (updateOrderStatus st id status).2
        = set_orders (<[id := Order.with_status status order]> (orders st)) st.
Proof.
  destruct (orders st !! id) as [order|] eqn:Horder.
  - right. exists order. by rewrite (updateOrderStatus_found _ _ _ _ Horder).
  - left. by rewrite (updateOrderStatus_missing _ _ _ Horder).
Qed.

Lemma getCart_store st userId :
  (getCart st userId).2 = st
  ∨ (getCart st userId).2 = (cart_getOrCreate st userId).2.
Proof.
  unfold getCart.
  destruct (cart_findUnique st userId) as [[c items]|]; [by left|].
  right. by destruct (cart_getOrCreate st userId).
Qed.

Lemma cart_getOrCreate_grows st userId u c :
  cart st !! u = Some c → cart (cart_getOrCreate st userId).2 !! u = Some c.
Proof.
  intros Hc. unfold cart_getOrCreate.
  destruct (cart st !! userId) as [c0|] eqn:Hown; simpl; [done|].
  rewrite lookup_insert_ne; [done | congruence].
Qed.

(** The carts and cart items add-to-cart leaves: every cart is kept, and a
    cart item is a former one, or one raised by the requested quantity, or
    a new one with that quantity, in the caller's cart. *)
Lemma addToCart_cart_tables st userId req :
  let st' := (addToCart st userId req).2 in
  (∀ u c, cart st !! u = Some c → cart st' !! u = Some c)
  ∧ ∀ it, it ∈ cart_items st' →
      it ∈ cart_items st
      ∨ (1 ≤ AddToCartRequest.quantity req
         ∧ cart st' !! userId = Some (cart_getOrCreate st userId).1
         ∧ CartItem.cartId it = Cart.id (cart_getOrCreate st userId).1
         ∧ ((∃ existing, existing ∈ cart_items st
                         ∧ CartItem.quantity it
                           = CartItem.quantity existing
                             + AddToCartRequest.quantity req)
            ∨ CartItem.quantity it = AddToCartRequest.quantity req)).
Proof.
  intros st'. unfold st'.
  destruct (cart_getOrCreate_frame st userId) as (_ & _ & _ & _ & Hc & _).
  destruct (cart_getOrCreate_cart st userId) as (Hcart & _ & _).
  destruct (addToCart_cases st userId req)
    as [(_ & _ & ->) | (product & price & Hq & _ & _ & _ & ->)].
  { split; [done | by left]. }
  assert (Hcases := putInCart_cases st userId (AddToCartRequest.productId req)
            (truthy_id (AddToCartRequest.productVariantId req))
            (default false (AddToCartRequest.isPreorder req))
            (requestedVariant st req) (AddToCartRequest.quantity req) price).
  cbv zeta in Hcases.
  destruct (find _ (cart_items st)) as [existing|] eqn:Hfind.
  - apply find_some in Hfind as Hex. destruct Hex as [Hin Hsame].
    apply sameCartLine_key in Hsame. unfold lineKey in Hsame.
    injection Hsame as Hcid _ _ _. rewrite <- list_elem_of_In in Hin.
    destruct (lacksStock _ _ _) as [[]|]; rewrite Hcases; cbn [snd];
      (split; [intros u c; apply cart_getOrCreate_grows|]).
    + intros it Hit. left. by rewrite <- Hc.
    + intros it Hit. cbn [cart_items set_cart_items] in Hit.
      apply updateFirst_elem_of in Hit as [Hold | (x & Hx & ->)]; [by left|].
      assert (x = existing) as -> by congruence.
      right. split; [done|]. split; [done|]. split; [done|]. left. by exists existing.
    + intros it Hit. left. by rewrite <- Hc.
  - rewrite Hcases. cbn [snd].
    split; [intros u c; apply cart_getOrCreate_grows|].
    intros it Hit. cbn [cart_items set_cart_items] in Hit.
    apply elem_of_app in Hit as [Hold | Hnew]; [by left|].
    apply list_elem_of_singleton in Hnew. subst it.
    right. split; [done|]. split; [done|]. split; [done|]. by right.
Qed.

Lemma addToCart_tables st userId req :
  let st' := (addToCart st userId req).2 in
  products st' = products st
  ∧ product_variants st' = product_variants st
  ∧ inventory st' = inventory st
  ∧ orders st' = orders st
  ∧ preorders st' = preorders st.
Proof.
  intros st'. unfold st'.
  destruct (cart_getOrCreate_frame st userId)
    as (Hp & Hv & Hi & _ & _ & Ho & Hpre & _).
  destruct (addToCart_store st userId req) as [-> | [rows ->]]; [done|].
  by cbn [set_cart_items products product_variants inventory orders preorders].
Qed.

Lemma getCart_tables st userId :
  let st' := (getCart st userId).2 in
  products st' = products st
  ∧ product_variants st' = product_variants st
  ∧ inventory st' = inventory st
  ∧ cart_items st' = cart_items st
  ∧ orders st' = orders st
  ∧ preorders st' = preorders st
  ∧ ∀ u c, cart st !! u = Some c → cart st' !! u = Some c.
Proof.
  intros st'. unfold st'.
  destruct (cart_getOrCreate_frame st userId)
    as (Hp & Hv & Hi & _ & Hc & Ho & Hpre & _).
  destruct (getCart_store st userId) as [-> | ->]; [done|].
  do 6 (split; [done|]). intros u c. apply cart_getOrCreate_grows.
Qed.

Lemma createPreorder_tables st userId now req :
  let st' := (createPreorder st userId now req).2 in
  product_variants st' = product_variants st
  ∧ inventory st' = inventory st
  ∧ cart st' = cart st
  ∧ cart_items st' = cart_items st
  ∧ orders st' = orders st.
Proof.
  intros st'. unfold st'.
  by destruct (createPreorder_outcome st userId now req)
    as [(product & _ & _ & ->) | [_ ->]].
Qed.

Lemma cancelPreorder_tables st userId now id :
  let st' := (cancelPreorder st userId now id).2 in
  product_variants st' = product_variants st
  ∧ inventory st' = inventory st
  ∧ cart st' = cart st
  ∧ cart_items st' = cart_items st
  ∧ orders st' = orders st.
Proof.
  intros st'. unfold st'.
  by destruct (cancelPreorder_store st userId now id)
    as [-> | (p & product & _ & _ & ->)].
Qed.

Lemma updatePreorderStatus_tables st userId now id req :
  let st' := (updatePreorderStatus st userId now id req).2 in
  product_variants st' = product_variants st
  ∧ inventory st' = inventory st
  ∧ cart st' = cart st
  ∧ cart_items st' = cart_items st
  ∧ orders st' = orders st.
Proof.
  intros st'. unfold st'.
  by destruct (updatePreorderStatus_store st userId now id req)
    as [-> | (current & _ & _ & ->)].
Qed.

Lemma cancelOrder_tables st userId id :
  let st' := (cancelOrder st userId id).2 in
  products st' = products st
  ∧ product_variants st' = product_variants st
  ∧ cart st' = cart st
  ∧ cart_items st' = cart_items st
  ∧ preorders st' = preorders st.
Proof.
  intros st'. unfold st'.
  by destruct (cancelOrder_store st userId id)
    as [-> | (order & m & _ & -> & _)].
Qed.

Lemma updateOrderStatus_tables st id status :
  let st' := (updateOrderStatus st id status).2 in
  products st' = products st
  ∧ product_variants st' = product_variants st
  ∧ inventory st' = inventory st
  ∧ cart st' = cart st
  ∧ cart_items st' = cart_items st
  ∧ preorders st' = preorders st.
Proof.
  intros st'. unfold st'.
  by destruct (updateOrderStatus_store st id status) as [-> | (order & _ & ->)].
Qed.

Lemma createOrder_tables st userId req orderNumber :
  let st' := (createOrder st userId req orderNumber).2 in
  products st' = products st
  ∧ product_variants st' = product_variants st
  ∧ cart st' = cart st
  ∧ preorders st' = preorders st
  ∧ ∀ it, it ∈ cart_items st' → it ∈ cart_items st.
Proof.
  intros st'. unfold st'.
  destruct (createOrder_store st userId req orderNumber)
    as [[_ ->] | (c & items & m & _ & _ & _ & _ & -> & _)]; [done|].
  do 4 (split; [done|]). intros it Hit.
  cbn [snd placedStore cart_items set_cart_items] in Hit.
  apply list_elem_of_In, filter_In in Hit as [Hit _]. by apply list_elem_of_In.
Qed.

(** ** Deleting a product *)

Lemma elem_of_variantIdsOf st id vid :
  vid ∈ variantIdsOf st id
  ↔ ∃ v, product_variants st !! vid = Some v ∧ ProductVariant.productId v = id.
Proof.
  unfold variantIdsOf. rewrite list_elem_of_fmap. split.
  - intros ([k v] & -> & Hin).
    apply list_elem_of_In, filter_In in Hin as [Hin Hp].
    apply list_elem_of_In, elem_of_map_to_list in Hin.
    exists v. split; [done|]. simpl in Hp. lia.
  - intros (v & Hv & Hp). exists (vid, v). split; [done|].
    apply list_elem_of_In, filter_In. split.
    + by apply list_elem_of_In, elem_of_map_to_list.
    + simpl. lia.
Qed.

Lemma refers_nil x : refers [] x = false.
Proof. by destruct x. Qed.

Lemma clearOrderVariants_nil o : clearOrderVariants [] o = o.
Proof.
  destruct o as [i u n s t sa ba pm ot items]. unfold clearOrderVariants. simpl.
  f_equal. induction items as [|it items IH]; simpl; [done|].
  rewrite IH. f_equal. destruct it. unfold clearOrderItemVariant. simpl.
  by rewrite refers_nil.
Qed.

Lemma clearPreorderVariant_nil p : clearPreorderVariant [] p = p.
Proof.
  destruct p. unfold clearPreorderVariant. simpl. by rewrite refers_nil.
Qed.

Lemma deleteVariants_nil st : deleteVariants [] st = st.
Proof.
  destruct st. unfold deleteVariants. simpl. f_equal.
  - induction cart_items0 as [|it rows IH]; simpl; [done|].
    by rewrite refers_nil, IH.
  - rewrite <- (map_fmap_id orders0) at 2. apply map_fmap_ext.
    intros k o _. apply clearOrderVariants_nil.
  - induction preorders0 as [|p rows IH]; simpl; [done|].
    by rewrite clearPreorderVariant_nil, IH.
Qed.

Lemma foldr_delete_twice {V} (m : gmap Z V) ids :
  foldr delete (foldr delete m ids) ids = foldr delete m ids.
Proof.
  apply map_eq. intros k.
  destruct (decide (k ∈ ids)) as [Hin|Hout].
  - by rewrite !lookup_foldr_delete.
  - by rewrite !lookup_foldr_delete_not_elem_of.
Qed.

Lemma orderItemsOf_elem st productId it :
  it ∈ orderItemsOf st productId
  ↔ ∃ k o, orders st !! k = Some o ∧ it ∈ Order.items o
           ∧ OrderItem.productId it = productId.
Proof.
  unfold orderItemsOf. rewrite list_elem_of_In, in_flat_map. split.
  - intros ([k o] & Hin & Hit).
    apply list_elem_of_In, elem_of_map_to_list in Hin.
    apply filter_In in Hit as [Hit Hp]. apply list_elem_of_In in Hit.
    exists k, o. split; [done|]. split; [done | lia].
  - intros (k & o & Ho & Hit & Hp). exists (k, o). split.
    + by apply list_elem_of_In, elem_of_map_to_list.
    + apply filter_In. split; [by apply list_elem_of_In | simpl; lia].
Qed.

Lemma orderItemsOf_count st productId :
  (0 <? length (orderItemsOf st productId))%nat = false
  ↔ ∀ k o it, orders st !! k = Some o → it ∈ Order.items o →
              OrderItem.productId it ≠ productId.
Proof.
  rewrite Nat.ltb_ge. split.
  - intros Hlen k o it Ho Hit Hp.
    assert (Hin : it ∈ orderItemsOf st productId)
      by (apply orderItemsOf_elem; eauto).
    destruct (orderItemsOf st productId); [by apply elem_of_nil in Hin|].
    simpl in Hlen. lia.
  - intros Hnone. destruct (orderItemsOf st productId) as [|it l] eqn:Hl;
      [simpl; lia|].
    assert (Hin : it ∈ orderItemsOf st productId)
      by (rewrite Hl; apply list_elem_of_here).
    apply orderItemsOf_elem in Hin as (k & o & Ho & Hit & Hp).
    by destruct (Hnone k o it Ho Hit).
Qed.

Lemma preorders_of_product st productId :
  existsb (λ p, Preorder.productId p =? productId) (preorders st) = false
  ↔ ∀ p, p ∈ preorders st → Preorder.productId p ≠ productId.
Proof.
  rewrite <- not_true_iff_false, existsb_exists. split.
  - intros Hnone p Hp Heq. apply Hnone. exists p.
    split; [by apply list_elem_of_In | lia].
  - intros Hall (p & Hp & Heq). apply list_elem_of_In in Hp.
    apply (Hall p Hp). lia.
Qed.

Lemma deleteProduct_missing st id permanent :
  products st !! id = None →
  deleteProduct st id permanent = (DeleteProductNotFound, st).
Proof. intros Hnone. unfold deleteProduct. by rewrite Hnone. Qed.

Lemma deleteProduct_deactivated st id product :
  products st !! id = Some product →
  deleteProduct st id false = (ProductDeactivated, deactivatedStore st id product).
Proof.
  intros Hproduct. unfold deleteProduct. rewrite Hproduct, andb_false_r.
  unfold transaction, tx_bind, productVariant_updateMany, product_update.
  cbn [products set_product_variants]. by rewrite Hproduct.
Qed.

Lemma deleteProduct_has_orders st id product :
  products st !! id = Some product →
  (0 <? length (orderItemsOf st id))%nat = true →
  deleteProduct st id true = (ProductHasOrders, st).
Proof.
  intros Hproduct Hcount. unfold deleteProduct. by rewrite Hproduct, Hcount.
Qed.

(** The three deletions of the transaction, up to the check of the
    references to the product. *)
Lemma deleteProduct_transaction st id product :
  products st !! id = Some product →
  (0 <? length (orderItemsOf st id))%nat = false →
  deleteProduct st id true
  = if existsb (λ p, Preorder.productId p =? id) (preorders st)
    then (DeleteProductFailed, st)
    else (ProductDeleted, deletedStore st id).
Proof.
  intros Hproduct Hcount. unfold deleteProduct. rewrite Hproduct, Hcount.
  cbn [andb]. unfold transaction, tx_bind, inventory_deleteMany,
    productVariant_deleteMany.
  set (ids := variantIdsOf st id).
  set (st1 := set_inventory (foldr delete (inventory st) ids) st).
  assert (Hids1 : variantIdsOf st1 id = ids) by done. rewrite Hids1.
  set (st2 := deleteVariants ids st1).
  assert (Hgone : variantIdsOf st2 id = []).
  { destruct (variantIdsOf st2 id) as [|vid l] eqn:Hl; [done|]. exfalso.
    assert (Hin : vid ∈ variantIdsOf st2 id)
      by (rewrite Hl; apply list_elem_of_here).
    apply elem_of_variantIdsOf in Hin as (v & Hv & Hp).
    cbn [st2 deleteVariants product_variants st1 set_inventory] in Hv.
    apply lookup_foldr_delete_Some in Hv as [Hout Hv].
    apply Hout. apply elem_of_variantIdsOf. eauto. }
  assert (Hcount2 : (0 <? length (orderItemsOf st2 id))%nat = false).
  { apply orderItemsOf_count. intros k o it Ho Hit.
    cbn [st2 deleteVariants orders st1 set_inventory] in Ho.
    rewrite lookup_fmap in Ho.
    destruct (orders st !! k) as [o0|] eqn:Ho0; [|done].
    injection Ho as <-. cbn [clearOrderVariants Order.items] in Hit.
    apply list_elem_of_fmap in Hit as (it0 & -> & Hit0).
    cbn [clearOrderItemVariant OrderItem.productId].
    by apply (proj1 (orderItemsOf_count st id) Hcount k o0). }
  assert (Hpre2 : existsb (λ p, Preorder.productId p =? id) (preorders st2)
                  = existsb (λ p, Preorder.productId p =? id) (preorders st)).
  { cbn [st2 deleteVariants preorders st1 set_inventory].
    induction (preorders st) as [|p rows IH]; [done|]. simpl. by rewrite IH. }
  unfold product_delete.
  replace (products st2 !! id) with (Some product) by done.
  rewrite Hcount2, Hpre2. cbn [orb].
  destruct (existsb _ (preorders st)); [done|].
  rewrite Hgone, deleteVariants_nil. f_equal.
  unfold deletedStore. fold ids.
  unfold set_products, set_cart_items, st2, deleteVariants, st1, set_inventory.
  cbn [products product_variants inventory addresses cart cart_items orders
       preorders preorder_status_history].
  by rewrite foldr_delete_twice.
Qed.

(** The store a request to delete a product leaves. *)
Lemma deleteProduct_store st id permanent :
  (deleteProduct st id permanent).2 = st
  ∨ (∃ product, products st !! id = Some product
                ∧ (deleteProduct st id permanent).2
                  = deactivatedStore st id product)
  ∨ (deleteProduct st id permanent).2 = deletedStore st id.
Proof.
  destruct (products st !! id) as [product|] eqn:Hproduct.
  2:{ left. by rewrite deleteProduct_missing. }
  destruct permanent.
  - destruct (0 <? length (orderItemsOf st id))%nat eqn:Hcount.
    + left. by rewrite (deleteProduct_has_orders _ _ product).
    + rewrite (deleteProduct_transaction _ _ product) by done.
      destruct (existsb _ _); [by left | by right; right].
  - right. left. exists product. split; [done|].
    by rewrite (deleteProduct_deactivated _ _ product).
Qed.

Lemma createOrder_answer st userId req orderNumber :
  (createOrder st userId req orderNumber).1
  = if createOrder_valid req then placementAnswer st userId req orderNumber
    else CreateOrderInvalid.
Proof.
  destruct (createOrder_valid req) eqn:Hvalid.
  2:{ by rewrite createOrder_invalid. }
  unfold placementAnswer.
  destruct (cartLines st userId) as [|l0 rest] eqn:Hitems.
  { by rewrite createOrder_empty. }
  destruct (cartLines_Some st userId l0) as [c Hcart].
  { rewrite Hitems. apply list_elem_of_here. }
  rewrite Hitems in Hcart.
  destruct (verifyStock (regularItems (l0 :: rest))) eqn:Hcheck.
  - apply verifyStock_ok in Hcheck.
    destruct (orderInsertable_decide st req orderNumber) as [Hins|Hno].
    + destruct (createOrder_commits st userId req orderNumber c (l0 :: rest)
                  Hvalid Hcart) as (m & -> & _); [done | done | done |].
      apply orderInsertable_checks in Hins as [-> ->]. done.
    + rewrite (createOrder_not_insertable _ _ _ _ c (l0 :: rest)) by done.
      rewrite orderInsertable_checks in Hno. cbn [fst].
      destruct (orderNumber_taken st orderNumber); [done|].
      destruct (address_exists st _ && address_exists st _); [|done].
      by destruct Hno.
  - by rewrite (createOrder_short _ _ _ _ c (l0 :: rest) productId).
  - by rewrite (createOrder_throws _ _ _ _ c (l0 :: rest)).
Qed.

Lemma verifyStock_mapLineVariant f items :
  verifyStock (map (mapLineVariant f) items) = verifyStock items.
Proof.
  induction items as [|line items IH]; simpl; [done|].
  destruct (CartLine.productVariant line) as [[v [inv|]]|]; simpl;
    rewrite ?IH; done.
Qed.

Lemma filter_map_lines (p : CartItem.t → bool) f items :
  List.filter (λ l, p (CartLine.item l)) (map (mapLineVariant f) items)
  = map (mapLineVariant f) (List.filter (λ l, p (CartLine.item l)) items).
Proof.
  induction items as [|line items IH]; simpl; [done|].
  destruct (p (CartLine.item line)); simpl; by rewrite IH.
Qed.

(** The answer of the order placement does not depend on what the variants
    of the cart lines are, only on their being there and on the stock. *)
Lemma placementAnswer_variants st st' f userId req orderNumber :
  cart st' = cart st →
  cart_items st' = cart_items st →
  orders st' = orders st →
  addresses st' = addresses st →
  inventory st' = inventory st →
  product_variants st' = f <$> product_variants st →
  placementAnswer st' userId req orderNumber
  = placementAnswer st userId req orderNumber.
Proof.
  intros Hc Hci Ho Ha Hi Hv.
  assert (Hlines : cartLines st' userId
                   = map (mapLineVariant f) (cartLines st userId)).
  { unfold cartLines, cart_findUnique. rewrite Hc, Hci.
    destruct (cart st !! userId) as [c|]; simpl; [|done].
    rewrite map_map. apply map_ext. intros it.
    unfold loadCartLine, mapLineVariant. simpl. f_equal.
    destruct (CartItem.productVariantId it) as [vid|]; simpl; [|done].
    rewrite Hv, Hi, lookup_fmap.
    by destruct (product_variants st !! vid). }
  unfold placementAnswer. rewrite Hlines.
  destruct (cartLines st userId) as [|l0 rest]; [done|].
  cbn [map]. set (items := l0 :: rest).
  change (mapLineVariant f l0 :: map (mapLineVariant f) rest)
    with (map (mapLineVariant f) items).
  assert (Hregular : regularItems (map (mapLineVariant f) items)
                     = map (mapLineVariant f) (regularItems items)).
  { apply (filter_map_lines (λ it, negb (CartItem.isPreorder it))). }
  rewrite Hregular, verifyStock_mapLineVariant.
  destruct (verifyStock (regularItems items)); [|done|done].
  unfold orderNumber_taken, address_exists. rewrite Ho, Ha.
  destruct (_ || _); [done|].
  f_equal. unfold placedOrder. rewrite Ho. f_equal.
  - rewrite !fold_left_sumOf. f_equal. clear.
    induction items as [|l items IH]; simpl; [done|]. by rewrite IH.
  - assert (Hpre : List.filter CartLine.isPreorder (map (mapLineVariant f) items)
                   = map (mapLineVariant f)
                       (List.filter CartLine.isPreorder items))
      by apply (filter_map_lines CartItem.isPreorder).
    by rewrite Hpre, length_map.
  - rewrite map_map. by apply map_ext.
Qed.

(** X19. Deactivating a product.  For a product that exists, the route
    without [permanent=true] answers that the product is deactivated.  In
    the store it leaves, the product is inactive and keeps its other
    columns; every variant of the product is inactive and keeps its
    product and price; the other products and the variants of other
    products are as they were; and nothing else in the store changes, the
    stock, the carts and the preorders included.  In that store the
    product can be put in no cart and be preordered by no one, each such
    request being answered with a not-found answer (or as invalid) and
    changing nothing.  But the lines that carts already hold for it stay,
    and order placement answers every request exactly as it would have
    before the deactivation. *)
Theorem deleteProduct_deactivates st id product :
  products st !! id = Some product →
  let st' := (deleteProduct st id false).2 in
  (deleteProduct st id false).1 = ProductDeactivated
  ∧ (∃ after,
       products st' !! id = Some after
       ∧ Product.isActive after = false
       ∧ Product.basePrice after = Product.basePrice product
       ∧ Product.allowPreorder after = Product.allowPreorder product
       ∧ Product.preorderPrice after = Product.preorderPrice product
       ∧ Product.expectedStockDate after = Product.expectedStockDate product
       ∧ Product.preorderLimit after = Product.preorderLimit product
       ∧ Product.totalPreorders after = Product.totalPreorders product)
  ∧ (∀ k, k ≠ id → products st' !! k = products st !! k)
  ∧ (∀ vid v, product_variants st !! vid = Some v →
       ∃ after,
         product_variants st' !! vid = Some after
         ∧ ProductVariant.productId after = ProductVariant.productId v
         ∧ ProductVariant.price after = ProductVariant.price v
         ∧ (ProductVariant.productId v = id →
            ProductVariant.isActive after = false)
         ∧ (ProductVariant.productId v ≠ id → after = v))
  ∧ (∀ vid, product_variants st !! vid = None →
       product_variants st' !! vid = None)
  ∧ inventory st' = inventory st
  ∧ addresses st' = addresses st
  ∧ cart st' = cart st
  ∧ cart_items st' = cart_items st
  ∧ orders st' = orders st
  ∧ preorders st' = preorders st
  ∧ preorder_status_history st' = preorder_status_history st
  ∧ (∀ userId req,
       AddToCartRequest.productId req = id →
       addToCart st' userId req = (AddToCartInvalid, st')
       ∨ addToCart st' userId req = (CartProductNotFound, st'))
  ∧ (∀ userId now req,
       CreatePreorderRequest.productId req = id →
       createPreorder st' userId now req = (CreatePreorderInvalid, st')
       ∨ createPreorder st' userId now req = (PreorderNotAllowed, st'))
  ∧ (∀ userId req orderNumber,
       (createOrder st' userId req orderNumber).1
       = (createOrder st userId req orderNumber).1).
Proof.
  intros Hproduct st'. unfold st'.
  rewrite (deleteProduct_deactivated _ _ _ Hproduct). cbn [fst snd].
  split; [done|].
  assert (Hgone : products (deactivatedStore st id product) !! id
                  = Some (deactivateProduct product)).
  { cbn [deactivatedStore products set_products]. apply lookup_insert_eq. }
  split.
  { exists (deactivateProduct product). split; [exact Hgone|].
    by repeat split. }
  split.
  { intros k Hk. cbn [deactivatedStore products set_products].
    by rewrite lookup_insert_ne. }
  split.
  { intros vid v Hv.
    cbn [deactivatedStore product_variants set_products set_product_variants].
    rewrite lookup_fmap, Hv. cbn [fmap option_fmap option_map].
    eexists. split; [done|].
    destruct (Z.eqb_spec (ProductVariant.productId v) id) as [Hid|Hid].
    - by repeat split.
    - by repeat split. }
  split.
  { intros vid Hnone.
    cbn [deactivatedStore product_variants set_products set_product_variants].
    by rewrite lookup_fmap, Hnone. }
  do 7 (split; [done|]).
  split; [|split].
  - intros userId req Hid. unfold addToCart.
    destruct (1 <=? AddToCartRequest.quantity req); simpl; [|by left].
    right. unfold product_findFirst_active. by rewrite Hid, Hgone.
  - intros userId now req Hid. unfold createPreorder.
    destruct (createPreorder_valid req); simpl; [|by left].
    right. unfold product_findFirst_preorderable. by rewrite Hid, Hgone.
  - intros userId req orderNumber. rewrite !createOrder_answer.
    destruct (createOrder_valid req); [|done].
    by apply (placementAnswer_variants st _
                (λ v, if ProductVariant.productId v =? id
                      then deactivateVariant v else v)).
Qed.

Lemma deleteProduct_deactivates_witness :
  let st' := (deleteProduct shop 7 false).2 in
  (deleteProduct shop 7 false).1 = ProductDeactivated
  ∧ (∃ after, product_variants st' !! 70 = Some after
              ∧ ProductVariant.isActive after = false)
  ∧ addToCart st' 1 (moreShirts 1) = (CartProductNotFound, st')
  ∧ (createOrder st' 1 checkout "ORD-1767225600000-K3X9A").1
    = (createOrder shop 1 checkout "ORD-1767225600000-K3X9A").1.
Proof.
  intros st'.
  destruct (deleteProduct_deactivates shop 7 shirt eq_refl)
    as (Hanswer & _ & _ & Hvariants & _ & _ & _ & _ & _ & _ & _ & _ & Hadd
        & _ & Horder).
  split; [exact Hanswer|].
  split.
  { destruct (Hvariants 70 shirtM eq_refl) as (after & Hafter & _ & _ & Hoff & _).
    exists after. split; [exact Hafter | by apply Hoff]. }
  split; [|apply Horder].
  destruct (Hadd 1 (moreShirts 1) eq_refl) as [Hinvalid | Hnotfound];
    [discriminate Hinvalid | exact Hnotfound].
Defined.

Lemma refers_variantIdsOf st id x :
  refers (variantIdsOf st id) x = true
  ↔ ∃ vid, x = Some vid ∧ variantOf st id vid.
Proof.
  destruct x as [vid|]; simpl.
  - rewrite bool_decide_eq_true, elem_of_variantIdsOf. split.
    + intros Hv. by exists vid.
    + by intros (w & [= <-] & Hv).
  - split; [done | by intros (vid & ? & _)].
Qed.

(** X20. Deleting a product for good.  With [permanent=true] the route
    answers not found for a product that does not exist; it refuses, and
    changes nothing, when an order item references the product; and when
    none does but a preorder references the product, the deletion is
    rejected by the database and rolled back, with the failure answer.
    Otherwise the product is deleted: it is gone with its variants and
    their inventory rows, and no cart holds a line for it or for one of its
    variants any more, while every other product, variant, inventory row
    and cart item is as before; the carts and addresses are untouched;
    orders and preorders stay, having lost only their references to the
    deleted variants. *)
Theorem deleteProduct_permanently st id :
  let result := deleteProduct st id true in
  let inOrders :=
    ∃ k o it, orders st !! k = Some o ∧ it ∈ Order.items o
              ∧ OrderItem.productId it = id in
  let inPreorders := ∃ p, p ∈ preorders st ∧ Preorder.productId p = id in
  (products st !! id = None → result = (DeleteProductNotFound, st))
  ∧ (is_Some (products st !! id) → inOrders →
     result = (ProductHasOrders, st))
  ∧ (is_Some (products st !! id) → ¬ inOrders → inPreorders →
     result = (DeleteProductFailed, st))
  ∧ (is_Some (products st !! id) → ¬ inOrders → ¬ inPreorders →
     result.1 = ProductDeleted
     ∧ products result.2 = delete id (products st)
     ∧ (∀ vid, variantOf st id vid →
          product_variants result.2 !! vid = None
          ∧ inventory result.2 !! vid = None)
     ∧ (∀ vid, ¬ variantOf st id vid →
          product_variants result.2 !! vid = product_variants st !! vid
          ∧ inventory result.2 !! vid = inventory st !! vid)
     ∧ (∀ it, it ∈ cart_items result.2
              ↔ it ∈ cart_items st
                ∧ CartItem.productId it ≠ id
                ∧ ∀ vid, CartItem.productVariantId it = Some vid →
                         ¬ variantOf st id vid)
     ∧ cart result.2 = cart st
     ∧ addresses result.2 = addresses st
     ∧ (∀ k, orders result.2 !! k
             = clearOrderVariants (variantIdsOf st id) <$> orders st !! k)
     ∧ preorders result.2
       = map (clearPreorderVariant (variantIdsOf st id)) (preorders st)
     ∧ preorder_status_history result.2 = preorder_status_history st).
Proof.
  intros result inOrders inPreorders. unfold result.
  assert (Hcount : (0 <? length (orderItemsOf st id))%nat = false ↔ ¬ inOrders).
  { rewrite orderItemsOf_count. unfold inOrders. split.
    - intros Hnone (k & o & it & Ho & Hit & Hp). by apply (Hnone k o it).
    - intros Hnone k o it Ho Hit Hp. apply Hnone. eauto 6. }
  assert (Hpre : existsb (λ p, Preorder.productId p =? id) (preorders st) = false
                 ↔ ¬ inPreorders).
  { rewrite preorders_of_product. unfold inPreorders. split.
    - intros Hnone (p & Hp & Heq). by apply (Hnone p).
    - intros Hnone p Hp Heq. apply Hnone. eauto. }
  split; [by apply deleteProduct_missing|].
  split.
  { intros [product Hproduct] Hin.
    apply (deleteProduct_has_orders _ _ product Hproduct).
    apply not_false_is_true. intros Hc. by apply Hcount in Hc. }
  split.
  { intros [product Hproduct] Hno Hin. apply Hcount in Hno.
    rewrite (deleteProduct_transaction _ _ product Hproduct Hno).
    assert (He : existsb (λ p, Preorder.productId p =? id) (preorders st) = true).
    { apply not_false_is_true. intros He. by apply Hpre in He. }
    by rewrite He. }
  intros [product Hproduct] Hno Hnopre.
  apply Hcount in Hno. apply Hpre in Hnopre.
  rewrite (deleteProduct_transaction _ _ product Hproduct Hno), Hnopre.
  cbn [fst snd deletedStore products product_variants inventory cart addresses
       cart_items orders preorders preorder_status_history].
  split; [done|]. split; [done|].
  split.
  { intros vid Hv. apply elem_of_variantIdsOf in Hv.
    by rewrite !lookup_foldr_delete. }
  split.
  { intros vid Hv.
    assert (Hout : vid ∉ variantIdsOf st id)
      by (intros Hin; by apply Hv, elem_of_variantIdsOf).
    by rewrite !lookup_foldr_delete_not_elem_of. }
  split.
  { intros it. rewrite !list_elem_of_In, !filter_In, !negb_true_iff.
    rewrite <- not_true_iff_false, refers_variantIdsOf, Z.eqb_neq.
    split.
    - intros [[Hin Hnv] Hnp]. split; [done|]. split; [done|].
      intros vid Hvid Hv. apply Hnv. eauto.
    - intros (Hin & Hnp & Hnv). split; [|done]. split; [done|].
      intros (vid & Hvid & Hv). by apply (Hnv vid). }
  split; [done|]. split; [done|].
  split; [intros k; apply lookup_fmap | done].
Qed.

Lemma deleteProduct_permanently_witness :
  (deleteProduct shop 7 true).1 = ProductDeleted
  ∧ products (deleteProduct shop 7 true).2 !! 7 = None
  ∧ inventory (deleteProduct shop 7 true).2 !! 70 = None
  ∧ cart_items (deleteProduct shop 7 true).2 = [].
Proof.
  destruct (deleteProduct_permanently shop 7) as (_ & _ & _ & Hdeleted).
  destruct Hdeleted as (Hanswer & Hproducts & Hgone & _).
  - by eexists.
  - intros (k & o & it & Ho & _). unfold shop in Ho. cbn [orders] in Ho.
    by rewrite lookup_empty in Ho.
  - intros (p & Hp & _). by apply elem_of_nil in Hp.
  - split; [exact Hanswer|]. split; [|split].
    + rewrite Hproducts. apply lookup_delete_eq.
    + apply Hgone. exists shirtM. split; reflexivity.
    + reflexivity.
Defined.

(** *** Deleting a product keeps the stores in order *)

Lemma filter_sublist_of {A} (p : A → bool) (l : list A) :
  sublist (List.filter p l) l.
Proof.
  induction l as [|x l IH]; simpl; [constructor|].
  destruct (p x); by constructor.
Qed.

Lemma deleteProduct_keeps_cart_wf st id permanent :
  cart_wf st → cart_wf (deleteProduct st id permanent).2.
Proof.
  intros [Huniq Hmatch].
  destruct (deleteProduct_store st id permanent)
    as [-> | [(product & _ & ->) | ->]]; [done | |].
  - split; [done|]. intros it vid Hin Hpre Hvid.
    destruct (Hmatch it vid Hin Hpre Hvid) as (v & Hv & Hp).
    cbn [deactivatedStore product_variants set_products set_product_variants].
    rewrite lookup_fmap, Hv. simpl. eexists. split; [done|].
    by destruct (ProductVariant.productId v =? id).
  - split.
    + unfold cart_lines_unique. cbn [deletedStore cart_items].
      eapply sublist_NoDup; [exact Huniq|].
      apply (fmap_sublist lineKey).
      etrans; apply filter_sublist_of.
    + intros it vid Hin Hpre Hvid. cbn [deletedStore cart_items] in Hin.
      apply list_elem_of_In, filter_In in Hin as [Hin _].
      apply filter_In in Hin as [Hin Hrefers]. apply list_elem_of_In in Hin.
      destruct (Hmatch it vid Hin Hpre Hvid) as (v & Hv & Hp).
      exists v. split; [|done]. cbn [deletedStore product_variants].
      rewrite lookup_foldr_delete_not_elem_of; [done|].
      intros Hgone. rewrite Hvid in Hrefers. simpl in Hrefers.
      by rewrite bool_decide_eq_true_2 in Hrefers.
Qed.

Lemma deleteProduct_cart_items st id permanent it :
  it ∈ cart_items (deleteProduct st id permanent).2 → it ∈ cart_items st.
Proof.
  destruct (deleteProduct_store st id permanent)
    as [-> | [(product & _ & ->) | ->]]; [done | done |].
  cbn [deletedStore cart_items]. intros Hin.
  apply list_elem_of_In, filter_In in Hin as [Hin _].
  apply filter_In in Hin as [Hin _]. by apply list_elem_of_In.
Qed.

Lemma deleteProduct_cart st id permanent :
  cart (deleteProduct st id permanent).2 = cart st.
Proof.
  by destruct (deleteProduct_store st id permanent)
    as [-> | [(product & _ & ->) | ->]].
Qed.

Lemma deleteProduct_keeps_carts_ok st id permanent :
  carts_ok st → carts_ok (deleteProduct st id permanent).2.
Proof.
  intros [Hwf Hfk]. split; [by apply deleteProduct_keeps_cart_wf|].
  intros it Hit. rewrite deleteProduct_cart.
  by apply Hfk, (deleteProduct_cart_items st id permanent).
Qed.

Lemma deleteProduct_keeps_stock_safe st id permanent :
  stock_safe st → stock_safe (deleteProduct st id permanent).2.
Proof.
  intros (Hpos & Hwf & Hcq & Hoq).
  split; [|split; [by apply deleteProduct_keeps_cart_wf | split]].
  - destruct (deleteProduct_store st id permanent)
      as [-> | [(product & _ & ->) | ->]]; [done | done |].
    intros vid row Hrow. cbn [deletedStore inventory] in Hrow.
    apply lookup_foldr_delete_Some in Hrow as [_ Hrow]. by apply (Hpos vid).
  - apply Forall_forall. intros it Hit.
    apply deleteProduct_cart_items in Hit.
    unfold cart_quantities_nonneg in Hcq. rewrite Forall_forall in Hcq.
    by apply Hcq.
  - destruct (deleteProduct_store st id permanent)
      as [-> | [(product & _ & ->) | ->]]; [done | done |].
    intros k o Ho. cbn [deletedStore orders] in Ho.
    rewrite lookup_fmap in Ho.
    destruct (orders st !! k) as [o0|] eqn:Ho0; [|done].
    injection Ho as <-. cbn [clearOrderVariants Order.items].
    apply Forall_fmap. specialize (Hoq k o0 Ho0).
    eapply Forall_impl; [exact Hoq | done].
Qed.

Lemma activeUnits_clearPreorderVariant ids productId rows :
  sumOf (activeUnits productId) (map (clearPreorderVariant ids) rows)
  = sumOf (activeUnits productId) rows.
Proof. induction rows as [|p rows IH]; simpl; [done|]. by rewrite IH. Qed.

Lemma deleteProduct_keeps_preorders_ok st id permanent :
  preorders_ok st → preorders_ok (deleteProduct st id permanent).2.
Proof.
  intros (Hids & Hqty & Hlimits).
  destruct (deleteProduct_store st id permanent)
    as [-> | [(product & Hproduct & ->) | ->]]; [done | |].
  - split; [done|]. split; [done|].
    intros k found limit Hfound Hlimit Hne.
    cbn [deactivatedStore products set_products set_product_variants] in Hfound.
    destruct (limits_after_insert (products st) id product
                (deactivateProduct product) k found Hproduct eq_refl Hfound)
      as (before & Hbefore & Hsame).
    rewrite Hsame in Hlimit.
    exact (Hlimits k before limit Hbefore Hlimit Hne).
  - split; [|split].
    + unfold preorder_ids_unique. cbn [deletedStore preorders].
      by rewrite map_map.
    + cbn [deletedStore preorders]. apply Forall_fmap.
      eapply Forall_impl; [exact Hqty | done].
    + intros k found limit Hfound Hlimit Hne.
      cbn [deletedStore products] in Hfound.
      apply lookup_delete_Some in Hfound as [_ Hfound].
      specialize (Hlimits k found limit Hfound Hlimit Hne).
      rewrite activeQuantity_sum in *. cbn [deletedStore preorders].
      by rewrite activeUnits_clearPreorderVariant.
Qed.

(** *** Every handler keeps the preorders in order *)

Lemma apiStep_keeps_preorders_ok st st' :
  apiStep st st' → preorders_ok st → preorders_ok st'.
Proof.
  intros Hstep Hok. destruct Hstep.
  - destruct (addToCart_tables st userId req) as (Hp & _ & _ & _ & Hpre).
    by apply (preorders_ok_same st).
  - destruct (getCart_tables st userId) as (Hp & _ & _ & _ & _ & Hpre & _).
    by apply (preorders_ok_same st).
  - destruct (createOrder_tables st userId req orderNumber)
      as (Hp & _ & _ & Hpre & _).
    by apply (preorders_ok_same st).
  - destruct (cancelOrder_tables st userId id) as (Hp & _ & _ & _ & Hpre).
    by apply (preorders_ok_same st).
  - destruct (updateOrderStatus_tables st id status)
      as (Hp & _ & _ & _ & _ & Hpre).
    by apply (preorders_ok_same st).
  - by apply createPreorder_keeps_preorders_ok.
  - by apply cancelPreorder_keeps_preorders_ok.
  - by apply updatePreorderStatus_keeps_preorders_ok.
  - by apply deleteProduct_keeps_preorders_ok.
Qed.

(** *** Every handler keeps the carts in order *)

Lemma carts_ok_same st st' :
  cart st' = cart st → cart_items st' = cart_items st →
  product_variants st' = product_variants st →
  carts_ok st → carts_ok st'.
Proof.
  unfold carts_ok, cart_wf, cart_lines_unique, regular_lines_match_variant,
    cart_items_have_cart.
  intros -> -> ->. done.
Qed.

Lemma apiStep_keeps_carts_ok st st' :
  apiStep st st' → carts_ok st → carts_ok st'.
Proof.
  intros Hstep [Hwf Hfk]. destruct Hstep.
  - split; [by apply addToCart_keeps_cart_wf|].
    destruct (addToCart_cart_tables st userId req) as [Hcarts Hrows].
    intros it Hit.
    destruct (Hrows it Hit) as [Hold | (_ & Hown & Hcid & _)].
    + destruct (Hfk it Hold) as (u & c & Hc & Hid).
      exists u, c. split; [by apply Hcarts | done].
    + by exists userId, (cart_getOrCreate st userId).1.
  - destruct (getCart_tables st userId) as (_ & Hv & _ & Hc & _ & _ & Hcarts).
    split; [by apply (cart_wf_same st)|].
    intros it Hit. rewrite Hc in Hit.
    destruct (Hfk it Hit) as (u & c & Hu & Hid).
    exists u, c. split; [by apply Hcarts | done].
  - split; [by apply createOrder_keeps_cart_wf|].
    destruct (createOrder_tables st userId req orderNumber)
      as (_ & _ & Hcart & _ & Hrows).
    intros it Hit. rewrite Hcart. by apply Hfk, Hrows.
  - destruct (cancelOrder_tables st userId id) as (_ & Hv & Hcart & Hc & _).
    by apply (carts_ok_same st).
  - destruct (updateOrderStatus_tables st id status)
      as (_ & Hv & _ & Hcart & Hc & _).
    by apply (carts_ok_same st).
  - destruct (createPreorder_tables st userId now req)
      as (Hv & _ & Hcart & Hc & _).
    by apply (carts_ok_same st).
  - destruct (cancelPreorder_tables st userId now id)
      as (Hv & _ & Hcart & Hc & _).
    by apply (carts_ok_same st).
  - destruct (updatePreorderStatus_tables st userId now id req)
      as (Hv & _ & Hcart & Hc & _).
    by apply (carts_ok_same st).
  - by apply deleteProduct_keeps_carts_ok.
Qed.

(** *** Every handler keeps the stock accounted for *)

Lemma stock_safe_same st st' :
  inventory st' = inventory st →
  cart_items st' = cart_items st →
  product_variants st' = product_variants st →
  orders st' = orders st →
  stock_safe st → stock_safe st'.
Proof.
  unfold stock_safe, inventory_nonneg, cart_wf, cart_lines_unique,
    regular_lines_match_variant, cart_quantities_nonneg,
    order_quantities_nonneg.
  intros -> -> -> ->. done.
Qed.

Lemma regularQuantity_nonneg st order v :
  Forall (λ item, 0 ≤ OrderItem.quantity item) (Order.items order) →
  0 ≤ regularQuantity st order v.
Proof.
  intros Hpos. unfold regularQuantity. apply sumOf_nonneg.
  apply Forall_forall. intros item Hitem.
  apply list_elem_of_In, filter_In in Hitem as [Hitem _].
  rewrite Forall_forall in Hpos. by apply Hpos, list_elem_of_In.
Qed.

Lemma createOrder_keeps_stock_safe st userId req orderNumber :
  stock_safe st → stock_safe (createOrder st userId req orderNumber).2.
Proof.
  intros (Hpos & Hwf & Hcq & Hoq).
  assert (Hwf' := createOrder_keeps_cart_wf st userId req orderNumber Hwf).
  destruct (createOrder_store st userId req orderNumber)
    as [[_ Hkeep] | (c & items & m & _ & Hcart & _ & Hok & Heq & Hm)].
  { by rewrite Hkeep. }
  rewrite Heq in *. cbn [snd] in *.
  assert (Hlines : cartLines st userId = items)
    by (unfold cartLines; by rewrite Hcart).
  split; [|split; [done | split]].
  - intros vid row Hrow.
    cbn [placedStore inventory set_cart_items set_inventory] in Hrow.
    assert (Huniq := cart_wf_one_line_per_variant st userId Hwf).
    rewrite <- Hlines in Hok, Hm.
    exact (placed_nonneg st userId m Huniq Hpos Hok Hm vid row Hrow).
  - unfold cart_quantities_nonneg in *.
    cbn [placedStore cart_items set_cart_items].
    apply Forall_forall. intros it Hit.
    apply list_elem_of_In, filter_In in Hit as [Hit _].
    rewrite Forall_forall in Hcq. by apply Hcq, list_elem_of_In.
  - intros id order Horder.
    cbn [placedStore orders set_cart_items set_inventory set_orders] in Horder.
    apply lookup_insert_Some in Horder as [[_ <-] | [_ Hold]];
      [|by apply (Hoq id)].
    cbn [placedOrder Order.items].
    unfold cart_findUnique in Hcart.
    destruct (cart st !! userId) as [c0|]; simpl in Hcart; [|done].
    injection Hcart as _ <-.
    apply Forall_fmap, Forall_fmap, Forall_forall. intros it Hit.
    apply list_elem_of_In, filter_In in Hit as [Hit _].
    unfold cart_quantities_nonneg in Hcq.
    rewrite Forall_forall in Hcq. by apply Hcq, list_elem_of_In.
Qed.

Lemma cancelOrder_keeps_stock_safe st userId id :
  stock_safe st → stock_safe (cancelOrder st userId id).2.
Proof.
  intros (Hpos & Hwf & Hcq & Hoq).
  destruct (cancelOrder_store st userId id)
    as [-> | (order & m & Horder & -> & Hm)]; [done|].
  split; [|split; [|split]].
  - intros vid row Hrow. cbn [cancelledStore inventory set_inventory] in Hrow.
    rewrite Hm, net_restoredMoves in Hrow.
    destruct (inventory st !! vid) as [before|] eqn:Hbefore; [|done].
    injection Hrow as <-. simpl.
    assert (0 ≤ regularQuantity st order vid)
      by (apply regularQuantity_nonneg; by apply (Hoq id)).
    specialize (Hpos vid before Hbefore). lia.
  - by apply (cart_wf_same st).
  - done.
  - intros k o Ho. cbn [cancelledStore orders set_inventory set_orders] in Ho.
    apply lookup_insert_Some in Ho as [[_ <-] | [_ Hold]];
      [exact (Hoq id order Horder) | by apply (Hoq k)].
Qed.

Lemma addToCart_keeps_stock_safe st userId req :
  stock_safe st → stock_safe (addToCart st userId req).2.
Proof.
  intros (Hpos & Hwf & Hcq & Hoq).
  destruct (addToCart_tables st userId req) as (_ & _ & Hi & Ho & _).
  destruct (addToCart_cart_tables st userId req) as [_ Hrows].
  split; [|split; [|split]].
  - unfold inventory_nonneg. by rewrite Hi.
  - by apply addToCart_keeps_cart_wf.
  - apply Forall_forall. intros it Hit.
    unfold cart_quantities_nonneg in Hcq. rewrite Forall_forall in Hcq.
    destruct (Hrows it Hit)
      as [Hold | (Hq & _ & _ & [(existing & Hex & ->) | ->])].
    + by apply Hcq.
    + specialize (Hcq existing Hex). lia.
    + lia.
  - unfold order_quantities_nonneg. by rewrite Ho.
Qed.

Lemma updateOrderStatus_keeps_stock_safe st id status :
  stock_safe st → stock_safe (updateOrderStatus st id status).2.
Proof.
  intros (Hpos & Hwf & Hcq & Hoq).
  destruct (updateOrderStatus_store st id status)
    as [-> | (order & Horder & ->)]; [done|].
  split; [done|]. split; [by apply (cart_wf_same st)|]. split; [done|].
  intros k o Ho. cbn [orders set_orders] in Ho.
  apply lookup_insert_Some in Ho as [[_ <-] | [_ Hold]];
    [exact (Hoq id order Horder) | by apply (Hoq k)].
Qed.

Lemma apiStep_keeps_stock_safe st st' :
  apiStep st st' → stock_safe st → stock_safe st'.
Proof.
  intros Hstep Hok. destruct Hstep.
  - by apply addToCart_keeps_stock_safe.
  - destruct (getCart_tables st userId) as (_ & Hv & Hi & Hc & Ho & _).
    by apply (stock_safe_same st).
  - by apply createOrder_keeps_stock_safe.
  - by apply cancelOrder_keeps_stock_safe.
  - by apply updateOrderStatus_keeps_stock_safe.
  - destruct (createPreorder_tables st userId now req)
      as (Hv & Hi & _ & Hc & Ho).
    by apply (stock_safe_same st).
  - destruct (cancelPreorder_tables st userId now id)
      as (Hv & Hi & _ & Hc & Ho).
    by apply (stock_safe_same st).
  - destruct (updatePreorderStatus_tables st userId now id req)
      as (Hv & Hi & _ & Hc & Ho).
    by apply (stock_safe_same st).
  - by apply deleteProduct_keeps_stock_safe.
Qed.

(** X21. Stock never goes negative.  Take a store in which no stock count
    is negative, the cart table has one row per cart, product, variant and
    preorder flag with regular rows naming their variant's product, and no
    cart or order quantity is negative.  Every sequence of requests to the
    handlers, adding to carts, viewing them, placing and cancelling orders,
    setting order statuses, placing, cancelling and updating preorders,
    deactivating and deleting products, in any order and with any answers,
    leads to a store of the same kind: no stock count is ever negative. *)
Theorem api_keeps_stock_nonneg st st' :
  rtc apiStep st st' →
  stock_safe st →
  stock_safe st' ∧ inventory_nonneg st'.
Proof.
  intros Hsteps Hsafe.
  assert (Hsafe' : stock_safe st').
  { induction Hsteps as [|st0 st1 st2 Hstep _ IH]; [done|].
    apply IH. by apply (apiStep_keeps_stock_safe st0). }
  split; [done | by destruct Hsafe'].
Qed.

(** X22. Carts keep one line per variant.  Take a store in which the cart
    table has one row per cart, product, variant and preorder flag, regular
    rows name their variant's product, and every row belongs to a cart.
    Every sequence of requests to the handlers leads to a store of the same
    kind, in which the cart of every user has at most one regular line per
    variant, as the stock check of the order placement needs. *)
Theorem api_keeps_carts_ok st st' :
  rtc apiStep st st' →
  carts_ok st →
  carts_ok st' ∧ ∀ userId, one_line_per_variant st' userId.
Proof.
  intros Hsteps Hok.
  assert (Hok' : carts_ok st').
  { induction Hsteps as [|st0 st1 st2 Hstep _ IH]; [done|].
    apply IH. by apply (apiStep_keeps_carts_ok st0). }
  split; [done|]. intros userId.
  apply cart_wf_one_line_per_variant. by destruct Hok'.
Qed.

(** X23. Preorders never exceed the limit.  Take a store in which the ids
    of the preorders are unique, no preorder has a negative quantity, and
    for every product with a preorder limit (set and not 0) the units on
    its PENDING and CONFIRMED preorders are within the limit.  Every
    sequence of requests to the handlers leads to a store of the same kind:
    placements are refused before the limit would be passed, and neither
    cancellations nor status updates bring units back under a limit they
    had left. *)
Theorem api_keeps_preorder_limits st st' :
  rtc apiStep st st' →
  preorders_ok st →
  preorders_ok st' ∧ within_preorder_limits st'.
Proof.
  intros Hsteps Hok.
  assert (Hok' : preorders_ok st').
  { induction Hsteps as [|st0 st1 st2 Hstep _ IH]; [done|].
    apply IH. by apply (apiStep_keeps_preorders_ok st0). }
  split; [done | by destruct Hok' as (_ & _ & ?)].
Qed.

Lemma shop_stock_safe : stock_safe shop.
Proof.
  split; [exact shop_inventory_nonneg|]. split; [exact shop_cart_wf|].
  split.
  - repeat constructor. simpl. lia.
  - intros id order Horder. unfold shop in Horder. cbn [orders] in Horder.
    by rewrite lookup_empty in Horder.
Qed.

Lemma api_keeps_stock_nonneg_witness :
  inventory_nonneg
    (cancelOrder (createOrder shop 1 checkout "ORD-1767225600000-K3X9A").2 1 1).2.
Proof.
  destruct (api_keeps_stock_nonneg shop
              (cancelOrder
                 (createOrder shop 1 checkout "ORD-1767225600000-K3X9A").2 1 1).2)
    as [_ Hnonneg].
  - eapply rtc_l; [apply step_createOrder|]. apply rtc_once, step_cancelOrder.
  - exact shop_stock_safe.
  - exact Hnonneg.
Defined.

Lemma shop_carts_ok : carts_ok shop.
Proof. split; [exact shop_cart_wf | exact shop_cart_items_have_cart]. Qed.

Lemma api_keeps_carts_ok_witness :
  one_line_per_variant
    (addToCart (getCart shop 2).2 1 (moreShirts 1)).2 1.
Proof.
  destruct (api_keeps_carts_ok shop
              (addToCart (getCart shop 2).2 1 (moreShirts 1)).2)
    as [_ Hone].
  - eapply rtc_l; [apply step_getCart|]. apply rtc_once, step_addToCart.
  - exact shop_carts_ok.
  - apply Hone.
Defined.

Lemma busyShop_preorders_ok : preorders_ok busyShop.
Proof.
  split; [exact busyShop_ids_unique|]. split.
  - repeat constructor. simpl. lia.
  - intros productId product limit Hproduct Hlimit _.
    unfold busyShop, shop in Hproduct.
    cbn [products set_preorders] in Hproduct.
    apply lookup_insert_Some in Hproduct as [[<- <-] | [_ Hproduct]]; [done|].
    apply lookup_singleton_Some in Hproduct as [<- <-].
    injection Hlimit as <-. vm_compute. discriminate.
Qed.

Lemma api_keeps_preorder_limits_witness :
  within_preorder_limits
    (cancelPreorder
       (createPreorder busyShop 1 1767225600000 (preorderOf 10 None)).2
       2 1767229200000 1).2.
Proof.
  destruct (api_keeps_preorder_limits busyShop
              (cancelPreorder
                 (createPreorder busyShop 1 1767225600000 (preorderOf 10 None)).2
                 2 1767229200000 1).2)
    as [_ Hwithin].
  - eapply rtc_l; [apply step_createPreorder|].
    apply rtc_once, step_cancelPreorder.
  - exact busyShop_preorders_ok.
  - exact Hwithin.
Defined.

(** *** The status history only grows *)

Lemma apiStep_history st st' :
  apiStep st st' →
  preorder_status_history st' = preorder_status_history st
  ∨ ∃ record,
      preorder_status_history st' = preorder_status_history st ++ [record]
      ∧ specPreorderTransition (PreorderStatusHistory.fromStatus record)
                               (PreorderStatusHistory.toStatus record).
Proof.
  intros Hstep. destruct Hstep.
  - left. destruct (cart_getOrCreate_frame st userId)
      as (_ & _ & _ & _ & _ & _ & _ & Hh).
    by destruct (addToCart_store st userId req) as [-> | [rows ->]].
  - left. destruct (cart_getOrCreate_frame st userId)
      as (_ & _ & _ & _ & _ & _ & _ & Hh).
    by destruct (getCart_store st userId) as [-> | ->].
  - left. by destruct (createOrder_store st userId req orderNumber)
      as [[_ ->] | (c & items & m & _ & _ & _ & _ & -> & _)].
  - left. by destruct (cancelOrder_store st userId id)
      as [-> | (order & m & _ & -> & _)].
  - left. by destruct (updateOrderStatus_store st id status)
      as [-> | (order & _ & ->)].
  - left. by destruct (createPreorder_outcome st userId now req)
      as [(product & _ & _ & ->) | [_ ->]].
  - left. by destruct (cancelPreorder_store st userId now id)
      as [-> | (p & product & _ & _ & ->)].
  - destruct (updatePreorderStatus_store st userId now id req)
      as [-> | (current & _ & Hvalid & ->)]; [by left|].
    right. eexists. split; [done|]. by apply includes_validTransitions.
  - left. by destruct (deleteProduct_store st id permanent)
      as [-> | [(product & _ & ->) | ->]].
Qed.

(** X24. The status history is append-only.  Whatever sequence of requests
    the handlers serve, the status history afterwards is the history before
    followed by new records: no record is ever changed or removed.  Every
    new record goes from a status to one of its successors in the
    transition table, and only the admin update of a preorder's status
    writes one; a customer's cancellation of a preorder leaves no record. *)
Theorem api_appends_history st st' :
  rtc apiStep st st' →
  ∃ records,
    preorder_status_history st' = preorder_status_history st ++ records
    ∧ Forall (λ record,
                specPreorderTransition
                  (PreorderStatusHistory.fromStatus record)
                  (PreorderStatusHistory.toStatus record)) records.
Proof.
  induction 1 as [st|st0 st1 st2 Hstep _ (records & Hrecords & Hvalid)].
  - exists []. split; [by rewrite app_nil_r | constructor].
  - destruct (apiStep_history st0 st1 Hstep) as [Hsame | (record & Hone & Hok)].
    + exists records. split; [by rewrite Hrecords, Hsame | done].
    + exists (record :: records). split; [|by constructor].
      rewrite Hrecords, Hone. by rewrite <- app_assoc.
Qed.

Lemma api_appends_history_witness :
  ∃ record,
    preorder_status_history
      (cancelPreorder
         (updatePreorderStatus busyShop 9 1767225600000 1
            (statusRequest PreorderStatus.READY)).2
         2 1767229200000 1).2
    = [record]
    ∧ PreorderStatusHistory.fromStatus record = PreorderStatus.CONFIRMED
    ∧ PreorderStatusHistory.toStatus record = PreorderStatus.READY.
Proof.
  destruct (api_appends_history busyShop
              (cancelPreorder
                 (updatePreorderStatus busyShop 9 1767225600000 1
                    (statusRequest PreorderStatus.READY)).2
                 2 1767229200000 1).2)
    as (records & Hrecords & _).
  - eapply rtc_l; [apply step_updatePreorderStatus|].
    apply rtc_once, step_cancelPreorder.
  - eexists. split; [reflexivity|]. split; reflexivity.
Defined.

(** *** Orders stay consistent *)

Lemma orders_consistent_same st st' :
  orders st' = orders st → orders_consistent st → orders_consistent st'.
Proof. unfold orders_consistent. by intros ->. Qed.

Lemma sumOf_map {A B} (f : B → Z) (g : A → B) (l : list A) :
  sumOf f (map g l) = sumOf (λ x, f (g x)) l.
Proof. induction l as [|x l IH]; simpl; [done|]. by rewrite IH. Qed.

Lemma placedOrder_consistent st userId req orderNumber items :
  let order := placedOrder st userId req orderNumber items in
  Order.totalAmount order = sumOf OrderItem.total (Order.items order)
  ∧ Forall (λ item, OrderItem.total item
                    = OrderItem.price item * OrderItem.quantity item)
           (Order.items order)
  ∧ (Order.orderType order = OrderType.PREORDER
     ↔ ∃ item, item ∈ Order.items order ∧ OrderItem.isPreorder item = true).
Proof.
  intros order. unfold order. cbn [placedOrder Order.totalAmount Order.items
    Order.orderType].
  split; [|split].
  - rewrite fold_left_sumOf, sumOf_map. simpl. done.
  - apply Forall_fmap, Forall_forall. by intros line _.
  - assert (Htype := filter_isPreorder_length items).
    destruct (0 <? length (List.filter CartLine.isPreorder items))%nat.
    + split; [intros _ | done].
      destruct Htype as [Htype _]. destruct (Htype eq_refl) as (l & Hl & Hpre).
      exists (toOrderItem l). split; [|done].
      apply list_elem_of_fmap. by exists l.
    + split; [done|]. intros (item & Hitem & Hpre).
      apply list_elem_of_fmap in Hitem as (l & -> & Hl).
      assert (false = true); [|done]. apply Htype. by exists l.
Qed.

Lemma with_status_consistent st k status order :
  orders_consistent st →
  orders st !! k = Some order →
  orders_consistent
    (set_orders (<[k := Order.with_status status order]> (orders st)) st).
Proof.
  intros Hok Horder j o Ho. cbn [orders set_orders] in Ho.
  apply lookup_insert_Some in Ho as [[<- <-] | [_ Hold]]; [|by apply Hok].
  exact (Hok k order Horder).
Qed.

Lemma apiStep_keeps_orders_consistent st st' :
  apiStep st st' → orders_consistent st → orders_consistent st'.
Proof.
  intros Hstep Hok. destruct Hstep.
  - destruct (addToCart_tables st userId req) as (_ & _ & _ & Ho & _).
    by apply (orders_consistent_same st).
  - destruct (getCart_tables st userId) as (_ & _ & _ & _ & Ho & _).
    by apply (orders_consistent_same st).
  - destruct (createOrder_store st userId req orderNumber)
      as [[_ ->] | (c & items & m & _ & _ & _ & _ & -> & _)]; [done|].
    intros k o Ho.
    cbn [snd placedStore orders set_cart_items set_inventory set_orders] in Ho.
    apply lookup_insert_Some in Ho as [[<- <-] | [_ Hold]]; [|by apply Hok].
    split; [done|]. apply placedOrder_consistent.
  - destruct (cancelOrder_store st userId id)
      as [-> | (order & m & Horder & -> & _)]; [done|].
    intros k o Ho. cbn [cancelledStore orders set_inventory] in Ho.
    by apply (with_status_consistent st id OrderStatus.CANCELLED order Hok Horder k).
  - destruct (updateOrderStatus_store st id status)
      as [-> | (order & Horder & ->)]; [done|].
    by apply with_status_consistent.
  - destruct (createPreorder_tables st userId now req) as (_ & _ & _ & _ & Ho).
    by apply (orders_consistent_same st).
  - destruct (cancelPreorder_tables st userId now id) as (_ & _ & _ & _ & Ho).
    by apply (orders_consistent_same st).
  - destruct (updatePreorderStatus_tables st userId now id req)
      as (_ & _ & _ & _ & Ho).
    by apply (orders_consistent_same st).
  - destruct (deleteProduct_store st id permanent)
      as [-> | [(product & _ & ->) | ->]]; [done | done |].
    intros k o Ho. cbn [deletedStore orders] in Ho. rewrite lookup_fmap in Ho.
    destruct (orders st !! k) as [o0|] eqn:Ho0; [|done].
    injection Ho as <-.
    destruct (Hok k o0 Ho0) as (Hid & Htotal & Hitems & Htype).
    cbn [clearOrderVariants Order.id Order.totalAmount Order.items
         Order.orderType].
    split; [done|]. split; [|split].
    + by rewrite sumOf_map.
    + apply Forall_fmap. eapply Forall_impl; [exact Hitems | done].
    + rewrite Htype. split.
      * intros (item & Hitem & Hpre). exists (clearOrderItemVariant
          (variantIdsOf st id) item).
        split; [|done]. apply list_elem_of_fmap. by exists item.
      * intros (item & Hitem & Hpre).
        apply list_elem_of_fmap in Hitem as (item0 & -> & Hitem0).
        by exists item0.
Qed.

(** X25. Orders stay consistent.  Take a store in which every order is
    stored under its id, its total amount is the sum of the totals of its
    items, each item's total is its price times its quantity, and its type
    is PREORDER exactly when it has a preorder item.  Every sequence of
    requests to the handlers leads to a store of the same kind: placements
    create orders that add up, and no later request, cancellations, status
    updates and product deletions included, changes the amounts or the
    items' prices and quantities. *)
Theorem api_keeps_orders_consistent st st' :
  rtc apiStep st st' →
  orders_consistent st →
  orders_consistent st'.
Proof.
  induction 1 as [|st0 st1 st2 Hstep _ IH]; [done|].
  intros Hok. apply IH. by apply (apiStep_keeps_orders_consistent st0).
Qed.

Lemma shop_orders_consistent : orders_consistent shop.
Proof.
  intros k o Ho. unfold shop in Ho. cbn [orders] in Ho.
  by rewrite lookup_empty in Ho.
Qed.

Lemma api_keeps_orders_consistent_witness :
  ∃ order,
    orders (updateOrderStatus
              (createOrder shop 1 checkout "ORD-1767225600000-K3X9A").2
              0 OrderStatus.SHIPPED).2 !! 0
    = Some order
    ∧ Order.totalAmount order = sumOf OrderItem.total (Order.items order)
    ∧ Order.status order = OrderStatus.SHIPPED.
Proof.
  assert (Hfound :
    orders (updateOrderStatus
              (createOrder shop 1 checkout "ORD-1767225600000-K3X9A").2
              0 OrderStatus.SHIPPED).2 !! 0
    = Some (Order.with_status OrderStatus.SHIPPED
              (placedOrder shop 1 checkout "ORD-1767225600000-K3X9A"
                 [loadCartLine shop twoShirts])))
    by (vm_compute; reflexivity).
  eexists. split; [exact Hfound|].
  destruct (api_keeps_orders_consistent shop
              (updateOrderStatus
                 (createOrder shop 1 checkout "ORD-1767225600000-K3X9A").2
                 0 OrderStatus.SHIPPED).2
              (rtc_l _ _ _ _ (step_createOrder _ _ _ _)
                 (rtc_once _ _ (step_updateOrderStatus _ _ _)))
              shop_orders_consistent _ _ Hfound)
    as (_ & Htotal & _).
  split; [exact Htotal | reflexivity].
Defined.

(** *** One active preorder per user, product and variant *)

Lemma preorders_distinct_same st st' :
  preorders st' = preorders st →
  product_variants st' = product_variants st →
  preorders_distinct st → preorders_distinct st'.
Proof.
  unfold preorders_distinct, preorder_ids_unique, preorder_variants_belong,
    variantOf, one_active_preorder.
  by intros -> ->.
Qed.

Lemma createPreorder_duplicate st userId now req existing :
  preorder_findFirst_active st userId (CreatePreorderRequest.productId req)
    (truthy_id (CreatePreorderRequest.productVariantId req)) = Some existing →
  (createPreorder st userId now req).2 = st.
Proof.
  intros Hdup. unfold createPreorder.
  destruct (createPreorder_valid req); simpl; [|done].
  destruct (product_findFirst_preorderable st _) as [product|]; [|done].
  destruct (variantMissing st _ _); [done|].
  destruct (windowClosed product now); [done|].
  destruct (limitExceeded st product _ _); [done|].
  by rewrite Hdup.
Qed.

Lemma preorder_findFirst_active_None st userId productId variantId q :
  preorder_findFirst_active st userId productId variantId = None →
  q ∈ preorders st →
  activePreorder (Preorder.status q) = true →
  Preorder.userId q = userId →
  Preorder.productId q = productId →
  Preorder.productVariantId q = variantId →
  False.
Proof.
  intros Hnone Hq Hactive Hu Hp Hv. unfold preorder_findFirst_active in Hnone.
  apply list_elem_of_In in Hq.
  pose proof (find_none _ _ Hnone q Hq) as Hfalse. cbv beta in Hfalse.
  rewrite Hactive, Hu, Hp, Hv, !Z.eqb_refl in Hfalse.
  assert (Hsame : option_Z_eqb variantId variantId = true)
    by by apply option_Z_eqb_eq.
  by rewrite Hsame in Hfalse.
Qed.

Lemma variantMissing_false st productId vid :
  variantMissing st productId (Some vid) = false → variantOf st productId vid.
Proof.
  unfold variantMissing, product_variants_where, variantOf. intros Hfound.
  destruct (product_variants st !! vid) as [v|]; [|done].
  destruct (Z.eqb_spec (ProductVariant.productId v) productId) as [Hp|];
    [|done].
  by exists v.
Qed.

Lemma one_active_map (g : Preorder.t → Preorder.t) (rows : list Preorder.t) :
  (∀ p, p ∈ rows →
        Preorder.id (g p) = Preorder.id p
        ∧ sameRequest (g p) p
        ∧ (activePreorder (Preorder.status (g p)) = true →
           activePreorder (Preorder.status p) = true)) →
  (∀ p q, p ∈ rows → q ∈ rows →
          activePreorder (Preorder.status p) = true →
          activePreorder (Preorder.status q) = true →
          sameRequest p q → Preorder.id p = Preorder.id q) →
  ∀ p q, p ∈ map g rows → q ∈ map g rows →
         activePreorder (Preorder.status p) = true →
         activePreorder (Preorder.status q) = true →
         sameRequest p q → Preorder.id p = Preorder.id q.
Proof.
  intros Hg Hone p q Hp Hq Hap Haq (Hu & Hpid & Hv).
  apply list_elem_of_fmap in Hp as (p0 & -> & Hp0).
  apply list_elem_of_fmap in Hq as (q0 & -> & Hq0).
  destruct (Hg p0 Hp0) as (Hidp & (Hup & Hpp & Hvp) & Hactp).
  destruct (Hg q0 Hq0) as (Hidq & (Huq & Hpq & Hvq) & Hactq).
  rewrite Hidp, Hidq. apply Hone; [done | done | by apply Hactp | by apply Hactq |].
  repeat split; congruence.
Qed.

Lemma belong_map (g : Preorder.t → Preorder.t) st st' :
  preorders st' = map g (preorders st) →
  (∀ p, Preorder.productId (g p) = Preorder.productId p
        ∧ Preorder.productVariantId (g p) = Preorder.productVariantId p) →
  (∀ productId vid, variantOf st productId vid → variantOf st' productId vid) →
  preorder_variants_belong st → preorder_variants_belong st'.
Proof.
  intros Hrows Hg Hvariants Hbelong p vid Hp Hvid. rewrite Hrows in Hp.
  apply list_elem_of_fmap in Hp as (p0 & -> & Hp0).
  destruct (Hg p0) as [Hpid Hv]. rewrite Hpid. apply Hvariants.
  apply Hbelong; [done | congruence].
Qed.

Lemma createPreorder_keeps_preorders_distinct st userId now req :
  preorders_distinct st →
  preorders_distinct (createPreorder st userId now req).2.
Proof.
  intros (Hids & Hbelong & Hone).
  destruct (preorder_findFirst_active st userId
              (CreatePreorderRequest.productId req)
              (truthy_id (CreatePreorderRequest.productVariantId req)))
    as [existing|] eqn:Hdup.
  { by rewrite (createPreorder_duplicate _ _ _ _ existing). }
  destruct (createPreorder_outcome st userId now req)
    as [(product & (_ & _ & Hvariant & _) & _ & ->) | [_ ->]]; [|done].
  set (p := placedPreorder st userId req product).
  cbn [snd]. split; [|split].
  - unfold preorder_ids_unique.
    cbn [preorderedStore preorders set_products set_preorders].
    rewrite map_app. apply NoDup_app. split; [done|].
    split; [|apply NoDup_singleton].
    intros k Hk Hlast. apply list_elem_of_singleton in Hlast. subst k.
    by apply (infinite_is_fresh (map Preorder.id (preorders st))).
  - intros q vid Hq Hvid.
    cbn [preorderedStore preorders set_products set_preorders] in Hq.
    change (variantOf st (Preorder.productId q) vid).
    apply elem_of_app in Hq as [Hq | Hq]; [by apply Hbelong|].
    apply list_elem_of_singleton in Hq. subst q.
    cbn [p placedPreorder Preorder.productVariantId Preorder.productId] in *.
    rewrite Hvid in Hvariant. by apply variantMissing_false.
  - intros a b Ha Hb Hactive_a Hactive_b (Hu & Hpid & Hv).
    cbn [preorderedStore preorders set_products set_preorders] in Ha, Hb.
    apply elem_of_app in Ha as [Ha | Ha];
      apply elem_of_app in Hb as [Hb | Hb].
    + by apply Hone.
    + apply list_elem_of_singleton in Hb. subst b. exfalso.
      by apply (preorder_findFirst_active_None _ _ _ _ a Hdup).
    + apply list_elem_of_singleton in Ha. subst a. exfalso.
      by apply (preorder_findFirst_active_None _ _ _ _ b Hdup).
    + apply list_elem_of_singleton in Ha, Hb. by subst.
Qed.

Lemma cancelPreorder_keeps_preorders_distinct st userId now id :
  preorders_distinct st →
  preorders_distinct (cancelPreorder st userId now id).2.
Proof.
  intros (Hids & Hbelong & Hone).
  destruct (cancelPreorder_store st userId now id)
    as [-> | (p & product & _ & _ & ->)]; [done|].
  split; [|split].
  - unfold preorder_ids_unique.
    cbn [cancelledPreorderStore preorders set_products set_preorders].
    by rewrite map_update_ids.
  - eapply (belong_map _ st); [reflexivity | | done | done].
    intros q. cbv beta. by destruct (Preorder.id q =? id).
  - unfold one_active_preorder.
    cbn [cancelledPreorderStore preorders set_products set_preorders].
    apply one_active_map; [|done].
    intros q _. by destruct (Preorder.id q =? id).
Qed.

Lemma updatePreorderStatus_keeps_preorders_distinct st userId now id req :
  preorders_distinct st →
  preorders_distinct (updatePreorderStatus st userId now id req).2.
Proof.
  intros (Hids & Hbelong & Hone).
  destruct (updatePreorderStatus_store st userId now id req)
    as [-> | (current & Hfind & Hstep & ->)]; [done|].
  split; [|split].
  - unfold preorder_ids_unique.
    cbn [preorders set_preorder_status_history set_preorders].
    by rewrite map_update_ids.
  - eapply (belong_map _ st); [reflexivity | | done | done].
    intros q. cbv beta. by destruct (Preorder.id q =? id).
  - unfold one_active_preorder.
    cbn [preorders set_preorder_status_history set_preorders].
    apply one_active_map; [|done].
    intros q Hq. destruct (Z.eqb_spec (Preorder.id q) id) as [Hid|]; [|done].
    split; [done|]. split; [done|].
    apply preorder_findUnique_Some in Hfind as [Hcurrent Hcid].
    assert (q = current) as ->.
    { apply (NoDup_ids_eq (preorders st)); [done | done | done | congruence]. }
    cbn [updateData Preorder.status].
    apply includes_validTransitions in Hstep.
    destruct (Preorder.status current),
      (UpdatePreorderStatusRequest.status req); try done; inversion Hstep.
Qed.

Lemma deleteProduct_store_checked st id permanent :
  (deleteProduct st id permanent).2 = st
  ∨ (∃ product, products st !! id = Some product
                ∧ (deleteProduct st id permanent).2
                  = deactivatedStore st id product)
  ∨ ((deleteProduct st id permanent).2 = deletedStore st id
     ∧ ∀ p, p ∈ preorders st → Preorder.productId p ≠ id).
Proof.
  destruct (products st !! id) as [product|] eqn:Hproduct.
  2:{ left. by rewrite deleteProduct_missing. }
  destruct permanent.
  - destruct (0 <? length (orderItemsOf st id))%nat eqn:Hcount.
    + left. by rewrite (deleteProduct_has_orders _ _ product).
    + rewrite (deleteProduct_transaction _ _ product) by done.
      destruct (existsb _ _) eqn:Hnone; [by left|].
      right; right. split; [done|]. by apply preorders_of_product.
  - right; left. exists product. split; [done|].
    by rewrite (deleteProduct_deactivated _ _ product).
Qed.

Lemma clearPreorderVariant_other ids p :
  refers ids (Preorder.productVariantId p) = false →
  clearPreorderVariant ids p = p.
Proof.
  intros Hrefers. destruct p. unfold clearPreorderVariant.
  cbn [Preorder.productVariantId] in *. by rewrite Hrefers.
Qed.

Lemma deleteProduct_keeps_preorders_distinct st id permanent :
  preorders_distinct st →
  preorders_distinct (deleteProduct st id permanent).2.
Proof.
  intros (Hids & Hbelong & Hone).
  destruct (deleteProduct_store_checked st id permanent)
    as [-> | [(product & Hproduct & ->) | [-> Hnone]]]; [done | |].
  - split; [done|]. split; [|done].
    eapply (belong_map (λ p, p) st); [by rewrite map_id | done | | done].
    intros productId vid (v & Hv & Hp).
    unfold variantOf.
    cbn [deactivatedStore product_variants set_products set_product_variants].
    rewrite lookup_fmap, Hv. simpl.
    destruct (ProductVariant.productId v =? id); by eexists.
  - assert (Hkept : ∀ p, p ∈ preorders st →
              clearPreorderVariant (variantIdsOf st id) p = p).
    { intros p Hp. apply clearPreorderVariant_other.
      destruct (refers (variantIdsOf st id) (Preorder.productVariantId p))
        eqn:Hrefers; [|done].
      apply refers_variantIdsOf in Hrefers as (vid & Hvid & v & Hv & Hvp).
      destruct (Hbelong p vid Hp Hvid) as (w & Hw & Hwp).
      exfalso. apply (Hnone p Hp). congruence. }
    assert (Hrows : preorders (deletedStore st id) = preorders st).
    { cbn [deletedStore preorders]. rewrite <- (map_id (preorders st)) at 2.
      apply map_ext_in. intros p Hp. by apply Hkept, list_elem_of_In. }
    split; [|split].
    + unfold preorder_ids_unique. by rewrite Hrows.
    + intros p vid Hp Hvid. rewrite Hrows in Hp.
      destruct (Hbelong p vid Hp Hvid) as (v & Hv & Hvp).
      exists v. split; [|done]. cbn [deletedStore product_variants].
      rewrite lookup_foldr_delete_not_elem_of; [done|].
      intros Hin. apply elem_of_variantIdsOf in Hin as (w & Hw & Hwp).
      apply (Hnone p Hp). congruence.
    + unfold one_active_preorder. by rewrite Hrows.
Qed.

Lemma apiStep_keeps_preorders_distinct st st' :
  apiStep st st' → preorders_distinct st → preorders_distinct st'.
Proof.
  intros Hstep Hok. destruct Hstep.
  - destruct (addToCart_tables st userId req) as (_ & Hv & _ & _ & Hpre).
    by apply (preorders_distinct_same st).
  - destruct (getCart_tables st userId) as (_ & Hv & _ & _ & _ & Hpre & _).
    by apply (preorders_distinct_same st).
  - destruct (createOrder_tables st userId req orderNumber)
      as (_ & Hv & _ & Hpre & _).
    by apply (preorders_distinct_same st).
  - destruct (cancelOrder_tables st userId id) as (_ & Hv & _ & _ & Hpre).
    by apply (preorders_distinct_same st).
  - destruct (updateOrderStatus_tables st id status)
      as (_ & Hv & _ & _ & _ & Hpre).
    by apply (preorders_distinct_same st).
  - by apply createPreorder_keeps_preorders_distinct.
  - by apply cancelPreorder_keeps_preorders_distinct.
  - by apply updatePreorderStatus_keeps_preorders_distinct.
  - by apply deleteProduct_keeps_preorders_distinct.
Qed.

(** X26. One active preorder per user, product and variant.  Take a store
    in which the preorder ids are distinct, every preorder that names a
    variant names a variant of its own product, and no user holds two
    PENDING or CONFIRMED preorders for the same product and variant.  Every
    sequence of requests to the handlers leads to a store of the same
    kind: the placement refuses a second active preorder of the same user
    for the same product and variant, no status update brings a closed
    preorder back to PENDING or CONFIRMED, and a permanent product deletion,
    which clears variant references, never touches a preorder because it
    is refused while a preorder names the product. *)
Theorem api_keeps_one_active_preorder st st' :
  rtc apiStep st st' →
  preorders_distinct st →
  preorders_distinct st'.
Proof.
  induction 1 as [|st0 st1 st2 Hstep _ IH]; [done|].
  intros Hok. apply IH. by apply (apiStep_keeps_preorders_distinct st0).
Qed.

Lemma busyShop_preorders_distinct : preorders_distinct busyShop.
Proof.
  split; [exact busyShop_ids_unique|]. split.
  - intros p vid Hp Hvid. apply list_elem_of_singleton in Hp. by subst p.
  - intros p q Hp Hq _ _ _.
    apply list_elem_of_singleton in Hp, Hq. by subst.
Qed.

Lemma api_keeps_one_active_preorder_witness :
  one_active_preorder
    (createPreorder
       (createPreorder busyShop 1 1767225600000 (preorderOf 5 None)).2
       1 1767229200000 (preorderOf 3 None)).2.
Proof.
  destruct (api_keeps_one_active_preorder busyShop
              (createPreorder
                 (createPreorder busyShop 1 1767225600000 (preorderOf 5 None)).2
                 1 1767229200000 (preorderOf 3 None)).2)
    as (_ & _ & Hone).
  - eapply rtc_l; [apply step_createPreorder|].
    apply rtc_once, step_createPreorder.
  - exact busyShop_preorders_distinct.
  - exact Hone.
Defined.
